(** * Energy and carbon accounting for a fleet of IT resources

    A shallow embedding of the Python sources [energy_calculator.py],
    [database.py], [llm_service.py], [report_generator.py], [main.py] and
    [two_agents_version/agent_monitor.py], and the properties of the
    accounting engine proved (or refuted) over it.

    Conventions of the embedding:
    - a naive [datetime] is the number of microseconds elapsed since
      0001-01-01T00:00:00 on the wall clock, a [timedelta] a number of
      microseconds, both in [Z];
    - a Python [float] is an exact rational of [Q]; equalities between
      energies are therefore stated with [==] and hold in exact
      arithmetic, before any binary rounding;
    - [datetime.now()] is an argument of the function that reads it;
    - an exception that leaves a function is a [Raised] outcome. *)

From Stdlib Require Import ZArith QArith Qminmax Qround Qabs Lqa Lia.
From Stdlib Require Import String Ascii List Sorted.
From stdpp Require Import gmap strings list fin_maps pretty.

Local Open Scope Z_scope.

(** ** Outcomes of a call: a value, or an exception that propagates *)

Inductive exn : Type :=
| ValueError          (* also its subclass json.JSONDecodeError *)
| KeyError
| TypeError
| AttributeError
| OverflowError.

Inductive outcome (A : Type) : Type :=
| Returned (a : A)
| Raised (e : exn).

Arguments Returned {A} a.
Arguments Raised {A} e.

#[global] Instance outcome_ret : MRet outcome := fun A a => Returned a.

#[global] Instance outcome_bind : MBind outcome := fun A B k o =>
  match o with
  | Returned a => k a
  | Raised e => Raised e
  end.

(** [returns o P]: the call returned, and its value satisfies [P]. *)
Definition returns {A : Type} (o : outcome A) (P : A -> Prop) : Prop :=
  match o with
  | Returned a => P a
  | Raised _ => False
  end.

(** Two outcomes agree up to [R]: the same exception, or values related
    by [R]. *)
Definition outcome_rel {A : Type} (R : A -> A -> Prop) (o o' : outcome A)
    : Prop :=
  match o, o' with
  | Returned a, Returned a' => R a a'
  | Raised x, Raised x' => x = x'
  | _, _ => False
  end.

(** ** Naive datetimes *)

Definition datetime : Type := Z.
Definition timedelta : Type := Z.

Definition usec_per_second : Z := 1000000.
Definition usec_per_hour : Z := 3600 * usec_per_second.

Definition timedelta_hours (h : Z) : timedelta := h * usec_per_hour.
Definition timedelta_days (d : Z) : timedelta := d * 24 * usec_per_hour.

(** [t.hour] *)
Definition dt_hour (t : datetime) : Z := (t / usec_per_hour) mod 24.

(** [t.replace(minute=0, second=0, microsecond=0)] *)
Definition replace_minute_second_microsecond_0 (t : datetime) : datetime :=
  t - t mod usec_per_hour.

(** [d.total_seconds()] *)
Definition total_seconds (d : timedelta) : Q :=
  (inject_Z d / inject_Z usec_per_second)%Q.

(** [round(x, 2)]: the nearest multiple of 1/100, a tie going to the
    even one. *)
Definition round_half_even (x : Q) : Z :=
  let f := Qfloor x in
  match (x - inject_Z f ?= 1 # 2)%Q with
  | Lt => f
  | Gt => f + 1
  | Eq => if Z.even f then f else f + 1
  end.

Definition round_2 (x : Q) : Q :=
  (inject_Z (round_half_even (x * 100)) / 100)%Q.

(** [needle in s] on strings. *)
Fixpoint str_contains (needle s : string) : bool :=
  if String.prefix needle s then true
  else match s with
       | EmptyString => false
       | String _ s' => str_contains needle s'
       end.

(** ** Resource types, events and resource records

    The JSON documents handled by the sources are dictionaries; they are
    read here into records, one field per key the sources look up. *)

Inductive resource_type : Type :=
| server
| workstation
| automate
| internet_gateway.

#[global] Instance resource_type_eq_dec : EqDecision resource_type.
Proof. solve_decision. Defined.

(** The string under the key ['type'] of a resource. *)
Definition type_name (rt : resource_type) : string :=
  match rt with
  | server => "server"
  | workstation => "workstation"
  | automate => "automate"
  | internet_gateway => "internet_gateway"
  end.

(** What [datetime.fromisoformat] makes of a timestamp field, once a
    trailing [Z] is rewritten and the time zone dropped with
    [replace(tzinfo=None)]. *)
Inductive timestamp_field : Type :=
| TimestampAbsent                (* no such key, or the empty string *)
| TimestampMalformed             (* ValueError or TypeError *)
| TimestampAt (t : datetime).    (* the wall-clock instant *)

(** What [int(float(x))] makes of a duration field. *)
Inductive duration_field : Type :=
| DurationAbsent                 (* no such key: the default ['0'] *)
| DurationMalformed              (* ValueError or TypeError *)
| DurationOverflow               (* float(x) is infinite, or x is an int
                                    beyond the floats: OverflowError *)
| DurationSeconds (n : Z).       (* the value truncated to an integer *)

Module Events.

Record Event : Type := {
  event_id : option string;
  event_type : option string;
  timestamp_start_event : timestamp_field;
  timestamp_end_event : timestamp_field;
  duration_event : duration_field;
  failure_probability : option Q;
  stored_at : option datetime
}.

(** A resource of the store, or of the snapshot filtered to a week
    (which carries no [created_at] and [updated_at]). *)
Record ResourceData : Type := {
  type : resource_type;
  events : list Event;
  created_at : option datetime;
  updated_at : option datetime
}.

End Events.

Import Events.

(** ** energy_calculator.py *)

Definition all_resource_types : list resource_type :=
  [server; workstation; automate; internet_gateway].

Inductive power_key : Type :=
| production
| night
| always.

Module EnergyCalculator.

(** The inner dictionaries of [POWER_CONSUMPTION]. *)
Definition POWER_CONSUMPTION (rt : resource_type) (k : power_key) : option Z :=
  match rt, k with
  | server, production => Some 100
  | server, night => Some 70
  | workstation, production => Some 60
  | workstation, night => Some 0
  | automate, production => Some 300
  | automate, night => Some 0
  | internet_gateway, always => Some 50
  | _, _ => None
  end.

(** [self.POWER_CONSUMPTION[rt][k]].  Every look-up of the source is
    guarded by the test on [internet_gateway] that precedes it, so the
    key is always present ([watts_present] below); the default is never
    reached. *)
Definition watts (rt : resource_type) (k : power_key) : Q :=
  inject_Z (default 0 (POWER_CONSUMPTION rt k)).

Definition PRODUCTION_START_HOUR : Z := 8.
Definition PRODUCTION_END_HOUR : Z := 20.

(** The items of the dictionary, in its order. *)
Definition PRODUCTION_INVENTORY : list (resource_type * Z) :=
  [(server, 10); (workstation, 20); (automate, 5); (internet_gateway, 1)].

(** [PRODUCTION_START_HOUR <= hour < PRODUCTION_END_HOUR] *)
Definition in_production_hours (hour : Z) : bool :=
  (PRODUCTION_START_HOUR <=? hour) && (hour <? PRODUCTION_END_HOUR).

(** Power drawn at an hour of the day by a resource with a
    production/night profile. *)
Definition power_at_hour (rt : resource_type) (hour : Z) : Q :=
  if in_production_hours hour then watts rt production else watts rt night.

(** The body of [while current < end_date] in [_calculate_base_energy],
    run at most [fuel] times. *)
Fixpoint base_energy_loop (fuel : nat) (rt : resource_type)
    (current end_date : datetime) (energy : Q) : Q :=
  match fuel with
  | O => energy
  | S fuel' =>
      if current <? end_date then
        let hour := dt_hour current in
        let power := power_at_hour rt hour in
        let next_hour :=
          replace_minute_second_microsecond_0 current + timedelta_hours 1 in
        let next_hour := if next_hour >? end_date then end_date else next_hour in
        let hours := (total_seconds (next_hour - current)%Z / 3600)%Q in
        base_energy_loop fuel' rt next_hour end_date (energy + power * hours)%Q
      else energy
  end.

(** A bound on the number of iterations of the loop: every iteration but
    the first starts on an hour boundary and every iteration but the last
    ends on one ([base_energy_loop_fuel] below). *)
Definition base_energy_fuel (start_date end_date : datetime) : nat :=
  Z.to_nat ((end_date - start_date) / usec_per_hour + 2).

Definition _calculate_base_energy (rt : resource_type)
    (start_date end_date : datetime) : Q :=
  match rt with
  | internet_gateway =>
      let hours := (total_seconds (end_date - start_date)%Z / 3600)%Q in
      (watts internet_gateway always * hours)%Q
  | _ =>
      base_energy_loop (base_energy_fuel start_date end_date) rt
        start_date end_date 0%Q
  end.

(** [int(float(duration_str))] under [try ... except (ValueError,
    TypeError): continue]: [None] stands for [continue]. *)
Definition parse_duration (d : duration_field) : outcome (option Z) :=
  match d with
  | DurationAbsent => Returned (Some 0)
  | DurationMalformed => Returned None
  | DurationOverflow => Raised OverflowError
  | DurationSeconds n => Returned (Some n)
  end.

(** The second [try] block: the start and end instants of the event, or
    [None] for [continue]. *)
Definition parse_timestamps (event : Event) : option (datetime * datetime) :=
  match timestamp_start_event event with
  | TimestampAbsent => None
  | TimestampMalformed => None
  | TimestampAt event_start =>
      match timestamp_end_event event with
      | TimestampAbsent => Some (event_start, event_start)
      | TimestampMalformed => None
      | TimestampAt event_end => Some (event_start, event_end)
      end
  end.

Definition power_during (rt : resource_type) (event_start : datetime) : Q :=
  match rt with
  | internet_gateway => watts internet_gateway always
  | _ =>
      let hour := dt_hour event_start in
      if in_production_hours hour then watts rt production
      else watts rt night
  end.

(** One iteration of [for event in events] in
    [_adjust_energy_for_events]. *)
Definition adjust_energy_for_event (rt : resource_type)
    (start_date end_date : datetime) (adjusted_energy : Q) (event : Event)
    : outcome Q :=
  let event_type := default "" (event_type event) in
  parsed ← parse_duration (duration_event event);
  match parsed with
  | None => mret adjusted_energy
  | Some duration_seconds =>
      let duration_hours := (inject_Z duration_seconds / 3600)%Q in
      match parse_timestamps event with
      | None => mret adjusted_energy
      | Some (event_start, event_end) =>
          if (event_start <? start_date) || (event_start >? end_date)
          then mret adjusted_energy
          else
            let power_during_event := power_during rt event_start in
            if str_contains "maintenance_stop" event_type
               || str_contains "failure" event_type
            then
              let energy_saved := (power_during_event * duration_hours)%Q in
              mret (adjusted_energy - energy_saved)%Q
            else if String.eqb event_type "cpu_overflow"
                    || String.eqb event_type "cpu_overload"
            then
              let energy_increase :=
                (power_during_event * duration_hours * 0.25)%Q in
              mret (adjusted_energy + energy_increase)%Q
            else if str_contains "update" event_type
            then
              let energy_increase :=
                (power_during_event * duration_hours * 0.1)%Q in
              mret (adjusted_energy + energy_increase)%Q
            else mret adjusted_energy
      end
  end.

Fixpoint adjust_energy_loop (rt : resource_type)
    (start_date end_date : datetime) (events : list Event)
    (adjusted_energy : Q) : outcome Q :=
  match events with
  | [] => mret adjusted_energy
  | event :: events' =>
      adjusted_energy ←
        adjust_energy_for_event rt start_date end_date adjusted_energy event;
      adjust_energy_loop rt start_date end_date events' adjusted_energy
  end.

Definition _adjust_energy_for_events (base_energy : Q) (rt : resource_type)
    (events : list Event) (start_date end_date : datetime) : outcome Q :=
  adjusted_energy ←
    adjust_energy_loop rt start_date end_date events base_energy;
  mret (Qmax 0 adjusted_energy).

(** An entry of [energy_by_resource]. *)
Record ResourceEnergy : Type := {
  re_type : resource_type;
  base_energy_wh : Q;
  adjusted_energy_wh : Q;
  events_count : nat
}.

(** The dictionary returned by [calculate_weekly_energy]. *)
Record EnergyData : Type := {
  total_energy_wh : Q;
  total_energy_kwh : Q;
  energy_by_type : resource_type -> Q;
  energy_by_resource : gmap string ResourceEnergy;
  production_inventory : list (resource_type * Z);
  period_start : datetime;
  period_end : datetime
}.

(** The state of the inner loop over [events_data.items()]:
    [total_adjusted_energy], [resources] and [resources_with_events]. *)
Definition type_state : Type := Q * gmap string ResourceEnergy * Z.

Fixpoint adjust_resources_of_type (rt : resource_type)
    (base_energy_per_resource : Q) (start_date end_date : datetime)
    (items : list (string * ResourceData)) (st : type_state)
    : outcome type_state :=
  match items with
  | [] => mret st
  | (resource_id, resource_data) :: items' =>
      let '(total_adjusted_energy, resources, resources_with_events) := st in
      if decide (type resource_data = rt) then
        let resource_events := events resource_data in
        adjusted_energy ←
          _adjust_energy_for_events base_energy_per_resource rt
            resource_events start_date end_date;
        let energy_delta := (adjusted_energy - base_energy_per_resource)%Q in
        adjust_resources_of_type rt base_energy_per_resource
          start_date end_date items'
          ((total_adjusted_energy + energy_delta)%Q,
           <[resource_id :=
               {| re_type := rt;
                  base_energy_wh := base_energy_per_resource;
                  adjusted_energy_wh := adjusted_energy;
                  events_count := length resource_events |}]> resources,
           resources_with_events + 1)
      else
        adjust_resources_of_type rt base_energy_per_resource
          start_date end_date items' st
  end.

(** [energy_by_type[rt] = v] *)
Definition set_type (f : resource_type -> Q) (rt : resource_type) (v : Q)
    : resource_type -> Q :=
  fun rt' => if decide (rt' = rt) then v else f rt'.

(** The body of the loop over [PRODUCTION_INVENTORY.items()], once the
    base energy of the type is known: [total_adjusted_energy] and the
    dictionary [resources]. *)
Definition energy_of_type (rt : resource_type) (count : Z)
    (base_energy_per_resource : Q) (start_date end_date : datetime)
    (items : list (string * ResourceData))
    (resources : gmap string ResourceEnergy)
    : outcome (Q * gmap string ResourceEnergy) :=
  let total_base_energy := (base_energy_per_resource * inject_Z count)%Q in
  '(total_adjusted_energy, resources, resources_with_events) ←
    adjust_resources_of_type rt base_energy_per_resource
      start_date end_date items (total_base_energy, resources, 0);
  let resources_without_events := count - resources_with_events in
  let total_adjusted_energy :=
    if resources_without_events >? 0 then
      (total_adjusted_energy
       + base_energy_per_resource * inject_Z resources_without_events)%Q
    else total_adjusted_energy in
  mret (total_adjusted_energy, resources).

(** The state of the outer loop over [PRODUCTION_INVENTORY.items()]:
    [total_energy_wh], [energy_by_type] and [resources]. *)
Definition week_state : Type :=
  Q * (resource_type -> Q) * gmap string ResourceEnergy.

Fixpoint energy_of_inventory (inventory : list (resource_type * Z))
    (events_data : gmap string ResourceData) (start_date end_date : datetime)
    (st : week_state) : outcome week_state :=
  match inventory with
  | [] => mret st
  | (rt, count) :: inventory' =>
      let '(total_energy_wh, energy_by_type, resources) := st in
      let base_energy_per_resource :=
        _calculate_base_energy rt start_date end_date in
      '(total_adjusted_energy, resources) ←
        energy_of_type rt count base_energy_per_resource start_date end_date
          (map_to_list events_data) resources;
      energy_of_inventory inventory' events_data start_date end_date
        ((total_energy_wh + total_adjusted_energy)%Q,
         set_type energy_by_type rt total_adjusted_energy,
         resources)
  end.

(** [calculate_weekly_energy(events_data)], with [now] the reading of
    [datetime.now()]. *)
Definition calculate_weekly_energy (now : datetime)
    (events_data : gmap string ResourceData) : outcome EnergyData :=
  let end_date := now in
  let start_date := end_date - timedelta_days 7 in
  '(total_energy_wh, energy_by_type, resources) ←
    energy_of_inventory PRODUCTION_INVENTORY events_data start_date end_date
      (0%Q, (fun _ => 0%Q), ∅);
  mret {| total_energy_wh := round_2 total_energy_wh;
          total_energy_kwh := round_2 (total_energy_wh / 1000);
          energy_by_type := fun rt => round_2 (energy_by_type rt);
          energy_by_resource := resources;
          production_inventory := PRODUCTION_INVENTORY;
          period_start := start_date;
          period_end := end_date |}.

End EnergyCalculator.

(** ** database.py *)

Module Database.

(** [event['stored_at'] = now] *)
Definition set_stored_at (event : Event) (now : datetime) : Event :=
  {| event_id := event_id event;
     event_type := event_type event;
     timestamp_start_event := timestamp_start_event event;
     timestamp_end_event := timestamp_end_event event;
     duration_event := duration_event event;
     failure_probability := failure_probability event;
     stored_at := Some now |}.

(** The record created for a resource that is not in the store yet. *)
Definition new_resource (resource_type : resource_type) (now : datetime)
    : ResourceData :=
  {| type := resource_type;
     events := [];
     created_at := Some now;
     updated_at := Some now |}.

(** [self.data[resource_id]['events'] = l] together with
    [self.data[resource_id]['updated_at'] = now] *)
Definition with_events (r : ResourceData) (l : list Event) (now : datetime)
    : ResourceData :=
  {| type := type r;
     events := l;
     created_at := created_at r;
     updated_at := Some now |}.

(** [e.get('event_id') == event_id] *)
Definition same_event_id (eid : option string) (e : Event) : Prop :=
  event_id e = eid.

#[global] Instance same_event_id_dec eid e : Decision (same_event_id eid e).
Proof. unfold same_event_id. apply _. Defined.

(** [add_event(resource_id, resource_type, event)] on the store [data];
    [now] is the reading of [datetime.now()]. *)
Definition add_event (now : datetime) (data : gmap string ResourceData)
    (resource_id : string) (resource_type : resource_type) (event : Event)
    : gmap string ResourceData :=
  let data :=
    match data !! resource_id with
    | Some _ => data
    | None => <[resource_id := new_resource resource_type now]> data
    end in
  let event :=
    match stored_at event with
    | Some _ => event
    | None => set_stored_at event now
    end in
  let eid := event_id event in
  match data !! resource_id with
  | None => data
  | Some record =>
      let existing_events := events record in
      let event_exists :=
        bool_decide (Exists (same_event_id eid) existing_events) in
      if negb event_exists then
        <[resource_id := with_events record (existing_events ++ [event]) now]>
          data
      else
        match list_find (same_event_id eid) existing_events with
        | Some (i, _) =>
            <[resource_id :=
                with_events record (<[i := event]> existing_events) now]> data
        | None => data
        end
  end.

(** [get_all_events()]: a shallow copy of the store. *)
Definition get_all_events (data : gmap string ResourceData)
    : gmap string ResourceData := data.

End Database.

(** ** llm_service.py *)

(** A Python [float] that may be infinite or not a number; only the
    values decoded from a collaborator's answer can be. *)
Inductive float_value : Type :=
| Finite (q : Q)
| PosInfinity
| NegInfinity
| NaN.

(** The values [json.loads] builds; a [JObject] carries the items of the
    decoded dictionary, whose keys are distinct. *)
#[warnings="-register-all"]
Inductive json : Type :=
| JNull
| JBool (b : bool)
| JInt (n : Z)
| JFloat (x : float_value)
| JString (s : string)
| JArray (l : list json)
| JObject (items : list (string * json)).

(** [a < b] on floats: false whenever one side is not a number. *)
Definition float_lt (a b : float_value) : bool :=
  match a, b with
  | NaN, _ => false
  | _, NaN => false
  | Finite x, Finite y => if Qlt_le_dec x y then true else false
  | NegInfinity, NegInfinity => false
  | NegInfinity, _ => true
  | _, NegInfinity => false
  | PosInfinity, _ => false
  | Finite _, PosInfinity => true
  end.

(** The built-ins [min(a, b)] and [max(a, b)]: the first argument wins
    unless the second is strictly better. *)
Definition py_min (a b : float_value) : float_value :=
  if float_lt b a then b else a.

Definition py_max (a b : float_value) : float_value :=
  if float_lt a b then b else a.

(** Python string methods, on the ASCII range. *)
Definition isspace (c : ascii) : bool :=
  let n := nat_of_ascii c in
  ((9 <=? n)%nat && (n <=? 13)%nat) || ((28 <=? n)%nat && (n <=? 32)%nat).

Fixpoint lstrip (s : string) : string :=
  match s with
  | EmptyString => EmptyString
  | String c s' => if isspace c then lstrip s' else s
  end.

Definition strip (s : string) : string :=
  String.rev (lstrip (String.rev (lstrip s))).

Definition startswith (s p : string) : bool := String.prefix p s.

Definition endswith (s p : string) : bool :=
  String.prefix (String.rev p) (String.rev s).

(** [s[n:]] and [s[:-n]] for [n > 0] *)
Definition slice_from (n : nat) (s : string) : string :=
  substring n (String.length s - n) s.

Definition slice_to_minus (n : nat) (s : string) : string :=
  substring 0 (String.length s - n) s.

(** [d.get(key)] on the items of a dictionary. *)
Fixpoint dict_get {V : Type} (items : list (string * V)) (key : string)
    : option V :=
  match items with
  | [] => None
  | (k, v) :: items' =>
      if String.eqb k key then Some v else dict_get items' key
  end.

Module LLMService.

(** The outcome of the HTTP exchange of [_call_llm]: the text of
    [result['choices'][0]['message']['content']], or any exception. *)
Inductive exchange : Type :=
| Answered (content : string)
| Failed.

(** [_call_llm]: every exception is caught and gives the empty string. *)
Definition _call_llm (x : exchange) : string :=
  match x with
  | Answered content => content
  | Failed => ""
  end.

(** The lines that free the answer of a fenced code block. *)
Definition unfence (response : string) : string :=
  let response := strip response in
  let response :=
    if startswith response "```json" then slice_from 7 response
    else response in
  let response :=
    if startswith response "```" then slice_from 3 response else response in
  let response :=
    if endswith response "```" then slice_to_minus 3 response
    else response in
  strip response.

Definition severity_map : list (string * Q) :=
  [("hardware_failure", 0.9%Q);
   ("operating_system_failure", 0.8%Q);
   ("software_service_failure", 0.6%Q);
   ("cpu_overflow", 0.5%Q);
   ("hardware_maintenance_stop", 0.2%Q);
   ("software_maintenance_stop", 0.1%Q);
   ("software_update", 0.1%Q);
   ("operating_system_update", 0.2%Q)].

(** [severity_map.get(event_type, 0.3)] *)
Definition severity (event_type : string) : Q :=
  default 0.3%Q (dict_get severity_map event_type).

(** Ints of this magnitude or more do not convert to a float. *)
Definition float_int_bound : Z := 2 ^ 1024 - 2 ^ 970.

Section Decoders.

(** The library functions the service calls: [json.loads], where [None]
    is a [JSONDecodeError], and [float] on a [str], where [None] is a
    [ValueError]. *)
Variable json_loads : string -> option json.
Variable float_of_str : string -> option float_value.

(** [float(v)] *)
Definition py_float (v : json) : outcome float_value :=
  match v with
  | JNull => Raised TypeError
  | JBool b => Returned (Finite (if b then 1 else 0))
  | JInt n =>
      if Z.abs n <? float_int_bound then Returned (Finite (inject_Z n))
      else Raised OverflowError
  | JFloat x => Returned x
  | JString s =>
      match float_of_str s with
      | Some x => Returned x
      | None => Raised ValueError
      end
  | JArray _ => Raised TypeError
  | JObject _ => Raised TypeError
  end.

(** [result.get('probability', 0.5)]: only a dictionary has [get]. *)
Definition get_probability (result : json) : outcome json :=
  match result with
  | JObject items =>
      Returned (default (JFloat (Finite 0.5)) (dict_get items "probability"))
  | _ => Raised AttributeError
  end.

(** The body of the [try] block of [predict_failure_probability]. *)
Definition parse_probability (response : string) : outcome float_value :=
  let response := unfence response in
  match json_loads response with
  | None => Raised ValueError
  | Some result =>
      value ← get_probability result;
      probability ← py_float value;
      mret (py_max (Finite 0.0) (py_min (Finite 1.0) probability))
  end.

(** [predict_failure_probability(resource_type, event)], given the
    outcome of the exchange with the collaborator. *)
Definition predict_failure_probability (x : exchange)
    (resource_type : resource_type) (event : Event) : outcome float_value :=
  let event_type := default "unknown" (event_type event) in
  let response := _call_llm x in
  match parse_probability response with
  | Returned probability => Returned probability
  | Raised ValueError | Raised KeyError =>
      Returned (Finite (severity event_type))
  | Raised e => Raised e
  end.

End Decoders.

(** An entry of [resources_with_high_co2] or [resources_with_failures]. *)
Record SummaryEntry : Type := {
  entry_id : string;
  entry_type : resource_type;
  entry_failure_probability : Q;
  entry_co2_kg : Q
}.

(** The dictionary [resource_summary] built by
    [generate_co2_reduction_advice]. *)
Record ResourceSummary : Type := {
  total_co2_kg : Q;
  total_energy_kwh : Q;
  co2_by_resource_type : list (string * Q);
  production_inventory : list (resource_type * Z);
  resources_with_high_co2 : list SummaryEntry;
  resources_with_failures : list SummaryEntry
}.

(** [max(items, key=lambda x: x[1])], started on the first item: a later
    item wins only if its value is strictly greater. *)
Fixpoint max_by_value (best : string * Q) (items : list (string * Q))
    : string * Q :=
  match items with
  | [] => best
  | x :: items' =>
      max_by_value (if Qlt_le_dec (snd best) (snd x) then x else best) items'
  end.

Definition advice_server : string :=
  "Consider server virtualization and consolidation to reduce the number of physical servers, potentially reducing CO2 emissions by 20-30%.".
Definition advice_automate : string :=
  "Optimize automate scheduling to reduce unnecessary runtime during non-production hours, reducing energy consumption.".
Definition advice_workstation : string :=
  "Implement workstation power management policies to automatically shut down or hibernate workstations during non-business hours.".
Definition advice_power_management : string :=
  "Implement power management policies across all IT resources to reduce energy consumption during idle periods.".
Definition advice_failures : string :=
  "Address high failure probability resources proactively to prevent unexpected downtime and optimize maintenance schedules, reducing overall energy waste.".
Definition advice_maintain : string :=
  "Regularly monitor and maintain IT resources to ensure optimal energy efficiency and prevent energy waste from degraded performance.".
Definition advice_renewable : string :=
  "Consider migrating to renewable energy sources or implementing energy-efficient hardware upgrades to significantly reduce carbon footprint.".
Definition advice_monitoring : string :=
  "Implement real-time energy monitoring to identify and address energy consumption anomalies and optimize resource utilization.".

(** [_fallback_co2_advice(resource_summary)] *)
Definition _fallback_co2_advice (resource_summary : ResourceSummary)
    : list string :=
  let advices := [] in
  let co2_by_type := co2_by_resource_type resource_summary in
  let advices :=
    match co2_by_type with
    | first :: rest =>
        let max_type := max_by_value first rest in
        if String.eqb (fst max_type) "server" then
          advices ++ [advice_server]
        else if String.eqb (fst max_type) "automate" then
          advices ++ [advice_automate]
        else if String.eqb (fst max_type) "workstation" then
          advices ++ [advice_workstation]
        else advices
    | [] => advices ++ [advice_power_management]
    end in
  let advices :=
    match resources_with_failures resource_summary with
    | _ :: _ => advices ++ [advice_failures]
    | [] => advices ++ [advice_maintain]
    end in
  let total_co2 := total_co2_kg resource_summary in
  let advices :=
    if Qlt_le_dec 200 total_co2 then advices ++ [advice_renewable]
    else advices ++ [advice_monitoring] in
  take 3 advices.

End LLMService.

(** ** report_generator.py *)

Module ReportGenerator.

Import EnergyCalculator.

(** An entry of [resource_details]. *)
Record ResourceDetail : Type := {
  id : string;
  type : resource_type;
  co2_kg : Q;
  energy_kwh : Q;
  failure_probability : Q;
  events_count : nat
}.

Definition co2_per_kwh : Q := 0.5.

(** [sum(l)] *)
Definition sum_floats (l : list Q) : Q := fold_left Qplus l 0%Q.

(** The average of the failure probabilities the events carry, or [0.0]. *)
Definition average_failure_probability (resource_events : list Event) : Q :=
  let failure_probs := omap Events.failure_probability resource_events in
  match failure_probs with
  | [] => 0.0%Q
  | _ :: _ =>
      (sum_floats failure_probs / inject_Z (Z.of_nat (length failure_probs)))%Q
  end.

(** One iteration of [for resource_id, resource_data in
    all_resources.items()]. *)
Definition detail_of_resource (energy_by_resource : gmap string ResourceEnergy)
    (now : datetime) (item : string * ResourceData) : ResourceDetail :=
  let '(resource_id, resource_data) := item in
  let resource_type := Events.type resource_data in
  let resource_events := events resource_data in
  let energy_wh :=
    match energy_by_resource !! resource_id with
    | Some r => adjusted_energy_wh r
    | None =>
        let end_date := now in
        let start_date := end_date - timedelta_days 7 in
        _calculate_base_energy resource_type start_date end_date
    end in
  let energy_kwh := (energy_wh / 1000)%Q in
  let co2_kg := (energy_kwh * co2_per_kwh)%Q in
  {| id := resource_id;
     type := resource_type;
     co2_kg := co2_kg;
     energy_kwh := energy_kwh;
     failure_probability := average_failure_probability resource_events;
     events_count := length resource_events |}.

(** [f"{resource_type}_{counter}"] *)
Definition synthesized_id (rt : resource_type) (counter : nat) : string :=
  type_name rt +:+ "_" +:+ pretty counter.

(** The [while True] loop that looks for an identifier not in use: the
    counter it stops on.  It is run at most [fuel] times; more identifiers
    in use than [fuel] would be needed to exhaust it
    ([free_counter_fresh] below). *)
Fixpoint free_counter (fuel : nat) (rt : resource_type)
    (existing_ids : gset string) (counter : nat) : nat :=
  match fuel with
  | O => counter
  | S fuel' =>
      if decide (synthesized_id rt counter ∈ existing_ids)
      then free_counter fuel' rt existing_ids (S counter)
      else counter
  end.

(** The state of the loops that add the resources without events:
    [existing_ids] and [resource_details]. *)
Definition details_state : Type := gset string * list ResourceDetail.

(** [for i in range(n)]: one entry per resource without events. *)
Fixpoint synthesize (n : nat) (rt : resource_type) (co2_kg energy_kwh : Q)
    (counter : nat) (st : details_state) : details_state :=
  match n with
  | O => st
  | S n' =>
      let '(existing_ids, resource_details) := st in
      let counter :=
        free_counter (S (size existing_ids)) rt existing_ids counter in
      let resource_id := synthesized_id rt counter in
      let existing_ids := {[resource_id]} ∪ existing_ids in
      let resource_details :=
        resource_details ++
        [{| id := resource_id;
            type := rt;
            co2_kg := co2_kg;
            energy_kwh := energy_kwh;
            failure_probability := 0.0%Q;
            events_count := 0 |}] in
      synthesize n' rt co2_kg energy_kwh (S counter)
        (existing_ids, resource_details)
  end.

(** [sum(1 for r in all_resources.values() if r.get('type') == rt)] *)
Definition count_of_type (rt : resource_type)
    (all_resources : gmap string ResourceData) : Z :=
  Z.of_nat
    (length (filter (fun item => Events.type item.2 = rt)
                    (map_to_list all_resources))).

(** [for resource_type, count in production_inventory.items()] *)
Fixpoint add_resources_without_events (inventory : list (resource_type * Z))
    (all_resources : gmap string ResourceData) (now : datetime)
    (st : details_state) : details_state :=
  match inventory with
  | [] => st
  | (rt, count) :: inventory' =>
      let resources_with_events := count_of_type rt all_resources in
      let resources_without_events := count - resources_with_events in
      let st :=
        if resources_without_events >? 0 then
          let end_date := now in
          let start_date := end_date - timedelta_days 7 in
          let base_energy := _calculate_base_energy rt start_date end_date in
          let energy_kwh := (base_energy / 1000)%Q in
          let co2_kg := (energy_kwh * co2_per_kwh)%Q in
          synthesize (Z.to_nat resources_without_events) rt co2_kg energy_kwh
            1%nat st
        else st in
      add_resources_without_events inventory' all_resources now st
  end.

(** The list [resource_details] of [generate_textual_report], as it
    stands before it is sorted for display: one entry per resource of the
    store, then the entries synthesized from the inventory. *)
Definition resource_details (energy_data : EnergyData)
    (all_resources : gmap string ResourceData) (now : datetime)
    : list ResourceDetail :=
  let production_inventory := production_inventory energy_data in
  let energy_by_resource := energy_by_resource energy_data in
  let resource_details :=
    map (detail_of_resource energy_by_resource now)
        (map_to_list all_resources) in
  let existing_ids : gset string := list_to_set (map id resource_details) in
  (add_resources_without_events production_inventory all_resources now
     (existing_ids, resource_details)).2.

End ReportGenerator.

(** ** two_agents_version/agent_monitor.py *)

(** [s.lower()], on the ASCII range. *)
Definition lower_ascii (c : ascii) : ascii :=
  let n := nat_of_ascii c in
  if ((65 <=? n)%nat && (n <=? 90)%nat) then ascii_of_nat (n + 32) else c.

Fixpoint lower (s : string) : string :=
  match s with
  | EmptyString => EmptyString
  | String c s' => String (lower_ascii c) (lower s')
  end.

Module AgentMonitor.

(** An entry of [parsed_events]. *)
Record ParsedEvent : Type := {
  start_dt : datetime;
  end_dt : datetime;
  event_type : string
}.

(** An entry of [RESOURCES]. *)
Record ResourceInfo : Type := {
  count : Z;
  day_power : Z;
  night_power : Z
}.

Definition RESOURCES (rt : resource_type) : ResourceInfo :=
  match rt with
  | server => {| count := 10; day_power := 100; night_power := 70 |}
  | workstation => {| count := 20; day_power := 60; night_power := 0 |}
  | automate => {| count := 5; day_power := 300; night_power := 0 |}
  | internet_gateway => {| count := 1; day_power := 50; night_power := 50 |}
  end.

Definition EVENT_MODIFIERS : list (string * Q) :=
  [("cpu_overflow", 1.0%Q);
   ("cpu_overload", 1.0%Q);
   ("cpu_max_heat_threshold", 0.8%Q);
   ("fan_failure", 0.5%Q);
   ("software_update", (-0.3)%Q);
   ("operating_system_update", (-0.3)%Q);
   ("software_service_failure", (-0.7)%Q);
   ("operating_system_failure", (-1.0)%Q);
   ("hardware_failure", (-1.0)%Q);
   ("hardware_maintenance_stop", (-1.0)%Q)].

(** [EVENT_MODIFIERS.get(etype, 0)] for the lowered type of the event. *)
Definition mod_val (event : ParsedEvent) : Q :=
  let etype := lower (event_type event) in
  default 0%Q (dict_get EVENT_MODIFIERS etype).

(** [max(current_time, evt_start) < min(next_hour, evt_end)] *)
Definition overlaps (current_time next_hour : datetime) (event : ParsedEvent)
    : bool :=
  Z.max current_time (start_dt event) <? Z.min next_hour (end_dt event).

(** [for event in events]: the sum of the modifiers of the events that
    overlap the interval. *)
Fixpoint modifier_sum_loop (current_time next_hour : datetime)
    (events : list ParsedEvent) (modifier_sum : Q) : Q :=
  match events with
  | [] => modifier_sum
  | event :: events' =>
      modifier_sum_loop current_time next_hour events'
        (if overlaps current_time next_hour event
         then (modifier_sum + mod_val event)%Q
         else modifier_sum)
  end.

(** [effective_modifier = max(-1.0, modifier_sum)] *)
Definition effective_modifier (current_time next_hour : datetime)
    (events : list ParsedEvent) : Q :=
  Qmax (-1.0) (modifier_sum_loop current_time next_hour events 0).

(** The body of [while current_time < end_dt], run at most [fuel]
    times. *)
Fixpoint interval_loop (fuel : nat) (rt : resource_type)
    (current_time end_dt : datetime) (events : list ParsedEvent)
    (total_energy_wh : Q) : Q :=
  match fuel with
  | O => total_energy_wh
  | S fuel' =>
      if current_time <? end_dt then
        let next_hour := current_time + timedelta_hours 1 in
        let next_hour := if next_hour >? end_dt then end_dt else next_hour in
        let duration_hours :=
          (total_seconds (next_hour - current_time)%Z / 3600)%Q in
        let hour := dt_hour current_time in
        let is_production := (8 <=? hour) && (hour <? 20) in
        let res_info := RESOURCES rt in
        let base_power :=
          inject_Z (if is_production then day_power res_info
                    else night_power res_info) in
        let effective_modifier :=
          effective_modifier current_time next_hour events in
        let power := (base_power * (1 + effective_modifier))%Q in
        interval_loop fuel' rt next_hour end_dt events
          (total_energy_wh + power * duration_hours)%Q
      else total_energy_wh
  end.

(** Every iteration but the last advances by an hour: the loop runs at
    most once more than there are whole hours in the interval. *)
Definition interval_fuel (start_dt end_dt : datetime) : nat :=
  Z.to_nat ((end_dt - start_dt) / usec_per_hour + 1).

Definition calculate_energy_for_interval (rt : resource_type)
    (start_dt end_dt : datetime) (events : list ParsedEvent) : Q :=
  interval_loop (interval_fuel start_dt end_dt) rt start_dt end_dt events 0%Q.

End AgentMonitor.

(** ** database.py: the queries *)

Module DatabaseQueries.

(** [get_resource_events(resource_id)]: [self.data.get(resource_id)] *)
Definition get_resource_events (data : gmap string ResourceData)
    (resource_id : string) : option ResourceData :=
  data !! resource_id.

(** [get_events_by_type(resource_type)]: the loop over
    [self.data.items()] that fills [filtered]. *)
Definition get_events_by_type (data : gmap string ResourceData)
    (resource_type : string) : gmap string ResourceData :=
  foldl (fun filtered '(resource_id, resource_data) =>
           if String.eqb (type_name (type resource_data)) resource_type
           then <[resource_id := resource_data]> filtered
           else filtered)
        ∅ (map_to_list data).

End DatabaseQueries.

(** ** main.py *)

Module ResourceEventProcessor.

(** The body of the inner loop of [_filter_events_by_date_range]:
    whether the event is appended to [filtered_events]. *)
Definition in_date_range (start_date end_date : datetime) (event : Event)
    : bool :=
  match timestamp_start_event event with
  | TimestampAbsent => false
  | TimestampMalformed => false
  | TimestampAt event_start =>
      (start_date <=? event_start) && (event_start <=? end_date)
  end.

(** [_filter_events_by_date_range(events, start_date, end_date)] *)
Definition _filter_events_by_date_range (events : gmap string ResourceData)
    (start_date end_date : datetime) : gmap string ResourceData :=
  foldl (fun filtered '(resource_id, resource_data) =>
           let filtered_events :=
             List.filter (in_date_range start_date end_date)
                         (Events.events resource_data) in
           match filtered_events with
           | [] => filtered
           | _ :: _ =>
               <[resource_id :=
                   {| type := type resource_data;
                      Events.events := filtered_events;
                      created_at := None;
                      updated_at := None |}]> filtered
           end)
        ∅ (map_to_list events).

(** [event['failure_probability'] = failure_probability].  The value
    that [predict_failure_probability] returns is a finite number, as it
    is clamped or read from the severity table; no other is stored. *)
Definition set_failure_probability (event : Event) (p : float_value)
    : Event :=
  {| event_id := event_id event;
     event_type := event_type event;
     timestamp_start_event := timestamp_start_event event;
     timestamp_end_event := timestamp_end_event event;
     duration_event := duration_event event;
     failure_probability :=
       match p with
       | Finite q => Some q
       | _ => None
       end;
     stored_at := stored_at event |}.

(** An event of the input document, with what its processing reads from
    outside: the outcome of the exchange with the collaborator and the
    clock at the time the event is stored. *)
Record InputEvent : Type := {
  input : Event;
  exchange_outcome : LLMService.exchange;
  stored_on : datetime
}.

(** A resource of the input document. *)
Record InputResource : Type := {
  input_type : resource_type;
  input_events : list InputEvent
}.

Section Decoders.

Variable json_loads : string -> option json.
Variable float_of_str : string -> option float_value.

(** [for event in events] *)
Fixpoint process_events (resource_id : string)
    (resource_type : resource_type) (events : list InputEvent)
    (data : gmap string ResourceData) : outcome (gmap string ResourceData) :=
  match events with
  | [] => mret data
  | event :: events' =>
      failure_probability ←
        LLMService.predict_failure_probability json_loads float_of_str
          (exchange_outcome event) resource_type (input event);
      let stored := set_failure_probability (input event) failure_probability in
      process_events resource_id resource_type events'
        (Database.add_event (stored_on event) data resource_id resource_type
           stored)
  end.

(** [for resource_id, resource_data in data.items()] *)
Fixpoint process_resources (items : list (string * InputResource))
    (data : gmap string ResourceData) : outcome (gmap string ResourceData) :=
  match items with
  | [] => mret data
  | (resource_id, resource_data) :: items' =>
      data ← process_events resource_id (input_type resource_data)
               (input_events resource_data) data;
      process_resources items' data
  end.

(** [process_input_file(input_file)] on the items of the document that
    the file holds: the store that [save] writes.  An exception leaves
    the function before [save] is reached. *)
Definition process_input_file (document : list (string * InputResource))
    (data : gmap string ResourceData) : outcome (gmap string ResourceData) :=
  process_resources document data.

End Decoders.

End ResourceEventProcessor.

(** ** llm_service.py: the carbon footprint and the advice *)

Module LLMServiceReports.

Import LLMService.

(** The dictionary that [_fallback_carbon_calculation] returns. *)
Record CarbonData : Type := {
  total_co2_kg : Q;
  co2_by_resource_type : list (string * Q);
  methodology : string
}.

(** [_fallback_carbon_calculation(energy_data)] *)
Definition _fallback_carbon_calculation
    (energy_data : EnergyCalculator.EnergyData) : CarbonData :=
  let total_wh := EnergyCalculator.total_energy_wh energy_data in
  let total_kwh := (total_wh / 1000)%Q in
  let co2_per_kwh := 0.5%Q in
  let total_co2 := (total_kwh * co2_per_kwh)%Q in
  let co2_by_type :=
    map (fun resource_type =>
           let wh := EnergyCalculator.energy_by_type energy_data resource_type in
           let kwh := (wh / 1000)%Q in
           (type_name resource_type, (kwh * co2_per_kwh)%Q))
        [server; workstation; automate; internet_gateway] in
  {| total_co2_kg := round_2 total_co2;
     co2_by_resource_type := map (fun '(k, v) => (k, round_2 v)) co2_by_type;
     methodology := "Standard calculation: energy (kWh) × 0.5 kg CO2/kWh" |}.


(** [sorted(l, key=key, reverse=True)]: the elements by decreasing key,
    those of equal key in the order they had.  The order of the result is
    determined by that, whatever the algorithm; here each element is put
    before the first one of the sorted rest whose key is not greater. *)
Fixpoint insert_desc {A : Type} (key : A -> Q) (x : A) (l : list A)
    : list A :=
  match l with
  | [] => [x]
  | y :: l' =>
      if Qlt_le_dec (key x) (key y) then y :: insert_desc key x l'
      else x :: l
  end.

Definition sorted_desc {A : Type} (key : A -> Q) (l : list A) : list A :=
  foldr (insert_desc key) [] l.

(** An entry of the summary for a resource.  A [SummaryEntry] keeps the
    identifier, the type, the CO2 and the failure probability; the
    entries of [resources_with_high_co2] carry [energy_kwh], which is
    twice [co2_kg], in place of the latter. *)
Definition summary_entry (r : ReportGenerator.ResourceDetail) : SummaryEntry :=
  {| entry_id := ReportGenerator.id r;
     entry_type := ReportGenerator.type r;
     entry_failure_probability := ReportGenerator.failure_probability r;
     entry_co2_kg := ReportGenerator.co2_kg r |}.

(** [r['failure_probability'] > 0.3] *)
Definition high_failure_probability (r : ReportGenerator.ResourceDetail)
    : bool :=
  if Qlt_le_dec 0.3 (ReportGenerator.failure_probability r) then true
  else false.

(** The dictionary [resource_summary] that
    [generate_co2_reduction_advice] prepares. *)
Definition resource_summary (energy_data : EnergyCalculator.EnergyData)
    (carbon_data : CarbonData)
    (resource_details : list ReportGenerator.ResourceDetail)
    : ResourceSummary :=
  let sorted_resources :=
    sorted_desc ReportGenerator.co2_kg resource_details in
  let resources_with_failures :=
    List.filter high_failure_probability resource_details in
  {| LLMService.total_co2_kg := total_co2_kg carbon_data;
     LLMService.total_energy_kwh :=
       EnergyCalculator.total_energy_kwh energy_data;
     LLMService.co2_by_resource_type := co2_by_resource_type carbon_data;
     LLMService.production_inventory :=
       EnergyCalculator.production_inventory energy_data;
     resources_with_high_co2 := summary_entry <$> take 5 sorted_resources;
     resources_with_failures :=
       summary_entry
       <$> take 5 (sorted_desc ReportGenerator.failure_probability
                     resources_with_failures) |}.

Definition generic_advice : string :=
  "Monitor and optimize energy consumption patterns.".

Section Decoders.

Variable json_loads : string -> option json.

(** The exception of [advices[:3]] on a dictionary: a [TypeError] as
    long as a slice is not hashable, a [KeyError] from Python 3.12 on. *)
Variable dict_slice_error : exn.


(** The fallback list, as the JSON value it is. *)
Definition fallback_advices (summary : ResourceSummary) : json :=
  JArray (JString <$> _fallback_co2_advice summary).

(** The lines of [generate_co2_reduction_advice] that follow
    [advices = result.get('advices', [])]. *)
Definition three_advices (summary : ResourceSummary) (advices : json)
    : outcome json :=
  match advices with
  | JArray l =>
      if (3 <=? length l)%nat then Returned (JArray (take 3 l))
      else if (0 <? length l)%nat then
        Returned (JArray (l ++ replicate (3 - length l) (JString generic_advice)))
      else Returned (fallback_advices summary)
  | JString s =>
      if (3 <=? String.length s)%nat then Returned (JString (substring 0 3 s))
      else if (0 <? String.length s)%nat then Raised AttributeError
      else Returned (fallback_advices summary)
  | JObject items =>
      if (3 <=? length items)%nat then
        match dict_slice_error with
        | KeyError | ValueError => Returned (fallback_advices summary)
        | e => Raised e
        end
      else if (0 <? length items)%nat then Raised AttributeError
      else Returned (fallback_advices summary)
  | JNull | JBool _ | JInt _ | JFloat _ => Raised TypeError
  end.

(** [generate_co2_reduction_advice(energy_data, carbon_data,
    resource_details)], given the outcome of the exchange with the
    collaborator; the value returned is a list of JSON values, or a
    string when the answer gives one for ['advices']. *)
Definition generate_co2_reduction_advice (x : exchange)
    (energy_data : EnergyCalculator.EnergyData) (carbon_data : CarbonData)
    (resource_details : list ReportGenerator.ResourceDetail)
    : outcome json :=
  let summary := resource_summary energy_data carbon_data resource_details in
  let response := _call_llm x in
  match json_loads (unfence response) with
  | None => Returned (fallback_advices summary)
  | Some (JObject items) =>
      let advices := default (JArray []) (dict_get items "advices") in
      three_advices summary advices
  | Some _ => Raised AttributeError
  end.

End Decoders.

End LLMServiceReports.

(** ** report_generator.py: the layout of the textual report *)

Module ReportGeneratorText.

Import ReportGenerator.

(** The order of the keys [(x['type'], -x['co2_kg'])]: tuples compare
    by their first components, then by their second ones. *)
Definition key_lt (a b : ResourceDetail) : bool :=
  match String.compare (type_name (type a)) (type_name (type b)) with
  | Lt => true
  | Gt => false
  | Eq => if Qlt_le_dec (- co2_kg a) (- co2_kg b) then true else false
  end.

(** [resource_details.sort(key=...)]: the entries by increasing key,
    those of equal key in the order they had.  Each entry is put before
    the first one of the sorted rest whose key is not smaller. *)
Fixpoint insert_by_key (x : ResourceDetail) (l : list ResourceDetail)
    : list ResourceDetail :=
  match l with
  | [] => [x]
  | y :: l' => if key_lt y x then y :: insert_by_key x l' else x :: l
  end.

Definition sort_details (l : list ResourceDetail) : list ResourceDetail :=
  foldr insert_by_key [] l.

(** The lines of the section of the report that lists the resources,
    without their text. *)
Inductive detail_line : Type :=
| BlankLine
| TypeHeader (rt : resource_type)     (* [f"{current_type.upper()} Resources:"] *)
| HeaderRule                          (* ["-" * 40] *)
| ResourceLine (r : ResourceDetail).  (* the line of a resource *)

(** [for resource in resource_details], with [current_type]. *)
Fixpoint detail_lines (current_type : option resource_type)
    (resource_details : list ResourceDetail) : list detail_line :=
  match resource_details with
  | [] => []
  | resource :: resource_details' =>
      if decide (Some (type resource) = current_type) then
        ResourceLine resource :: detail_lines current_type resource_details'
      else
        (match current_type with
         | Some _ => [BlankLine]
         | None => []
         end)
        ++ [TypeHeader (type resource); HeaderRule; ResourceLine resource]
        ++ detail_lines (Some (type resource)) resource_details'
  end.

(** The lines that [generate_textual_report] writes for the list
    [resource_details]: it sorts the list, then groups it by type. *)
Definition sorted_detail_lines (resource_details : list ResourceDetail)
    : list detail_line :=
  detail_lines None (sort_details resource_details).

End ReportGeneratorText.

(** ** report_generator.py: the report by type *)

Module ReportGeneratorBreakdown.

Import EnergyCalculator.




End ReportGeneratorBreakdown.

(** ** two_agents_version/agent_monitor.py: the summary *)

Module AgentMonitorSummary.

Import AgentMonitor.

Definition CO2_PER_KWH : Q := 0.475.

(** What the [try] block of the loop over [res_events_raw] makes of an
    event of the document: any exception is caught and the event is left
    out; otherwise the event has a start instant, a duration, which
    [timedelta(seconds=...)] holds in microseconds, and a type.  The
    timestamps of the document are naive and its event types are
    strings. *)
Inductive raw_event : Type :=
| RawUnparsable
| RawEvent (start : datetime) (duration : timedelta) (event_type : string).

Definition parse_event (e : raw_event) : option ParsedEvent :=
  match e with
  | RawUnparsable => None
  | RawEvent start duration event_type =>
      Some {| start_dt := start;
              end_dt := start + duration;
              event_type := event_type |}
  end.

(** [datetime.datetime(2026, 1, 8, 0, 0, 0)] and the instant seven days
    before. *)
Definition end_date : datetime := timedelta_days 739623.
Definition start_date : datetime := end_date - timedelta_days 7.

(** The names [f"{r_type}_{i}"] of the theoretical inventory. *)
Definition inventory : list string :=
  flat_map (fun r_type =>
              map (fun i : nat => type_name r_type +:+ "_" +:+ pretty i)
                  (seq 1 (Z.to_nat (count (RESOURCES r_type)))))
           all_resource_types.

(** The chain of [res_name.startswith(...)] tests; [None] stands for
    [continue]. *)
Definition type_of_name (res_name : string) : option resource_type :=
  if startswith res_name "server" then Some server
  else if startswith res_name "workstation" then Some workstation
  else if startswith res_name "automate" then Some automate
  else if startswith res_name "internet_gateway" then Some internet_gateway
  else None.

(** An entry of [summary_data["resources"]]. *)
Record ResourceUsage : Type := {
  usage_type : resource_type;
  energy_wh : Q;
  co2_kg : Q
}.





End AgentMonitorSummary.

(** * Vocabulary of the properties *)

Module EnergyCalculatorSpec.

Import EnergyCalculator.

(** Watt-hours drawn during the [n] whole hours that start at hour
    number [a], the hours being counted from the epoch. *)
Fixpoint watt_hours (rt : resource_type) (a : Z) (n : nat) : Q :=
  match n with
  | O => 0%Q
  | S n' => (power_at_hour rt (a mod 24) + watt_hours rt (a + 1) n')%Q
  end.

(** The base energy of seven days: [7 * (12 * production + 12 * night)],
    or [always * 24 * 7]. *)
Definition week_watt_hours (rt : resource_type) : Q :=
  match rt with
  | server => 14280
  | workstation => 5040
  | automate => 25200
  | internet_gateway => 8400
  end.


(** The event types that stop the resource:
    ['maintenance_stop' in event_type or 'failure' in event_type]. *)
Definition stop_class (event_type : string) : bool :=
  str_contains "maintenance_stop" event_type
  || str_contains "failure" event_type.

(** A stop-class event that starts at [t] and lasts [d] seconds, every
    field of which parses. *)
Definition stop_event_at (ev : Event) (t : datetime) (d : Z) : Prop :=
  stop_class (default "" (event_type ev)) = true
  ∧ duration_event ev = DurationSeconds d
  ∧ timestamp_start_event ev = TimestampAt t
  ∧ timestamp_end_event ev ≠ TimestampMalformed.

(** An event as the input document gives it: an identifier, a type, a
    start instant and a duration in seconds; no end instant. *)
Definition input_event (eid ty : string) (t : datetime) (d : Z) : Event :=
  {| event_id := Some eid;
     event_type := Some ty;
     timestamp_start_event := TimestampAt t;
     timestamp_end_event := TimestampAbsent;
     duration_event := DurationSeconds d;
     failure_probability := None;
     stored_at := None |}.

(** A resource of a snapshot filtered to a week. *)
Definition week_resource (rt : resource_type) (l : list Event) : ResourceData :=
  {| type := rt; events := l; created_at := None; updated_at := None |}.



(** Two stop-class events over the same interval suppress it once: the
    energy adjusted for both is the energy adjusted for the first. *)
Definition suppressed_once (base : Q) (rt : resource_type)
    (s e : datetime) (ev1 ev2 : Event) : Prop :=
  outcome_rel Qeq (_adjust_energy_for_events base rt [ev1; ev2] s e)
                  (_adjust_energy_for_events base rt [ev1] s e).

(** The energy and the count of two states of the loop over the
    resources agree; the dictionary [resources] does not bear on them. *)
Definition type_state_rel (st st' : type_state) : Prop :=
  (st.1.1 == st'.1.1)%Q ∧ st.2 = st'.2.

(** 2026-01-08T00:00:00 and 2026-01-01T10:00:00 *)
Definition jan_8_2026 : datetime := timedelta_days 739623.
Definition jan_1_2026_10h : datetime :=
  timedelta_days 739616 + timedelta_hours 10.

(** A failure of [d] seconds that starts on 2026-01-01 at 10:00. *)
Definition failure_of (d : Z) : Event :=
  input_event "E1" "hardware_failure" jan_1_2026_10h d.


(** The dictionary that [calculate_weekly_energy] returns on 2026-01-08
    for a store without any event. *)
Definition idle_week_energy_data : EnergyData :=
  {| total_energy_wh := 756000%Q;
     total_energy_kwh := 756%Q;
     energy_by_type := fun rt =>
       match rt with
       | server => 285600%Q
       | workstation => 201600%Q
       | automate => 252000%Q
       | internet_gateway => 16800%Q
       end;
     energy_by_resource := ∅;
     production_inventory := PRODUCTION_INVENTORY;
     period_start := jan_8_2026 - timedelta_days 7;
     period_end := jan_8_2026 |}.


End EnergyCalculatorSpec.

Module AgentMonitorSpec.

Import AgentMonitor.

(** An event whose modifier is -100 %. *)
Definition full_stop (event : ParsedEvent) : Prop :=
  (mod_val event == -1)%Q.

(** Two events over the same interval. *)
Definition same_interval (ev1 ev2 : ParsedEvent) : Prop :=
  start_dt ev1 = start_dt ev2 ∧ end_dt ev1 = end_dt ev2.

(** A hardware failure and a maintenance stop over the same two hours,
    from 2026-01-01 at 10:00. *)
Definition failure_10h : ParsedEvent :=
  {| start_dt := EnergyCalculatorSpec.jan_1_2026_10h;
     end_dt := EnergyCalculatorSpec.jan_1_2026_10h + timedelta_hours 2;
     event_type := "hardware_failure" |}.

Definition maintenance_10h : ParsedEvent :=
  {| start_dt := EnergyCalculatorSpec.jan_1_2026_10h;
     end_dt := EnergyCalculatorSpec.jan_1_2026_10h + timedelta_hours 2;
     event_type := "hardware_maintenance_stop" |}.

End AgentMonitorSpec.

Module DatabaseSpec.

Import Database.

(** The event as [add_event] stores it. *)
Definition stored_event (now : datetime) (event : Event) : Event :=
  match stored_at event with
  | Some _ => event
  | None => set_stored_at event now
  end.

(** Within each resource of the store, no two events share an
    [event_id]. *)
Definition unique_event_ids (data : gmap string ResourceData) : Prop :=
  ∀ resource_id record, data !! resource_id = Some record →
    NoDup (event_id <$> events record).

(** A store that holds one server with one event, [E1]. *)
Definition one_event_store : gmap string ResourceData :=
  {[ "server_1"%string :=
       EnergyCalculatorSpec.week_resource server
         [EnergyCalculatorSpec.failure_of 3600] ]}.

End DatabaseSpec.

Module LLMServiceSpec.

Import LLMService.

(** A float that is a probability. *)
Definition in_unit_interval (p : float_value) : Prop :=
  ∃ q, p = Finite q ∧ (0 <= q <= 1)%Q.

Definition is_object (v : json) : bool :=
  match v with
  | JObject _ => true
  | _ => false
  end.

(** The answer decoded from a text whose probability field is [q]. *)
Definition probability_answer (q : Q) : json :=
  JObject [("probability"%string, JFloat (Finite q));
           ("reasoning"%string, JString "none")].

(** A decoder that knows one text, to stand for [json.loads] on it. *)
Definition loads_only (text : string) (v : json) : string -> option json :=
  fun s => if String.eqb s text then Some v else None.

(** A stand-in for [float] on a [str] that parses none. *)
Definition float_of_no_str : string -> option float_value := fun _ => None.

(** The type that leads [co2_by_resource_type], if the table is not
    empty. *)
Definition leading_type (summary : ResourceSummary) : option string :=
  match co2_by_resource_type summary with
  | [] => None
  | first :: rest => Some (fst (max_by_value first rest))
  end.

(** The types for which [_fallback_co2_advice] has a recommendation. *)
Definition has_type_advice (t : string) : bool :=
  String.eqb t "server" || String.eqb t "automate"
  || String.eqb t "workstation".

(** The summary of a week in which the gateway leads the CO2 table: every
    other resource was stopped. *)
Definition gateway_led_summary : ResourceSummary :=
  {| total_co2_kg := 4.2%Q;
     total_energy_kwh := 8.4%Q;
     co2_by_resource_type :=
       [("server", 0%Q); ("workstation", 0%Q); ("automate", 0%Q);
        ("internet_gateway", 4.2%Q)];
     production_inventory := EnergyCalculator.PRODUCTION_INVENTORY;
     resources_with_high_co2 := [];
     resources_with_failures := [] |}.

End LLMServiceSpec.

Module ReportGeneratorSpec.

Import ReportGenerator.

(** The number of entries of a type in a list of details. *)
Definition entries_of_type (rt : resource_type) (l : list ResourceDetail)
    : nat :=
  length (filter (fun d => type d = rt) l).

(** The number of entries that the loop over the inventory adds for a
    type: the shortfall of each of its items of that type. *)
Fixpoint synthesized_count (rt : resource_type)
    (inventory : list (resource_type * Z))
    (all_resources : gmap string ResourceData) : nat :=
  match inventory with
  | [] => 0
  | (rt', count) :: inventory' =>
      ((if decide (rt' = rt)
        then Z.to_nat (count - count_of_type rt' all_resources)
        else 0)
       + synthesized_count rt inventory' all_resources)%nat
  end.

(** A store with two gateways, each with one short failure, for a fleet
    that has one. *)
Definition two_gateway_store : gmap string ResourceData :=
  list_to_map
    [("gateway_a"%string,
      EnergyCalculatorSpec.week_resource internet_gateway
        [EnergyCalculatorSpec.failure_of 3600]);
     ("gateway_b"%string,
      EnergyCalculatorSpec.week_resource internet_gateway
        [EnergyCalculatorSpec.failure_of 1800])].

End ReportGeneratorSpec.

Module EventOverlaySpec.

Import EnergyCalculator EnergyCalculatorSpec.





End EventOverlaySpec.

Module WeeklyEnergySpec.

Import EnergyCalculator EnergyCalculatorSpec.







End WeeklyEnergySpec.

Module BaseEnergySpec.

(** The number of clock hours that meet the window from [c] to [e]: the
    number of iterations of the loop of [_calculate_base_energy]. *)
Definition hour_cells (c e : datetime) : Z :=
  (e + usec_per_hour - 1) / usec_per_hour - c / usec_per_hour.

End BaseEnergySpec.

Module LLMServiceReportsSpec.

Import LLMService LLMServiceReports.




(** A list by decreasing key. *)
Definition descending {A : Type} (key : A -> Q) (l : list A) : Prop :=
  ∀ i j a b, (i < j)%nat → l !! i = Some a → l !! j = Some b →
    (key b <= key a)%Q.

(** An answer whose ['advices'] field is the array of the strings
    [l]. *)
Definition advices_answer (l : list string) : json :=
  JObject [("advices"%string, JArray (JString <$> l))].

End LLMServiceReportsSpec.

Module ReportGeneratorTextSpec.

Import ReportGenerator ReportGeneratorText.

(** The place of the name of a type in the order of strings:
    [automate < internet_gateway < server < workstation]. *)
Definition type_rank (rt : resource_type) : nat :=
  match rt with
  | automate => 0
  | internet_gateway => 1
  | server => 2
  | workstation => 3
  end.

(** The types of the headers among the lines, in their order. *)
Definition headers_of (lines : list detail_line) : list resource_type :=
  omap (fun line => match line with TypeHeader rt => Some rt | _ => None end)
       lines.

(** The resources of the resource lines, in their order. *)
Definition resources_of (lines : list detail_line) : list ResourceDetail :=
  omap (fun line => match line with ResourceLine r => Some r | _ => None end)
       lines.

(** An event that carries the failure probability [p]. *)
Definition predicted (ev : Event) (p : Q) : Event :=
  {| event_id := event_id ev;
     event_type := event_type ev;
     timestamp_start_event := timestamp_start_event ev;
     timestamp_end_event := timestamp_end_event ev;
     duration_event := duration_event ev;
     Events.failure_probability := Some p;
     stored_at := stored_at ev |}.

(** Every probability that the events carry lies in [[0, 1]]. *)
Definition probabilities_in_unit_interval (evs : list Event) : Prop :=
  Forall (fun ev => ∀ p, Events.failure_probability ev = Some p →
                         (0 <= p <= 1)%Q) evs.

End ReportGeneratorTextSpec.

Module AgentMonitorIntervalSpec.

Import AgentMonitor.



(** An event that meets no part of the window from [s] to [e]: it ends
    before the window starts, starts after it ends, or is empty. *)
Definition outside_window (s e : datetime) (ev : ParsedEvent) : Prop :=
  end_dt ev <= s ∨ e <= start_dt ev ∨ end_dt ev <= start_dt ev.

End AgentMonitorIntervalSpec.

Module ResourceEventProcessorSpec.

Import ResourceEventProcessor.

(** The store holds, under the resource [rid], an event of identifier
    [eid] that carries a failure probability in [[0, 1]]. *)
Definition holds_prediction (data : gmap string ResourceData)
    (rid : string) (eid : option string) : Prop :=
  ∃ record e,
    data !! rid = Some record
    ∧ e ∈ events record
    ∧ event_id e = eid
    ∧ ∃ p, failure_probability e = Some p ∧ (0 <= p <= 1)%Q.

(** An event of a resource of the document. *)
Definition event_of_document (document : list (string * InputResource))
    (rid : string) (rt : resource_type) (ev : InputEvent) : Prop :=
  ∃ res, (rid, res) ∈ document ∧ input_type res = rt ∧ ev ∈ input_events res.

(** A document of one server with two events: the exchange fails for the
    first and answers 0.7 for the second. *)
Definition two_event_document : list (string * InputResource) :=
  [("server_1"%string,
    {| input_type := server;
       input_events :=
         [{| input := EnergyCalculatorSpec.failure_of 3600;
             exchange_outcome := LLMService.Failed;
             stored_on := EnergyCalculatorSpec.jan_8_2026 |};
          {| input :=
               EnergyCalculatorSpec.input_event "E2" "software_update"
                 EnergyCalculatorSpec.jan_1_2026_10h 600;
             exchange_outcome := LLMService.Answered "A";
             stored_on := EnergyCalculatorSpec.jan_8_2026 |}] |})].

End ResourceEventProcessorSpec.

Module AgentMonitorSummarySpec.

Import AgentMonitor AgentMonitorSummary.



(** The entry of a resource of a given type: the energy of its parsed
    events over the period, and the carbon dioxide of that energy. *)
Definition usage_of (events_data : gmap string (list raw_event))
    (r_type : resource_type) (res_name : string) : ResourceUsage :=
  let energy :=
    calculate_energy_for_interval r_type start_date end_date
      (omap parse_event (default [] (events_data !! res_name))) in
  {| usage_type := r_type;
     energy_wh := energy;
     co2_kg := (energy / 1000 * CO2_PER_KWH)%Q |}.

(** The entry of a name, when its prefix is that of a type. *)
Definition entry_of (events_data : gmap string (list raw_event))
    (res_name : string) : option ResourceUsage :=
  match type_of_name res_name with
  | Some r_type => Some (usage_of events_data r_type res_name)
  | None => None
  end.

(** The energy that the summary gives a name. *)
Definition energy_of_name (events_data : gmap string (list raw_event))
    (res_name : string) : Q :=
  match entry_of events_data res_name with
  | Some usage => energy_wh usage
  | None => 0%Q
  end.

(** The sum of a quantity over names. *)
Definition sum_over (f : string -> Q) (names : list string) : Q :=
  foldr (fun name acc => (f name + acc)%Q) 0%Q names.



End AgentMonitorSummarySpec.

(** * Properties *)

Module EnergyCalculatorFacts.

Import EnergyCalculator EnergyCalculatorSpec.

Lemma returns_impl {A : Type} (o : outcome A) (P R : A -> Prop) :
  returns o P → (∀ a, P a → R a) → returns o R.
Proof. destruct o; cbn; [|contradiction]. intros HP H. apply H, HP. Qed.

Lemma watts_present rt :
  rt ≠ internet_gateway →
  is_Some (POWER_CONSUMPTION rt production) ∧ is_Some (POWER_CONSUMPTION rt night).
Proof. destruct rt; simpl; intros; try congruence; eauto. Qed.

Lemma base_energy_loop_proper fuel rt e : ∀ c a a',
  (a == a')%Q → (base_energy_loop fuel rt c e a == base_energy_loop fuel rt c e a')%Q.
Proof.
  induction fuel as [|fuel IH]; intros c a a' Ha; simpl; [exact Ha|].
  destruct (c <? e); [|exact Ha].
  apply IH. rewrite Ha. reflexivity.
Qed.


Lemma dt_hour_aligned a r :
  0 <= r < usec_per_hour → dt_hour (a * usec_per_hour + r) = a mod 24.
Proof.
  intros Hr. unfold dt_hour.
  rewrite (Z.add_comm (a * _)), Z.div_add by (unfold usec_per_hour, usec_per_second; lia).
  rewrite Z.div_small by lia. reflexivity.
Qed.

Lemma replace_aligned a r :
  0 <= r < usec_per_hour →
  replace_minute_second_microsecond_0 (a * usec_per_hour + r) = a * usec_per_hour.
Proof.
  intros Hr. unfold replace_minute_second_microsecond_0.
  rewrite (Z.add_comm (a * _)), Z.mod_add by (unfold usec_per_hour, usec_per_second; lia).
  rewrite Z.mod_small by lia. lia.
Qed.

Lemma hours_of_usec d :
  (total_seconds d / 3600 == inject_Z d / inject_Z usec_per_hour)%Q.
Proof.
  unfold total_seconds, usec_per_hour, usec_per_second. 
  change (inject_Z (3600 * 1000000)) with (3600000000%Q).
  change (inject_Z 1000000) with (1000000%Q). field.
Qed.


Lemma usec_per_hour_pos : 0 < usec_per_hour.
Proof. reflexivity. Qed.

(** One iteration of the loop, started [r] microseconds into hour [a]. *)
Lemma base_energy_loop_step fuel rt a r e acc :
  0 <= r < usec_per_hour →
  a * usec_per_hour + r < e →
  let next := Z.min ((a + 1) * usec_per_hour) e in
  Qeq (base_energy_loop (S fuel) rt (a * usec_per_hour + r) e acc)
      (base_energy_loop fuel rt next e
         (acc + power_at_hour rt (a mod 24)
                * (inject_Z (next - (a * usec_per_hour + r))
                   / inject_Z usec_per_hour))%Q).
Proof.
  intros Hr Hlt next. cbn [base_energy_loop]. cbv zeta.
  destruct (Z.ltb_spec (a * usec_per_hour + r) e) as [_|]; [|lia].
  rewrite dt_hour_aligned, replace_aligned by assumption.
  replace (a * usec_per_hour + timedelta_hours 1) with ((a + 1) * usec_per_hour)
    by (unfold timedelta_hours; lia).
  unfold next.
  destruct (Z.gtb_spec ((a + 1) * usec_per_hour) e);
    [rewrite Z.min_r by lia | rewrite Z.min_l by lia];
    apply base_energy_loop_proper;
  rewrite hours_of_usec; reflexivity.
Qed.

(** [n] iterations over whole hours. *)
Lemma base_energy_loop_whole_hours rt e : ∀ n fuel a acc,
  (a + Z.of_nat n) * usec_per_hour <= e →
  Qeq (base_energy_loop (n + fuel) rt (a * usec_per_hour) e acc)
      (base_energy_loop fuel rt ((a + Z.of_nat n) * usec_per_hour) e
         (acc + watt_hours rt a n)%Q).
Proof.
  induction n as [|n IH]; intros fuel a acc Hle.
  - simpl. rewrite Z.add_0_r. apply base_energy_loop_proper. lra.
  - pose proof usec_per_hour_pos as HH.
    change (S n + fuel)%nat with (S (n + fuel)).
    pose proof (base_energy_loop_step (n + fuel) rt a 0 e acc) as Hs.
    rewrite !Z.add_0_r in Hs. rewrite Hs by lia. clear Hs.
    rewrite Z.min_l by lia.
    replace ((a + 1) * usec_per_hour - a * usec_per_hour) with usec_per_hour by lia.
    rewrite IH by lia.
    replace (a + 1 + Z.of_nat n) with (a + Z.of_nat (S n)) by lia.
    apply base_energy_loop_proper. simpl watt_hours.
    assert (inject_Z usec_per_hour / inject_Z usec_per_hour == 1)%Q as ->.
    { apply Qmult_inv_r. discriminate. }
    lra.
Qed.


Lemma watt_hours_S rt a n :
  watt_hours rt a (S n)
  = (power_at_hour rt (a mod 24) + watt_hours rt (a + 1) n)%Q.
Proof. reflexivity. Qed.

Lemma watt_hours_mod rt : ∀ n a, watt_hours rt a n = watt_hours rt (a mod 24) n.
Proof.
  induction n as [|n IH]; intros a; [reflexivity|].
  cbn [watt_hours]. rewrite Z.mod_mod by lia.
  rewrite (IH (a + 1)), (IH (a mod 24 + 1)).
  rewrite Z.add_mod_idemp_l by lia. reflexivity.
Qed.


Lemma watt_hours_week_table rt :
  rt ≠ internet_gateway →
  forallb (fun m => Qeq_bool (watt_hours rt (Z.of_nat m) 168) (week_watt_hours rt))
          (seq 0 24) = true.
Proof. destruct rt; intros; try congruence; vm_compute; reflexivity. Qed.

Lemma watt_hours_week rt a :
  rt ≠ internet_gateway →
  (watt_hours rt a 168 == week_watt_hours rt)%Q.
Proof.
  intros Hrt. rewrite watt_hours_mod.
  pose proof (Z.mod_pos_bound a 24 ltac:(lia)) as Hm.
  pose proof (watt_hours_week_table rt Hrt) as Ht.
  rewrite forallb_forall in Ht.
  specialize (Ht (Z.to_nat (a mod 24))).
  rewrite Z2Nat.id in Ht by lia.
  apply Qeq_bool_eq, Ht, in_seq. lia.
Qed.

Lemma base_energy_loop_done fuel rt c e acc :
  e <= c → base_energy_loop fuel rt c e acc = acc.
Proof.
  intros Hle. destruct fuel; [reflexivity|]. cbn [base_energy_loop].
  destruct (Z.ltb_spec c e); [lia|reflexivity].
Qed.

(** The base energy of a week, for the resources with a production and a
    night power: the loop is that of [_calculate_base_energy]. *)
Lemma base_energy_loop_week rt s :
  rt ≠ internet_gateway →
  Qeq (base_energy_loop (base_energy_fuel s (s + timedelta_days 7)) rt
         s (s + timedelta_days 7) 0%Q)
      (week_watt_hours rt).
Proof.
  intros Hrt. pose proof usec_per_hour_pos as HH.
  assert (Hfuel : base_energy_fuel s (s + timedelta_days 7) = (168 + 2)%nat).
  { unfold base_energy_fuel, timedelta_days.
    replace (s + 7 * 24 * usec_per_hour - s) with (168 * usec_per_hour) by lia.
    rewrite Z.div_mul by lia. reflexivity. }
  rewrite Hfuel. clear Hfuel.
  set (q := s / usec_per_hour). set (r := s mod usec_per_hour).
  assert (Hs : s = q * usec_per_hour + r).
  { unfold q, r. rewrite (Z.div_mod s usec_per_hour) at 1 by lia. lia. }
  assert (Hr : 0 <= r < usec_per_hour) by (apply Z.mod_pos_bound; lia).
  assert (He : s + timedelta_days 7 = (q + 168) * usec_per_hour + r)
    by (unfold timedelta_days; lia).
  rewrite He. clearbody q r. subst s. clear He.
  rewrite <- (watt_hours_week rt q Hrt).
  destruct (Z.eq_dec r 0) as [->|Hr0].
  - rewrite !Z.add_0_r.
    rewrite (base_energy_loop_whole_hours rt _ 168 2 q) by lia.
    rewrite base_energy_loop_done by lia. lra.
  - change (168 + 2)%nat with (S (167 + 2)).
    rewrite base_energy_loop_step by lia.
    rewrite Z.min_l by lia.
    rewrite (base_energy_loop_whole_hours rt _ 167 2 (q + 1)) by lia.
    replace (q + 1 + Z.of_nat 167) with (q + 168) by lia.
    pose proof (base_energy_loop_step 1 rt (q + 168) 0
                  ((q + 168) * usec_per_hour + r)) as Hs.
    rewrite !Z.add_0_r in Hs. rewrite Hs by lia. clear Hs.
    rewrite Z.min_r by lia.
    rewrite base_energy_loop_done by lia.
    replace ((q + 168) mod 24) with (q mod 24)
      by (replace (q + 168) with (q + 7 * 24) by lia;
          rewrite Z.mod_add by lia; reflexivity).
    replace ((q + 1) * usec_per_hour - (q * usec_per_hour + r))
      with (usec_per_hour - r) by lia.
    replace ((q + 168) * usec_per_hour + r - (q + 168) * usec_per_hour)
      with r by lia.
    rewrite (watt_hours_S rt q 167).
    unfold Zminus. rewrite inject_Z_plus, inject_Z_opp.
    assert (Hh : ¬ (inject_Z usec_per_hour == 0)%Q) by discriminate.
    revert Hh. generalize (inject_Z usec_per_hour) (inject_Z r)
      (watt_hours rt (q + 1) 167) (power_at_hour rt (q mod 24)).
    intros h x w p Hh. field. exact Hh.
Qed.

Lemma base_energy_week rt s :
  Qeq (_calculate_base_energy rt s (s + timedelta_days 7)) (week_watt_hours rt).
Proof.
  destruct rt; try (apply base_energy_loop_week; discriminate).
  unfold _calculate_base_energy. rewrite hours_of_usec.
  replace (s + timedelta_days 7 - s) with (168 * usec_per_hour)
    by (unfold timedelta_days; lia).
  vm_compute. reflexivity.
Qed.


(** The fuel given to the loop is never exhausted: with more of it the
    result is the same.  First from an hour boundary, then from any
    instant. *)
Lemma base_energy_loop_fuel_aligned rt e extra : ∀ fuel a acc,
  (e - a * usec_per_hour) / usec_per_hour + 1 <= Z.of_nat fuel →
  base_energy_loop (fuel + extra) rt (a * usec_per_hour) e acc =
  base_energy_loop fuel rt (a * usec_per_hour) e acc.
Proof.
  pose proof usec_per_hour_pos as HH.
  induction fuel as [|fuel IH]; intros a acc Hfuel.
  - assert (e - a * usec_per_hour < 0) as Hneg.
    { destruct (Z.lt_ge_cases (e - a * usec_per_hour) 0) as [|Hge]; [assumption|].
      pose proof (Z.div_pos _ usec_per_hour Hge HH). lia. }
    rewrite !base_energy_loop_done by lia. reflexivity.
  - change (S fuel + extra)%nat with (S (fuel + extra)).
    cbn [base_energy_loop]. cbv zeta.
    destruct (Z.ltb_spec (a * usec_per_hour) e) as [Hlt|]; [|reflexivity].
    pose proof (replace_aligned a 0 ltac:(lia)) as Hrep.
    rewrite Z.add_0_r in Hrep. rewrite Hrep.
    replace (a * usec_per_hour + timedelta_hours 1)
      with ((a + 1) * usec_per_hour) by (unfold timedelta_hours; lia).
    destruct (Z.gtb_spec ((a + 1) * usec_per_hour) e) as [Hgt|Hle].
    + rewrite !base_energy_loop_done by lia. reflexivity.
    + apply IH.
      replace (e - (a + 1) * usec_per_hour)
        with (e - a * usec_per_hour + (-1) * usec_per_hour) by lia.
      rewrite Z.div_add by lia. lia.
Qed.

Lemma base_energy_loop_fuel rt start_date end_date extra :
  base_energy_loop (base_energy_fuel start_date end_date + extra) rt
    start_date end_date 0%Q =
  base_energy_loop (base_energy_fuel start_date end_date) rt
    start_date end_date 0%Q.
Proof.
  pose proof usec_per_hour_pos as HH.
  unfold base_energy_fuel.
  destruct (Z.le_gt_cases end_date start_date) as [Hle|Hlt].
  { rewrite !base_energy_loop_done by lia. reflexivity. }
  assert (0 <= (end_date - start_date) / usec_per_hour)
    by (apply Z.div_pos; lia).
  set (d := (end_date - start_date) / usec_per_hour) in *.
  replace (Z.to_nat (d + 2)) with (S (Z.to_nat (d + 1))) by lia.
  change (S (Z.to_nat (d + 1)) + extra)%nat
    with (S (Z.to_nat (d + 1) + extra)).
  cbn [base_energy_loop]. cbv zeta.
  destruct (Z.ltb_spec start_date end_date) as [_|]; [|lia].
  set (a := start_date / usec_per_hour).
  assert (Ha : replace_minute_second_microsecond_0 start_date
               + timedelta_hours 1 = (a + 1) * usec_per_hour).
  { unfold replace_minute_second_microsecond_0, timedelta_hours, a.
    pose proof (Z.div_mod start_date usec_per_hour). lia. }
  rewrite Ha.
  destruct (Z.gtb_spec ((a + 1) * usec_per_hour) end_date) as [Hgt|Hle].
  - rewrite !base_energy_loop_done by lia. reflexivity.
  - apply base_energy_loop_fuel_aligned.
    assert ((end_date - (a + 1) * usec_per_hour) / usec_per_hour <= d).
    { apply Z.div_le_mono; [lia|]. unfold a.
      pose proof (Z.div_mod start_date usec_per_hour).
      pose proof (Z.mod_pos_bound start_date usec_per_hour HH). lia. }
    lia.
Qed.






Lemma adjust_energy_for_stop_event rt s e acc ev t d :
  stop_event_at ev t d → s <= t <= e →
  adjust_energy_for_event rt s e acc ev =
  Returned (acc - power_during rt t * (inject_Z d / 3600))%Q.
Proof.
  intros (Hty & Hd & Hs & He) Ht. unfold adjust_energy_for_event, parse_timestamps.
  rewrite Hd, Hs. cbn.
  assert (Hw : (t <? s) || (t >? e) = false).
  { apply orb_false_iff. split; [apply Z.ltb_ge|rewrite Z.gtb_ltb; apply Z.ltb_ge]; lia. }
  unfold stop_class in Hty.
  destruct (timestamp_end_event ev); try congruence; rewrite Hw, Hty; reflexivity.
Qed.







End EnergyCalculatorFacts.

Module WeeklyEnergyFacts.

Import EnergyCalculator EnergyCalculatorSpec EnergyCalculatorFacts.

Lemma adjust_energy_for_event_proper rt s e ev a a' :
  (a == a')%Q →
  outcome_rel Qeq (adjust_energy_for_event rt s e a ev)
                  (adjust_energy_for_event rt s e a' ev).
Proof.
  intros Ha. unfold adjust_energy_for_event.
  destruct (parse_duration (duration_event ev)) as [[d|]|x]; cbn;
    try assumption; try reflexivity.
  destruct (parse_timestamps ev) as [[t1 t2]|]; cbn; [|assumption].
  repeat match goal with
         | |- context [if ?b then _ else _] => destruct b
         end; cbn; try assumption; rewrite Ha; reflexivity.
Qed.

Lemma adjust_energy_loop_proper rt s e : ∀ evs a a',
  (a == a')%Q →
  outcome_rel Qeq (adjust_energy_loop rt s e evs a)
                  (adjust_energy_loop rt s e evs a').
Proof.
  induction evs as [|ev evs IH]; intros a a' Ha; cbn; [assumption|].
  pose proof (adjust_energy_for_event_proper rt s e ev a a' Ha) as H.
  destruct (adjust_energy_for_event rt s e a ev),
           (adjust_energy_for_event rt s e a' ev); cbn in *;
    try contradiction; [apply IH|]; assumption.
Qed.

Lemma adjust_energy_for_events_proper base base' rt evs s e :
  (base == base')%Q →
  outcome_rel Qeq (_adjust_energy_for_events base rt evs s e)
                  (_adjust_energy_for_events base' rt evs s e).
Proof.
  intros Hb. unfold _adjust_energy_for_events.
  pose proof (adjust_energy_loop_proper rt s e evs base base' Hb) as H.
  destruct (adjust_energy_loop rt s e evs base),
           (adjust_energy_loop rt s e evs base'); cbn in *;
    try contradiction; [|assumption].
  rewrite H. reflexivity.
Qed.

Lemma adjust_resources_of_type_proper rt base base' s e : ∀ items st st',
  (base == base')%Q → type_state_rel st st' →
  outcome_rel type_state_rel
    (adjust_resources_of_type rt base s e items st)
    (adjust_resources_of_type rt base' s e items st').
Proof.
  induction items as [|[rid rdata] items IH];
    intros [[ta res] n] [[ta' res'] n'] Hb [Hta Hn]; cbn in *.
  - split; assumption.
  - destruct (decide (type rdata = rt)); [|apply IH; [assumption|split; assumption]].
    pose proof (adjust_energy_for_events_proper base base' rt (events rdata) s e Hb) as H.
    destruct (_adjust_energy_for_events base rt (events rdata) s e),
             (_adjust_energy_for_events base' rt (events rdata) s e); cbn in *;
      try contradiction; [|assumption].
    apply IH; [assumption|]. split; cbn; [|congruence].
    rewrite Hta, H, Hb. reflexivity.
Qed.

Lemma energy_of_type_proper rt count base base' s e items res res' :
  (base == base')%Q →
  outcome_rel (fun p p' => p.1 == p'.1)%Q
    (energy_of_type rt count base s e items res)
    (energy_of_type rt count base' s e items res').
Proof.
  intros Hb. unfold energy_of_type.
  pose proof (adjust_resources_of_type_proper rt base base' s e items
                ((base * inject_Z count)%Q, res, 0)
                ((base' * inject_Z count)%Q, res', 0) Hb) as H.
  destruct (adjust_resources_of_type rt base s e items _) as [[[ta r] n]|x],
           (adjust_resources_of_type rt base' s e items _) as [[[ta' r'] n']|x'];
    cbn in *.
  - destruct H as [Hta Hn]; [split; cbn; [rewrite Hb|]; reflexivity|].
    cbn in *. subst n'. destruct (count - n >? 0); cbn; [|assumption].
    rewrite Hta, Hb. reflexivity.
  - apply H. split; cbn; [rewrite Hb|]; reflexivity.
  - apply H. split; cbn; [rewrite Hb|]; reflexivity.
  - apply H. split; cbn; [rewrite Hb|]; reflexivity.
Qed.


Lemma round_2_proper x y : (x == y)%Q → round_2 x = round_2 y.
Proof.
  intros H. unfold round_2, round_half_even.
  assert (Hf : Qfloor (x * 100) = Qfloor (y * 100)) by (rewrite H; reflexivity).
  rewrite Hf.
  assert (Hc : (x * 100 - inject_Z (Qfloor (y * 100)) ?= 1 # 2)%Q
             = (y * 100 - inject_Z (Qfloor (y * 100)) ?= 1 # 2)%Q)
    by (rewrite H; reflexivity).
  rewrite Hc. reflexivity.
Qed.

Lemma base_energy_last_week rt now :
  Qeq (_calculate_base_energy rt (now - timedelta_days 7) now)
      (week_watt_hours rt).
Proof.
  pose proof (base_energy_week rt (now - timedelta_days 7)) as H.
  replace (now - timedelta_days 7 + timedelta_days 7) with now in H by lia.
  exact H.
Qed.

(** One type of the inventory, evaluated with the base energy of a week
    in place of the loop that computes it. *)
Lemma energy_of_inventory_week_step rt count inventory events_data now
    total by_type res v' res0 r' :
  energy_of_type rt count (week_watt_hours rt) (now - timedelta_days 7) now
    (map_to_list events_data) res0 = Returned (v', r') →
  ∃ v res',
    (v == v')%Q
    ∧ energy_of_inventory ((rt, count) :: inventory) events_data
        (now - timedelta_days 7) now (total, by_type, res)
      = energy_of_inventory inventory events_data
          (now - timedelta_days 7) now
          ((total + v)%Q, set_type by_type rt v, res').
Proof.
  intros Hv. cbn [energy_of_inventory].
  pose proof (energy_of_type_proper rt count _ _ (now - timedelta_days 7) now
                (map_to_list events_data) res res0
                (base_energy_last_week rt now)) as H.
  rewrite Hv in H.
  destruct (energy_of_type rt count _ _ _ _ res) as [[v r]|x]; cbn in H;
    [|contradiction].
  exists v, r. split; [exact H|reflexivity].
Qed.





(** The values that [calculate_weekly_energy] reports, from the energy of
    each type evaluated with the base energy of a week. *)
Lemma calculate_weekly_energy_values now events_data v1 v2 v3 v4 r1 r2 r3 r4 :
  energy_of_type server 10 (week_watt_hours server)
    (now - timedelta_days 7) now (map_to_list events_data) ∅
  = Returned (v1, r1) →
  energy_of_type workstation 20 (week_watt_hours workstation)
    (now - timedelta_days 7) now (map_to_list events_data) ∅
  = Returned (v2, r2) →
  energy_of_type automate 5 (week_watt_hours automate)
    (now - timedelta_days 7) now (map_to_list events_data) ∅
  = Returned (v3, r3) →
  energy_of_type internet_gateway 1 (week_watt_hours internet_gateway)
    (now - timedelta_days 7) now (map_to_list events_data) ∅
  = Returned (v4, r4) →
  returns (calculate_weekly_energy now events_data) (fun data =>
    total_energy_wh data = round_2 (v1 + v2 + v3 + v4)
    ∧ energy_by_type data server = round_2 v1
    ∧ energy_by_type data workstation = round_2 v2
    ∧ energy_by_type data automate = round_2 v3
    ∧ energy_by_type data internet_gateway = round_2 v4
    ∧ production_inventory data = PRODUCTION_INVENTORY).
Proof.
  intros H1 H2 H3 H4. unfold calculate_weekly_energy.
  unfold PRODUCTION_INVENTORY.
  set (by0 := fun _ : resource_type => 0%Q).
  destruct (energy_of_inventory_week_step server 10
              [(workstation, 20); (automate, 5); (internet_gateway, 1)]
              events_data now 0%Q by0 ∅ _ _ _ H1) as (w1 & s1 & V1 & ->).
  destruct (energy_of_inventory_week_step workstation 20
              [(automate, 5); (internet_gateway, 1)]
              events_data now (0 + w1)%Q (set_type by0 server w1) s1
              _ _ _ H2) as (w2 & s2 & V2 & ->).
  destruct (energy_of_inventory_week_step automate 5 [(internet_gateway, 1)]
              events_data now (0 + w1 + w2)%Q
              (set_type (set_type by0 server w1) workstation w2) s2
              _ _ _ H3) as (w3 & s3 & V3 & ->).
  destruct (energy_of_inventory_week_step internet_gateway 1 []
              events_data now (0 + w1 + w2 + w3)%Q
              (set_type (set_type (set_type by0 server w1) workstation w2)
                        automate w3) s3
              _ _ _ H4) as (w4 & s4 & V4 & ->).
  cbn [energy_of_inventory mret outcome_ret mbind outcome_bind returns
       energy_by_type total_energy_wh production_inventory].
  unfold set_type, by0.
  repeat (case_decide; try congruence).
  split; [apply round_2_proper; rewrite V1, V2, V3, V4; ring|].
  repeat split; try reflexivity; apply round_2_proper; assumption.
Qed.

(** Evaluates the energy of the four types on a snapshot and reduces a
    goal on what [calculate_weekly_energy] returns to one on the values
    found. *)
Ltac week_energy_of_types now store :=
  let H1 := fresh "H" in
  let H2 := fresh "H" in
  let H3 := fresh "H" in
  let H4 := fresh "H" in
  eassert (H1 : energy_of_type server 10 (week_watt_hours server)
                  (now - timedelta_days 7) now (map_to_list store) ∅
                = Returned (_, _)) by (vm_compute; reflexivity);
  eassert (H2 : energy_of_type workstation 20 (week_watt_hours workstation)
                  (now - timedelta_days 7) now (map_to_list store) ∅
                = Returned (_, _)) by (vm_compute; reflexivity);
  eassert (H3 : energy_of_type automate 5 (week_watt_hours automate)
                  (now - timedelta_days 7) now (map_to_list store) ∅
                = Returned (_, _)) by (vm_compute; reflexivity);
  eassert (H4 : energy_of_type internet_gateway 1
                  (week_watt_hours internet_gateway)
                  (now - timedelta_days 7) now (map_to_list store) ∅
                = Returned (_, _)) by (vm_compute; reflexivity);
  apply (returns_impl _ _ _
           (calculate_weekly_energy_values now store _ _ _ _ _ _ _ _
              H1 H2 H3 H4));
  clear H1 H2 H3 H4.

(** Without any event, the resources of the fleet are counted twice:
    [base_energy * count], and once more as resources without events. *)
Lemma idle_week_energy :
  returns (calculate_weekly_energy jan_8_2026 ∅) (fun data =>
    (total_energy_wh data == total_energy_wh idle_week_energy_data)%Q
    ∧ ∀ rt, (energy_by_type data rt
             == energy_by_type idle_week_energy_data rt)%Q).
Proof.
  week_energy_of_types jan_8_2026 (∅ : gmap string ResourceData).
  intros data (-> & Hs & Hw & Ha & Hg & _).
  split; [vm_compute; reflexivity|].
  intros []; [rewrite Hs|rewrite Hw|rewrite Ha|rewrite Hg];
    vm_compute; reflexivity.
Qed.


End WeeklyEnergyFacts.

Module DatabaseFacts.

Import Database DatabaseSpec.

Lemma stored_event_id now event : event_id (stored_event now event) = event_id event.
Proof. unfold stored_event. destruct (stored_at event); reflexivity. Qed.

(** The three ways [add_event] changes the store. *)
Lemma add_event_new now data rid rty event :
  data !! rid = None →
  add_event now data rid rty event =
  <[rid := with_events (new_resource rty now) [stored_event now event] now]>
    (<[rid := new_resource rty now]> data).
Proof.
  intros Hnone. unfold add_event. rewrite Hnone, lookup_insert_eq.
  cbn [events new_resource]. fold (stored_event now event).
  rewrite bool_decide_eq_false_2 by (intros H; inversion H). reflexivity.
Qed.

Lemma add_event_append now data rid rty event record :
  data !! rid = Some record →
  ¬ Exists (same_event_id (event_id event)) (events record) →
  add_event now data rid rty event =
  <[rid := with_events record (events record ++ [stored_event now event]) now]> data.
Proof.
  intros Hsome Hnot. unfold add_event. rewrite Hsome, Hsome.
  fold (stored_event now event). rewrite stored_event_id.
  rewrite bool_decide_eq_false_2 by assumption. reflexivity.
Qed.

Lemma add_event_replace now data rid rty event record :
  data !! rid = Some record →
  Exists (same_event_id (event_id event)) (events record) →
  ∃ i old,
    list_find (same_event_id (event_id event)) (events record) = Some (i, old)
    ∧ add_event now data rid rty event =
      <[rid := with_events record (<[i := stored_event now event]> (events record)) now]> data.
Proof.
  intros Hsome Hex. unfold add_event. rewrite Hsome, Hsome.
  fold (stored_event now event). rewrite stored_event_id.
  rewrite bool_decide_eq_true_2 by assumption. cbn [negb].
  destruct (list_find (same_event_id (event_id event)) (events record))
    as [[i old]|] eqn:Hfind.
  - exists i, old. split; reflexivity.
  - exfalso. apply list_find_None in Hfind.
    apply Exists_exists in Hex as (x & Hin & Hx).
    rewrite Forall_forall in Hfind. exact (Hfind x Hin Hx).
Qed.

(** Claim C6.  An event whose [event_id] is already in the list of the
    resource replaces the first entry that carries it, at its index, and
    the number of events of the resource does not change; every call of
    [add_event] preserves the uniqueness of [event_id] within the list of
    each resource. *)
Theorem add_event_upsert now data rid rty event :
  (∀ record,
     data !! rid = Some record →
     Exists (same_event_id (event_id event)) (events record) →
     ∃ i old record',
       list_find (same_event_id (event_id event)) (events record) = Some (i, old)
       ∧ add_event now data rid rty event !! rid = Some record'
       ∧ events record' = <[i := stored_event now event]> (events record)
       ∧ length (events record') = length (events record))
  ∧ (unique_event_ids data → unique_event_ids (add_event now data rid rty event)).
Proof.
  split.
  - intros record Hsome Hex.
    destruct (add_event_replace now data rid rty event record Hsome Hex)
      as (i & old & Hfind & ->).
    exists i, old. eexists. split; [exact Hfind|].
    rewrite lookup_insert_eq. split; [reflexivity|]. cbn [events with_events].
    split; [reflexivity|apply length_insert].
  - intros Huniq k r'.
    destruct (data !! rid) as [record|] eqn:Hsome.
    + destruct (decide (Exists (same_event_id (event_id event)) (events record)))
        as [Hex|Hnot].
      * destruct (add_event_replace now data rid rty event record Hsome Hex)
          as (i & old & Hfind & ->).
        destruct (decide (rid = k)) as [->|Hne].
        -- rewrite lookup_insert_eq. intros [= <-]. cbn [events with_events].
           apply list_find_Some in Hfind as (Hi & Hold & _).
           rewrite list_fmap_insert, stored_event_id.
           rewrite list_insert_id; [exact (Huniq k record Hsome)|].
           rewrite list_lookup_fmap, Hi. cbn. f_equal. exact Hold.
        -- rewrite lookup_insert_ne by assumption. apply Huniq.
      * rewrite (add_event_append now data rid rty event record Hsome Hnot).
        destruct (decide (rid = k)) as [->|Hne].
        -- rewrite lookup_insert_eq. intros [= <-]. cbn [events with_events].
           rewrite fmap_app. cbn. rewrite stored_event_id.
           apply NoDup_app. split; [exact (Huniq k record Hsome)|].
           split; [|apply NoDup_singleton].
           intros x Hx Hx'. apply list_elem_of_singleton in Hx'. subst x.
           apply Hnot. apply list_elem_of_fmap in Hx as (y & Hy & Hin).
           apply Exists_exists. exists y. split; [assumption|].
           unfold same_event_id. congruence.
        -- rewrite lookup_insert_ne by assumption. apply Huniq.
    + rewrite (add_event_new now data rid rty event Hsome).
      destruct (decide (rid = k)) as [->|Hne].
      * rewrite lookup_insert_eq. intros [= <-]. cbn. apply NoDup_singleton.
      * rewrite !lookup_insert_ne by assumption. apply Huniq.
Qed.
End DatabaseFacts.

Module LLMServiceFacts.

Import LLMService LLMServiceSpec.

Lemma fallback_advice_length summary :
  length (_fallback_co2_advice summary) =
  match leading_type summary with
  | None => 3%nat
  | Some t => if has_type_advice t then 3%nat else 2%nat
  end.
Proof.
  unfold _fallback_co2_advice, leading_type, has_type_advice.
  destruct (co2_by_resource_type summary) as [|first rest];
    destruct (resources_with_failures summary);
    destruct (Qlt_le_dec 200 (total_co2_kg summary)); try reflexivity.
  all: destruct (String.eqb (max_by_value first rest).1 "server"); [reflexivity|].
  all: destruct (String.eqb (max_by_value first rest).1 "automate"); [reflexivity|].
  all: destruct (String.eqb (max_by_value first rest).1 "workstation"); reflexivity.
Qed.

Lemma fallback_advice_nonempty summary :
  Forall (fun advice => advice ≠ ""%string) (_fallback_co2_advice summary).
Proof.
  unfold _fallback_co2_advice.
  destruct (co2_by_resource_type summary) as [|first rest];
    destruct (resources_with_failures summary);
    destruct (Qlt_le_dec 200 (total_co2_kg summary)).
  all: repeat match goal with
       | |- context [if ?b then _ else _] => destruct b
       end.
  all: cbn; repeat constructor; discriminate.
Qed.

(** Claim C3 fails on the code.  When [internet_gateway] leads
    [co2_by_resource_type], [_fallback_co2_advice] has no recommendation
    for the type and returns two strings, not three. *)
Theorem fallback_advice_gateway_led :
  leading_type gateway_led_summary = Some "internet_gateway"%string
  ∧ _fallback_co2_advice gateway_led_summary = [advice_maintain; advice_monitoring]
  ∧ length (_fallback_co2_advice gateway_led_summary) = 2%nat.
Proof. vm_compute. repeat split. Qed.

Section Decoded.
Variable json_loads : string -> option json.
Variable float_of_str : string -> option float_value.

Lemma clamp_in_unit_interval p :
  in_unit_interval (py_max (Finite 0.0) (py_min (Finite 1.0) p)).
Proof.
  unfold in_unit_interval, py_max, py_min.
  destruct p as [q| | |]; cbn.
  - destruct (Qlt_le_dec q 1.0); cbn.
    + destruct (Qlt_le_dec 0.0 q); eexists; (split; [reflexivity|]); lra.
    + eexists; (split; [reflexivity|]); lra.
  - eexists; (split; [reflexivity|]); lra.
  - eexists; (split; [reflexivity|]); lra.
  - eexists; (split; [reflexivity|]); lra.
Qed.

Lemma severity_in_unit_interval event_type :
  (0 <= severity event_type <= 1)%Q.
Proof.
  unfold severity, severity_map, dict_get.
  repeat match goal with
         | |- context [if ?b then _ else _] => destruct b
         end; cbn; lra.
Qed.

Lemma predict_on_decode_error x rt ev :
  json_loads (unfence (_call_llm x)) = None →
  predict_failure_probability json_loads float_of_str x rt ev = Returned (Finite (severity (default "unknown" (event_type ev)))).
Proof.
  intros Hnone. unfold predict_failure_probability, parse_probability.
  rewrite Hnone. reflexivity.
Qed.


Lemma predict_on_non_object x rt ev v :
  json_loads (unfence (_call_llm x)) = Some v →
  is_object v = false →
  predict_failure_probability json_loads float_of_str x rt ev = Raised AttributeError.
Proof.
  intros Hsome Hv. unfold predict_failure_probability, parse_probability.
  rewrite Hsome. destruct v; try discriminate; reflexivity.
Qed.


Lemma predict_outcome x rt ev :
  match predict_failure_probability json_loads float_of_str x rt ev with
  | Returned p => in_unit_interval p
  | Raised e =>
      (e = AttributeError ∨ e = TypeError ∨ e = OverflowError)
      ∧ is_Some (json_loads (unfence (_call_llm x)))
  end.
Proof.
  unfold predict_failure_probability, parse_probability.
  destruct (json_loads (unfence (_call_llm x))) as [v|]; cbn.
  2:{ eexists. split; [reflexivity|]. apply severity_in_unit_interval. }
  assert (Hsev : in_unit_interval
                   (Finite (severity (default "unknown" (event_type ev))))).
  { eexists. split; [reflexivity|]. apply severity_in_unit_interval. }
  destruct v as [|b|n|y|s|l|items]; cbn; eauto 6.
  destruct (default (JFloat (Finite 0.5)) (dict_get items "probability"))
    as [|b|n|y|s|l|items']; cbn; eauto 6 using clamp_in_unit_interval.
  - destruct (Z.abs n <? float_int_bound); cbn;
      eauto 6 using clamp_in_unit_interval.
  - destruct (float_of_str s); cbn; eauto using clamp_in_unit_interval.
Qed.

End Decoded.



(** Claim C9 fails on the code.  The answer [0.7] decodes as JSON but is
    not the expected object: [result.get] raises [AttributeError], which
    the [except] clause does not catch, and the exception leaves
    [predict_failure_probability] in place of the value of the severity
    table. *)
Theorem predict_raises_on_bare_number json_loads float_of_str rt ev :
  json_loads "0.7"%string = Some (JFloat (Finite 0.7%Q)) →
  predict_failure_probability json_loads float_of_str (Answered "0.7") rt ev
  = Raised AttributeError.
Proof.
  intros Hsome. apply (predict_on_non_object _ _ _ _ _ (JFloat (Finite 0.7%Q))).
  - exact Hsome.
  - reflexivity.
Qed.

End LLMServiceFacts.

Module ReportGeneratorFacts.

#[local] Set Warnings "-clear-no-such-hyp".
Import EnergyCalculator ReportGenerator ReportGeneratorSpec.

Lemma synthesized_id_inj rt : Inj (=) (=) (synthesized_id rt).
Proof.
  intros a b H. unfold synthesized_id in H.
  apply String.app_inj in H. apply String.app_inj in H.
  apply (inj pretty) in H. exact H.
Qed.

Lemma free_counter_ge rt ids : ∀ fuel c, (c <= free_counter fuel rt ids c)%nat.
Proof.
  induction fuel as [|fuel IH]; intros c; cbn; [lia|].
  destruct (decide (synthesized_id rt c ∈ ids)); [|lia].
  specialize (IH (S c)). lia.
Qed.

Lemma free_counter_ext rt (A B : gset string) : ∀ fuel c,
  (∀ k, (c <= k)%nat → synthesized_id rt k ∈ A ↔ synthesized_id rt k ∈ B) →
  free_counter fuel rt A c = free_counter fuel rt B c.
Proof.
  induction fuel as [|fuel IH]; intros c H; cbn; [reflexivity|].
  destruct (decide (synthesized_id rt c ∈ A)) as [Ha|Ha],
           (decide (synthesized_id rt c ∈ B)) as [Hb|Hb].
  - apply IH. intros k Hk. apply H. lia.
  - exfalso. apply Hb, H; [lia|assumption].
  - exfalso. apply Ha, H; [lia|assumption].
  - reflexivity.
Qed.

(** The loop stops on an identifier that is not in use. *)
Lemma free_counter_fresh rt : ∀ fuel (ids : gset string) c,
  (size ids < fuel)%nat →
  synthesized_id rt (free_counter fuel rt ids c) ∉ ids.
Proof.
  induction fuel as [|fuel IH]; intros ids c Hsize; [lia|]. cbn.
  destruct (decide (synthesized_id rt c ∈ ids)) as [Hin|Hnot]; [|assumption].
  set (ids' := ids ∖ {[synthesized_id rt c]}).
  assert (Hsz : size ids = S (size ids')).
  { assert (Hd : size ids' = (size ids - 1)%nat).
    { unfold ids'. rewrite size_difference by set_solver.
      rewrite size_singleton. reflexivity. }
    assert (Hne : size ids ≠ 0%nat).
    { apply size_non_empty_iff. set_solver. }
    lia. }
  assert (Hdef : ∀ x, x ∈ ids' ↔ x ∈ ids ∧ x ≠ synthesized_id rt c).
  { intros x. unfold ids'. rewrite elem_of_difference, elem_of_singleton.
    reflexivity. }
  clearbody ids'.
  rewrite (free_counter_ext rt ids ids').
  - pose proof (free_counter_ge rt ids' fuel (S c)) as Hge.
    specialize (IH ids' (S c) ltac:(lia)).
    intros Hbad. apply IH, Hdef. split; [assumption|].
    intros Heq. apply synthesized_id_inj in Heq. lia.
  - intros k Hk. rewrite Hdef. split; [|tauto].
    intros Hk'. split; [assumption|].
    intros Heq. apply synthesized_id_inj in Heq. lia.
Qed.


Lemma entries_of_type_app rt l1 l2 :
  entries_of_type rt (l1 ++ l2)
  = (entries_of_type rt l1 + entries_of_type rt l2)%nat.
Proof. unfold entries_of_type. rewrite filter_app, length_app. reflexivity. Qed.

Lemma entries_of_type_same rt l :
  Forall (fun d => type d = rt) l → entries_of_type rt l = length l.
Proof.
  unfold entries_of_type. induction 1 as [|d l Hd Hl IH]; [reflexivity|].
  rewrite filter_cons_True by assumption. cbn. rewrite IH. reflexivity.
Qed.

Lemma entries_of_type_other rt rt' l :
  rt' ≠ rt → Forall (fun d => type d = rt') l → entries_of_type rt l = 0%nat.
Proof.
  intros Hne. unfold entries_of_type. induction 1 as [|d l Hd Hl IH]; [reflexivity|].
  rewrite filter_cons_False by congruence. exact IH.
Qed.

(** The entries added for the resources of a type that have no event. *)
Lemma synthesize_spec rt co2 kwh : ∀ n counter (ids : gset string) details,
  ∃ extra,
    synthesize n rt co2 kwh counter (ids, details)
    = (list_to_set (id <$> extra) ∪ ids, details ++ extra)
    ∧ length extra = n
    ∧ Forall (fun d => type d = rt) extra
    ∧ NoDup (id <$> extra)
    ∧ Forall (fun d => id d ∉ ids) extra.
Proof.
  induction n as [|n IH]; intros counter ids details.
  - exists []. cbn. rewrite union_empty_l_L, app_nil_r.
    repeat split; constructor.
  - cbn [synthesize].
    set (c := free_counter (S (size ids)) rt ids counter).
    assert (Hfresh : synthesized_id rt c ∉ ids)
      by (apply free_counter_fresh; lia).
    set (d0 := {| id := synthesized_id rt c; type := rt; co2_kg := co2;
                  energy_kwh := kwh; failure_probability := 0.0%Q;
                  events_count := 0 |}).
    destruct (IH (S c) ({[synthesized_id rt c]} ∪ ids) (details ++ [d0]))
      as (extra & Heq & Hlen & Hty & Hnd & Hnew).
    exists (d0 :: extra). rewrite Heq. split.
    { f_equal; [|rewrite <- app_assoc; reflexivity].
      cbn. apply set_eq. intros x. set_solver. }
    split; [cbn; congruence|].
    split; [constructor; [reflexivity|assumption]|].
    split.
    + cbn. constructor; [|assumption].
      intros Hin. apply list_elem_of_fmap in Hin as (d & Hd & Hin).
      rewrite Forall_forall in Hnew. apply (Hnew d Hin).
      rewrite <- Hd. set_solver.
    + constructor; [exact Hfresh|].
      eapply Forall_impl; [exact Hnew|]. cbn. intros d Hd. set_solver.
Qed.


(** The entries added by the loop over the inventory. *)
Lemma add_resources_without_events_spec all_resources now :
  ∀ inventory (ids : gset string) details,
  ∃ extra,
    add_resources_without_events inventory all_resources now (ids, details)
    = (list_to_set (id <$> extra) ∪ ids, details ++ extra)
    ∧ NoDup (id <$> extra)
    ∧ Forall (fun d => id d ∉ ids) extra
    ∧ ∀ rt, entries_of_type rt extra
            = synthesized_count rt inventory all_resources.
Proof.
  induction inventory as [|[rt' count] inventory IH]; intros ids details.
  - exists []. cbn. rewrite union_empty_l_L, app_nil_r.
    repeat split; try constructor.
  - cbn [add_resources_without_events synthesized_count].
    set (n := count - count_of_type rt' all_resources).
    set (base := _calculate_base_energy rt' (now - timedelta_days 7) now).
    destruct (synthesize_spec rt' (base / 1000 * co2_per_kwh)%Q (base / 1000)%Q
                (Z.to_nat n) 1%nat ids details)
      as (extra1 & Heq1 & Hlen1 & Hty1 & Hnd1 & Hnew1).
    assert (Hst : (if n >? 0
                   then synthesize (Z.to_nat n) rt'
                          (base / 1000 * co2_per_kwh)%Q (base / 1000)%Q 1%nat
                          (ids, details)
                   else (ids, details))
                  = (list_to_set (id <$> extra1) ∪ ids, details ++ extra1)).
    { destruct (Z.gtb_spec n 0) as [Hpos|Hneg]; [exact Heq1|].
      replace (Z.to_nat n) with 0%nat in * by lia.
      destruct extra1; [|discriminate].
      cbn. rewrite union_empty_l_L, app_nil_r. reflexivity. }
    rewrite Hst. clear Hst Heq1.
    destruct (IH (list_to_set (id <$> extra1) ∪ ids) (details ++ extra1))
      as (extra2 & Heq2 & Hnd2 & Hnew2 & Hcount2).
    exists (extra1 ++ extra2). rewrite Heq2. split.
    { f_equal; [|rewrite <- app_assoc; reflexivity].
      rewrite fmap_app, list_to_set_app_L. apply set_eq. intros x. set_solver. }
    split.
    { rewrite fmap_app. apply NoDup_app. split; [assumption|].
      split; [|assumption].
      intros x Hx1 Hx2. apply list_elem_of_fmap in Hx2 as (d & -> & Hd).
      rewrite Forall_forall in Hnew2. apply (Hnew2 d Hd).
      apply elem_of_union_l, elem_of_list_to_set. assumption. }
    split.
    { apply Forall_app. split; [assumption|].
      eapply Forall_impl; [exact Hnew2|]. cbn. intros d Hd. set_solver. }
    intros rt. rewrite entries_of_type_app, Hcount2. f_equal.
    destruct (decide (rt' = rt)) as [->|Hne].
    + rewrite entries_of_type_same by assumption. exact Hlen1.
    + apply (entries_of_type_other rt rt'); assumption.
Qed.

Lemma synthesized_count_absent rt all_resources : ∀ inventory,
  rt ∉ inventory.*1 → synthesized_count rt inventory all_resources = 0%nat.
Proof.
  induction inventory as [|[rt' count] inventory IH]; intros Hnot; [reflexivity|].
  cbn in *. apply not_elem_of_cons in Hnot as [Hne Hnot].
  rewrite decide_False by congruence. rewrite IH by assumption. reflexivity.
Qed.

Lemma synthesized_count_unique rt count all_resources : ∀ inventory,
  NoDup inventory.*1 → (rt, count) ∈ inventory →
  synthesized_count rt inventory all_resources
  = Z.to_nat (count - count_of_type rt all_resources).
Proof.
  induction inventory as [|[rt' count'] inventory IH]; intros Hnd Hin.
  - inversion Hin.
  - cbn in *. apply NoDup_cons in Hnd as [Hhd Hnd].
    apply elem_of_cons in Hin as [[= <- <-]|Hin].
    + rewrite decide_True by reflexivity.
      rewrite synthesized_count_absent by assumption. lia.
    + rewrite decide_False.
      * rewrite IH by assumption. reflexivity.
      * intros ->. apply Hhd. apply list_elem_of_fmap. exists (rt, count).
        split; [reflexivity|assumption].
Qed.


Lemma detail_of_resource_id ebr now item :
  id (detail_of_resource ebr now item) = item.1.
Proof. destruct item. reflexivity. Qed.

Lemma detail_of_resource_type ebr now item :
  type (detail_of_resource ebr now item) = Events.type item.2.
Proof. destruct item. reflexivity. Qed.

Lemma entries_of_type_details rt ebr now (items : list (string * ResourceData)) :
  entries_of_type rt (map (detail_of_resource ebr now) items)
  = length (filter (fun item => Events.type item.2 = rt) items).
Proof.
  unfold entries_of_type. induction items as [|item items IH]; [reflexivity|].
  cbn [map]. destruct (decide (Events.type item.2 = rt)) as [Heq|Hne].
  - rewrite !filter_cons_True;
      [|assumption|rewrite detail_of_resource_type; assumption].
    cbn. rewrite IH. reflexivity.
  - rewrite !filter_cons_False;
      [|assumption|rewrite detail_of_resource_type; assumption].
    exact IH.
Qed.

(** The reconciled list: identifiers, resources of the store, and the
    number of entries of each type of the inventory. *)
Lemma resource_details_spec energy_data all_resources now :
  let details := resource_details energy_data all_resources now in
  NoDup (id <$> details)
  ∧ (∀ rid record, all_resources !! rid = Some record →
       ∃ d, d ∈ details ∧ id d = rid ∧ type d = Events.type record)
  ∧ (NoDup (production_inventory energy_data).*1 →
     ∀ rt count, (rt, count) ∈ production_inventory energy_data →
       Z.of_nat (entries_of_type rt details)
       = Z.max count (count_of_type rt all_resources)).
Proof.
  unfold resource_details.
  set (ebr := energy_by_resource energy_data).
  set (L0 := map (detail_of_resource ebr now) (map_to_list all_resources)).
  destruct (add_resources_without_events_spec all_resources now
              (production_inventory energy_data)
              (list_to_set (map id L0)) L0)
    as (extra & Heq & Hnd & Hnew & Hcount).
  rewrite Heq. cbn [snd].
  assert (Hids : id <$> L0 = (map_to_list all_resources).*1).
  { unfold L0. rewrite <- list_fmap_compose. apply list_fmap_ext.
    intros i item _. apply detail_of_resource_id. }
  split; [|split].
  - rewrite fmap_app. apply NoDup_app. split.
    { rewrite Hids. apply NoDup_fst_map_to_list. }
    split; [|assumption].
    intros x Hx Hx'. apply list_elem_of_fmap in Hx' as (d & -> & Hd).
    rewrite Forall_forall in Hnew. apply (Hnew d Hd).
    apply elem_of_list_to_set. exact Hx.
  - intros rid record Hlook.
    exists (detail_of_resource ebr now (rid, record)).
    split; [|split; reflexivity].
    apply elem_of_app. left. unfold L0. apply list_elem_of_fmap.
    exists (rid, record). split; [reflexivity|].
    apply elem_of_map_to_list. assumption.
  - intros Hinv rt count Hin.
    rewrite entries_of_type_app, Hcount.
    rewrite (synthesized_count_unique rt count all_resources _ Hinv Hin).
    unfold L0. rewrite entries_of_type_details.
    unfold count_of_type. lia.
Qed.

Lemma PRODUCTION_INVENTORY_keys : NoDup PRODUCTION_INVENTORY.*1.
Proof. cbn. repeat (constructor; [set_solver|]). constructor. Qed.

End ReportGeneratorFacts.

Module AgentMonitorFacts.
Import AgentMonitor AgentMonitorSpec.

(** The floor of the summed modifier. *)
Lemma effective_modifier_floor current next events :
  (-1 <= effective_modifier current next events)%Q.
Proof.
  unfold effective_modifier.
  eapply Qle_trans; [|apply Q.le_max_l]. vm_compute. discriminate.
Qed.

Lemma base_power_nonnegative rt (b : bool) :
  (0 <= inject_Z (if b then day_power (RESOURCES rt)
                  else night_power (RESOURCES rt)))%Q.
Proof. destruct rt, b; vm_compute; discriminate. Qed.

Lemma interval_loop_nonnegative rt e events : ∀ fuel current total,
  (0 <= total)%Q → (0 <= interval_loop fuel rt current e events total)%Q.
Proof.
  induction fuel as [|fuel IH]; intros current total Htotal;
    cbn [interval_loop]; [assumption|]. cbv zeta.
  destruct (Z.ltb_spec current e) as [Hlt|]; [|assumption].
  apply IH.
  set (next := if current + timedelta_hours 1 >? e then e
               else current + timedelta_hours 1).
  assert (Hnext : current <= next).
  { unfold next, timedelta_hours, usec_per_hour, usec_per_second.
    destruct (current + 1 * (3600 * 1000000) >? e); lia. }
  pose proof (effective_modifier_floor current next events) as Hfloor.
  pose proof (base_power_nonnegative rt
                ((8 <=? dt_hour current) && (dt_hour current <? 20))) as Hbase.
  assert (Hd : (0 <= total_seconds (next - current)%Z / 3600)%Q).
  { unfold total_seconds, usec_per_second.
    assert (0 <= inject_Z (next - current)%Z)%Q
      by (change 0%Q with (inject_Z 0); rewrite <- Zle_Qle; lia).
    change (inject_Z 1000000) with 1000000%Q.
    set (x := inject_Z (next - current)%Z) in *.
    assert (x / 1000000 / 3600 == x * (1 # 3600000000))%Q as -> by field.
    lra. }
  apply Qle_trans with (0 + 0)%Q; [discriminate|].
  apply Qplus_le_compat; [assumption|].
  apply Qmult_le_0_compat; [|assumption].
  apply Qmult_le_0_compat; [assumption|lra].
Qed.


Lemma interval_loop_done fuel rt c e events total :
  e <= c → interval_loop fuel rt c e events total = total.
Proof.
  intros Hle. destruct fuel; [reflexivity|]. cbn [interval_loop].
  destruct (Z.ltb_spec c e); [lia|reflexivity].
Qed.

(** The fuel given to the loop is never exhausted. *)
Lemma interval_loop_fuel rt e events extra : ∀ fuel c total,
  (e - c) / usec_per_hour + 1 <= Z.of_nat fuel →
  interval_loop (fuel + extra) rt c e events total
  = interval_loop fuel rt c e events total.
Proof.
  assert (HH : 0 < usec_per_hour) by reflexivity.
  induction fuel as [|fuel IH]; intros c total Hfuel.
  - assert (e - c < 0) as Hneg.
    { destruct (Z.lt_ge_cases (e - c) 0) as [|Hge]; [assumption|].
      pose proof (Z.div_pos _ usec_per_hour Hge HH). lia. }
    rewrite !interval_loop_done by lia. reflexivity.
  - change (S fuel + extra)%nat with (S (fuel + extra)).
    cbn [interval_loop]. cbv zeta.
    destruct (Z.ltb_spec c e) as [Hlt|]; [|reflexivity].
    destruct (Z.gtb_spec (c + timedelta_hours 1) e) as [Hgt|Hle].
    + rewrite !interval_loop_done by lia. reflexivity.
    + apply IH. unfold timedelta_hours in *.
      replace (e - (c + 1 * usec_per_hour))
        with (e - c + (-1) * usec_per_hour) by lia.
      rewrite Z.div_add by lia. lia.
Qed.

(** The loop depends on the events through the effective modifier of
    each interval only. *)
Lemma interval_loop_ext rt e (A B : list ParsedEvent) :
  (∀ c n, effective_modifier c n A == effective_modifier c n B)%Q →
  ∀ fuel c total total',
    (total == total')%Q →
    (interval_loop fuel rt c e A total
     == interval_loop fuel rt c e B total')%Q.
Proof.
  intros Hext. induction fuel as [|fuel IH]; intros c total total' Ht;
    cbn [interval_loop]; [assumption|]. cbv zeta.
  destruct (c <? e); [|assumption].
  apply IH. rewrite Ht, Hext. reflexivity.
Qed.

Lemma overlaps_same_interval c n ev1 ev2 :
  same_interval ev1 ev2 → overlaps c n ev2 = overlaps c n ev1.
Proof. intros [Hs He]. unfold overlaps. rewrite Hs, He. reflexivity. Qed.

(** Two full stops over the same interval: the floor keeps the modifier
    of one. *)
Lemma effective_modifier_two_stops c n ev1 ev2 :
  full_stop ev1 → full_stop ev2 → same_interval ev1 ev2 →
  (effective_modifier c n [ev1; ev2] == effective_modifier c n [ev1])%Q.
Proof.
  unfold full_stop. intros H1 H2 Hsame. unfold effective_modifier.
  cbn [modifier_sum_loop]. rewrite (overlaps_same_interval c n ev1 ev2 Hsame).
  destruct (overlaps c n ev1); [|reflexivity].
  rewrite H1, H2. reflexivity.
Qed.

End AgentMonitorFacts.

Module EnergyCalculatorProperties.
Import EnergyCalculator EnergyCalculatorSpec EnergyCalculatorFacts.




(** Claim C1, amended.  The floor of -1.0 on the summed modifier is that
    of the sub-interval variant, [calculate_energy_for_interval]: there
    the effective modifier of every sub-interval is at least -1.0, the
    energy is never below 0, and two events of modifier -1.0 over the same
    interval suppress it once.  [_adjust_energy_for_events] has no
    modifier per sub-interval: each stop-class event of the window
    subtracts the power at its start instant times its duration, two
    events that overlap being subtracted one after the other, and only
    the total is floored at 0, so the energy returned is never below
    0. *)
Theorem stop_events_floor rt s e :
  (∀ base ev1 ev2 t1 d1 t2 d2,
     stop_event_at ev1 t1 d1 → stop_event_at ev2 t2 d2 →
     s <= t1 <= e → s <= t2 <= e →
     returns (_adjust_energy_for_events base rt [ev1; ev2] s e)
       (fun adjusted =>
          adjusted
          = Qmax 0 (base - power_during rt t1 * (inject_Z d1 / 3600)
                         - power_during rt t2 * (inject_Z d2 / 3600))
          ∧ 0 <= adjusted)%Q)
  ∧ (∀ events,
       (∀ current next,
          (-1 <= AgentMonitor.effective_modifier current next events)%Q)
       ∧ (0 <= AgentMonitor.calculate_energy_for_interval rt s e events)%Q)
  ∧ (∀ p1 p2,
       AgentMonitorSpec.full_stop p1 → AgentMonitorSpec.full_stop p2 →
       AgentMonitorSpec.same_interval p1 p2 →
       (AgentMonitor.calculate_energy_for_interval rt s e [p1; p2]
        == AgentMonitor.calculate_energy_for_interval rt s e [p1])%Q).
Proof.
  split; [|split].
  - intros base ev1 ev2 t1 d1 t2 d2 H1 H2 Ht1 Ht2.
    unfold _adjust_energy_for_events. cbn [adjust_energy_loop].
    rewrite (adjust_energy_for_stop_event rt s e base ev1 t1 d1 H1 Ht1).
    cbn [mbind outcome_bind].
    rewrite (adjust_energy_for_stop_event rt s e _ ev2 t2 d2 H2 Ht2).
    cbn [mbind outcome_bind mret outcome_ret returns].
    split; [reflexivity|apply Q.le_max_l].
  - intros events. split.
    + intros current next. apply AgentMonitorFacts.effective_modifier_floor.
    + apply AgentMonitorFacts.interval_loop_nonnegative. discriminate.
  - intros p1 p2 Hp1 Hp2 Hsame.
    apply AgentMonitorFacts.interval_loop_ext; [|reflexivity].
    intros c n.
    apply AgentMonitorFacts.effective_modifier_two_stops; assumption.
Qed.

Lemma stop_events_floor_witness :
  returns (_adjust_energy_for_events 14280 server
             [input_event "E1" "hardware_failure" jan_1_2026_10h 7200;
              input_event "E2" "hardware_maintenance_stop" jan_1_2026_10h 7200]
             (jan_8_2026 - timedelta_days 7) jan_8_2026)
          (fun adjusted =>
             adjusted = Qmax 0 (14280
                                - power_during server jan_1_2026_10h
                                  * (inject_Z 7200 / 3600)
                                - power_during server jan_1_2026_10h
                                  * (inject_Z 7200 / 3600))
             ∧ 0 <= adjusted)%Q
  ∧ Qeq (AgentMonitor.calculate_energy_for_interval server
           (jan_8_2026 - timedelta_days 7) jan_8_2026
           [AgentMonitorSpec.failure_10h; AgentMonitorSpec.maintenance_10h])
        (AgentMonitor.calculate_energy_for_interval server
           (jan_8_2026 - timedelta_days 7) jan_8_2026
           [AgentMonitorSpec.failure_10h]).
Proof.
  destruct (stop_events_floor server (jan_8_2026 - timedelta_days 7)
              jan_8_2026) as (Hdelta & _ & Honce).
  split.
  - apply (Hdelta 14280%Q _ _ jan_1_2026_10h 7200 jan_1_2026_10h 7200).
    + repeat split; discriminate.
    + repeat split; discriminate.
    + vm_compute. split; discriminate.
    + vm_compute. split; discriminate.
  - apply Honce.
    + reflexivity.
    + reflexivity.
    + split; reflexivity.
Defined.

(** Claim C1 as stated fails.  Two stop-class events over the same two
    hours take 400 Wh off the energy of a server, twice the 200 Wh that
    the interval carries and that the first event alone takes off: the
    interval is suppressed twice. *)
Lemma double_stop_suppressed_twice :
  let s := jan_8_2026 - timedelta_days 7 in
  let stop1 := input_event "E1" "hardware_failure" jan_1_2026_10h 7200 in
  let stop2 :=
    input_event "E2" "hardware_maintenance_stop" jan_1_2026_10h 7200 in
  stop_event_at stop1 jan_1_2026_10h 7200
  ∧ stop_event_at stop2 jan_1_2026_10h 7200
  ∧ returns (_adjust_energy_for_events 14280 server [stop1] s jan_8_2026)
            (fun adjusted => adjusted == 14280 - 200)%Q
  ∧ returns (_adjust_energy_for_events 14280 server [stop1; stop2] s jan_8_2026)
            (fun adjusted => adjusted == 14280 - 400)%Q
  ∧ ¬ suppressed_once 14280 server s jan_8_2026 stop1 stop2.
Proof.
  cbv zeta. split; [repeat split; discriminate|].
  split; [repeat split; discriminate|].
  split; [vm_compute; reflexivity|].
  split; [vm_compute; reflexivity|].
  unfold suppressed_once. vm_compute. discriminate.
Qed.

End EnergyCalculatorProperties.

Module ReportGeneratorProperties.
Import EnergyCalculator EnergyCalculatorSpec ReportGenerator ReportGeneratorSpec.
Import ReportGeneratorFacts.

(** Claim C4, amended.  The list [resource_details] holds every resource
    of the store once, under identifiers that are all distinct; for a
    type of which the store holds no more resources than the inventory
    counts, it has exactly that count of entries; for a type of which the
    store holds more, it keeps them all and synthesizes none. *)
Theorem resource_details_complete energy_data all_resources now :
  NoDup (production_inventory energy_data).*1 →
  let details := resource_details energy_data all_resources now in
  NoDup (id <$> details)
  ∧ (∀ rid record, all_resources !! rid = Some record →
       ∃ d, d ∈ details ∧ id d = rid ∧ type d = Events.type record)
  ∧ (∀ rt count, (rt, count) ∈ production_inventory energy_data →
       (count_of_type rt all_resources <= count →
        Z.of_nat (entries_of_type rt details) = count)
       ∧ (count < count_of_type rt all_resources →
          Z.of_nat (entries_of_type rt details)
          = count_of_type rt all_resources)).
Proof.
  intros Hinv details.
  destruct (resource_details_spec energy_data all_resources now)
    as (Hnd & Hall & Hcount).
  split; [exact Hnd|]. split; [exact Hall|].
  intros rt count Hin. specialize (Hcount Hinv rt count Hin).
  fold details in Hcount. split; intros; lia.
Qed.

Lemma resource_details_complete_witness :
  Z.of_nat (entries_of_type server
              (resource_details idle_week_energy_data two_gateway_store
                 jan_8_2026)) = 10
  ∧ Z.of_nat (entries_of_type internet_gateway
                (resource_details idle_week_energy_data two_gateway_store
                   jan_8_2026)) = 2.
Proof.
  assert (Hinv : NoDup (production_inventory idle_week_energy_data).*1)
    by (apply (bool_decide_unpack _); vm_compute; exact I).
  destruct (resource_details_complete idle_week_energy_data two_gateway_store
              jan_8_2026 Hinv) as (_ & _ & Hcount).
  split.
  - apply (Hcount server 10); [|vm_compute; discriminate].
    repeat constructor.
  - apply (Hcount internet_gateway 1); [|vm_compute; reflexivity].
    repeat constructor.
Defined.

(** Claim C4 as stated fails.  With two gateways in the store and one in
    the inventory, the weekly calculation and the list of details are
    both returned, and the list has two entries for the type. *)
Lemma two_gateways_kept_silently :
  count_of_type internet_gateway two_gateway_store = 2
  ∧ returns (calculate_weekly_energy jan_8_2026 two_gateway_store)
      (fun data =>
         entries_of_type internet_gateway
           (resource_details data two_gateway_store jan_8_2026) = 2%nat).
Proof.
  assert (Hc : count_of_type internet_gateway two_gateway_store = 2)
    by (vm_compute; reflexivity).
  split; [exact Hc|].
  WeeklyEnergyFacts.week_energy_of_types jan_8_2026 two_gateway_store.
  intros data (_ & _ & _ & _ & _ & Hinv).
  destruct (resource_details_spec data two_gateway_store jan_8_2026)
    as (_ & _ & Hcount).
  rewrite Hinv in Hcount.
  specialize (Hcount PRODUCTION_INVENTORY_keys internet_gateway 1).
  rewrite Hc in Hcount. apply Nat2Z.inj. apply Hcount. repeat constructor.
Qed.

End ReportGeneratorProperties.

Module StoreAndServiceProperties.
Import EnergyCalculatorSpec Database DatabaseSpec DatabaseFacts.
Import LLMService LLMServiceSpec LLMServiceFacts.

Lemma add_event_upsert_witness :
  ∃ record',
    add_event jan_8_2026 one_event_store "server_1" server (failure_of 60)
      !! "server_1"%string = Some record'
    ∧ events record' = [stored_event jan_8_2026 (failure_of 60)]
    ∧ length (events record') = 1%nat.
Proof.
  destruct (add_event_upsert jan_8_2026 one_event_store "server_1" server
              (failure_of 60)) as [Hreplace _].
  destruct (Hreplace (week_resource server [failure_of 3600]))
    as (i & old & record' & Hfind & Hlook & Hev & Hlen).
  - reflexivity.
  - apply Exists_cons_hd. reflexivity.
  - exists record'. split; [exact Hlook|]. split; [|exact Hlen].
    rewrite Hev. vm_compute in Hfind. injection Hfind as <- <-. reflexivity.
Defined.

Lemma predict_raises_on_bare_number_witness :
  predict_failure_probability
    (loads_only "0.7" (JFloat (Finite 0.7%Q))) float_of_no_str
    (Answered "0.7") server (failure_of 3600)
  = Raised AttributeError.
Proof.
  apply predict_raises_on_bare_number. reflexivity.
Defined.


End StoreAndServiceProperties.

(** * Further properties *)

Module BaseEnergyFacts.

Import EnergyCalculator EnergyCalculatorSpec EnergyCalculatorFacts.
Import BaseEnergySpec.






Lemma hour_cells_mono_r c e e' : e <= e' → hour_cells c e <= hour_cells c e'.
Proof.
  intros Hle. pose proof usec_per_hour_pos as HH. unfold hour_cells.
  assert ((e + usec_per_hour - 1) / usec_per_hour
          <= (e' + usec_per_hour - 1) / usec_per_hour)
    by (apply Z.div_le_mono; lia).
  lia.
Qed.















(** Property X3.  On a window that ends before it starts, the loop of
    [_calculate_base_energy] does not run and the base energy of a server,
    a workstation or an automate is 0; that of the gateway is its power
    times the negative length of the window, below 0. *)
Theorem base_energy_of_reversed_window rt s e :
  e < s →
  (rt ≠ internet_gateway → _calculate_base_energy rt s e = 0%Q)
  ∧ (_calculate_base_energy internet_gateway s e < 0)%Q.
Proof.
  intros Hlt. split.
  - intros Hrt. destruct rt; try congruence;
      unfold _calculate_base_energy; apply base_energy_loop_done; lia.
  - unfold _calculate_base_energy. rewrite hours_of_usec.
    assert (H : (inject_Z (e - s) / inject_Z usec_per_hour < 0)%Q).
    { apply Qlt_shift_div_r; [reflexivity|]. rewrite Qmult_0_l.
      change 0%Q with (inject_Z 0). rewrite <- Zlt_Qlt. lia. }
    change (watts internet_gateway always) with (inject_Z 50).
    revert H. generalize (inject_Z (e - s) / inject_Z usec_per_hour)%Q.
    intros q Hq. change (inject_Z 50) with 50%Q. lra.
Qed.

Lemma base_energy_of_reversed_window_witness :
  0 < 3600000000
  ∧ _calculate_base_energy server 3600000000 0 = 0%Q
  ∧ (_calculate_base_energy internet_gateway 3600000000%Z 0%Z < 0)%Q.
Proof.
  split; [lia|].
  destruct (base_energy_of_reversed_window server 3600000000 0 ltac:(lia))
    as [H1 H2].
  split; [apply H1; discriminate|exact H2].
Defined.

End BaseEnergyFacts.

Module EventOverlayFacts.

Import EnergyCalculator EnergyCalculatorSpec EnergyCalculatorFacts.
Import WeeklyEnergyFacts EventOverlaySpec.










End EventOverlayFacts.

Module WeeklyAccountingFacts.

Import EnergyCalculator EnergyCalculatorSpec EnergyCalculatorFacts.
Import WeeklyEnergyFacts WeeklyEnergySpec.

















End WeeklyAccountingFacts.

Module DatabaseQueryFacts.

Import Database DatabaseSpec DatabaseFacts DatabaseQueries.

Lemma stored_event_stored now event :
  stored_event now (stored_event now event) = stored_event now event.
Proof. unfold stored_event. destruct (stored_at event) eqn:H; cbn; rewrite ?H; reflexivity. Qed.

(** Where [add_event] leaves the event: at the first index of the list
    that carries its identifier. *)
Lemma add_event_result now data rid rty event :
  ∃ record i,
    add_event now data rid rty event
    = <[rid := record]> (match data !! rid with
                         | Some _ => data
                         | None => <[rid := new_resource rty now]> data
                         end)
    ∧ type record = match data !! rid with Some r => type r | None => rty end
    ∧ created_at record
      = match data !! rid with Some r => created_at r | None => Some now end
    ∧ updated_at record = Some now
    ∧ events record !! i = Some (stored_event now event)
    ∧ (∀ j e, (j < i)%nat → events record !! j = Some e →
         ¬ same_event_id (event_id event) e)
    ∧ length (events record)
      = match data !! rid with
        | Some r =>
            if decide (Exists (same_event_id (event_id event)) (events r))
            then length (events r) else S (length (events r))
        | None => 1%nat
        end.
Proof.
  destruct (data !! rid) as [r|] eqn:Hr.
  - destruct (decide (Exists (same_event_id (event_id event)) (events r)))
      as [Hex|Hnot].
    + destruct (add_event_replace now data rid rty event r Hr Hex)
        as (i & old & Hfind & ->).
      apply list_find_Some in Hfind as (Hi & Hold & Hbefore).
      eexists _, i. split; [reflexivity|]. cbn [type created_at updated_at events with_events].
      repeat split.
      * apply list_lookup_insert_eq. apply lookup_lt_Some in Hi. exact Hi.
      * intros j e Hj He. rewrite list_lookup_insert_ne in He by lia.
        exact (Hbefore j e He Hj).
      * apply length_insert.
    + rewrite (add_event_append now data rid rty event r Hr Hnot).
      eexists _, (length (events r)). split; [reflexivity|].
      cbn [type created_at updated_at events with_events]. repeat split.
      * rewrite lookup_app_r by lia. rewrite Nat.sub_diag. reflexivity.
      * intros j e Hj He. rewrite lookup_app_l in He by lia.
        intros Hsame. apply Hnot. apply Exists_exists. exists e.
        split; [|exact Hsame]. apply list_elem_of_lookup. exists j. exact He.
      * rewrite length_app. cbn. lia.
  - rewrite (add_event_new now data rid rty event Hr).
    eexists _, 0%nat. split; [reflexivity|]. cbn. repeat split.
    intros j e Hj. lia.
Qed.

(** Property X9.  [add_event] touches one resource only: every other entry
    of the store is as it was. The resource of the event is in the store
    afterwards, with its type and creation time as they were if it
    existed, and the event, stamped with [stored_at], is among its events. *)
Theorem add_event_stores_event now data rid rty event :
  (∀ rid', rid' ≠ rid →
     get_resource_events (add_event now data rid rty event) rid'
     = get_resource_events data rid')
  ∧ ∃ record,
      get_resource_events (add_event now data rid rty event) rid = Some record
      ∧ stored_event now event ∈ events record
      ∧ type record
        = match data !! rid with Some r => type r | None => rty end
      ∧ created_at record
        = match data !! rid with Some r => created_at r | None => Some now end
      ∧ updated_at record = Some now.
Proof.
  destruct (add_event_result now data rid rty event)
    as (record & i & -> & Hty & Hcr & Hup & Hi & _).
  unfold get_resource_events. split.
  - intros rid' Hne. rewrite lookup_insert_ne by congruence.
    destruct (data !! rid); [reflexivity|].
    rewrite lookup_insert_ne by congruence. reflexivity.
  - exists record. rewrite lookup_insert_eq. split; [reflexivity|].
    split; [|repeat split; assumption].
    apply list_elem_of_lookup. exists i. exact Hi.
Qed.

Lemma first_match_unique {A} (P : A → Prop) `{∀ x, Decision (P x)}
    (l : list A) i j x y :
  l !! i = Some x → P x → (∀ k z, (k < i)%nat → l !! k = Some z → ¬ P z) →
  l !! j = Some y → P y → (∀ k z, (k < j)%nat → l !! k = Some z → ¬ P z) →
  i = j.
Proof.
  intros Hi Hx Hbi Hj Hy Hbj.
  destruct (Nat.lt_trichotomy i j) as [Hlt|[Heq|Hgt]]; [|exact Heq|].
  - exfalso. exact (Hbj i x Hlt Hi Hx).
  - exfalso. exact (Hbi j y Hgt Hj Hy).
Qed.

(** Property X10.  Adding again an event that [add_event] has stored
    changes nothing but [updated_at]: the list of events of the resource
    is the same. With the same reading of the clock, the store is the
    same. *)
Theorem add_event_idempotent now data rid rty event :
  ∃ record,
    add_event now data rid rty event !! rid = Some record
    ∧ (∀ now' rty',
         add_event now' (add_event now data rid rty event) rid rty'
           (stored_event now event)
         = <[rid := with_events record (events record) now']>
             (add_event now data rid rty event))
    ∧ (∀ rty',
         add_event now (add_event now data rid rty event) rid rty' event
         = add_event now data rid rty event).
Proof.
  destruct (add_event_result now data rid rty event)
    as (record & i & Heq & Hty & Hcr & Hup & Hi & Hbefore & _).
  set (data1 := add_event now data rid rty event) in *.
  assert (Hr1 : data1 !! rid = Some record)
    by (rewrite Heq; apply lookup_insert_eq).
  assert (Hid : event_id (stored_event now event) = event_id event)
    by apply stored_event_id.
  assert (Hex : ∀ ev', event_id ev' = event_id event →
            Exists (same_event_id (event_id ev')) (events record)).
  { intros ev' Hev'. apply Exists_exists. exists (stored_event now event).
    split; [apply list_elem_of_lookup; exists i; exact Hi|].
    unfold same_event_id. congruence. }
  assert (Hagain : ∀ now' rty' ev',
            event_id ev' = event_id event →
            stored_event now' ev' = stored_event now event →
            add_event now' data1 rid rty' ev'
            = <[rid := with_events record (events record) now']> data1).
  { intros now' rty' ev' Hev' Hst.
    destruct (add_event_replace now' data1 rid rty' ev' record Hr1 (Hex ev' Hev'))
      as (k & old & Hfind & ->).
    apply list_find_Some in Hfind as (Hk & Hold & Hbk).
    assert (k = i) as ->.
    { apply (first_match_unique (same_event_id (event_id event))
               (events record) k i old (stored_event now event)).
      - exact Hk.
      - unfold same_event_id in *. congruence.
      - intros j z Hj Hz Hs. apply (Hbk j z Hz Hj).
        unfold same_event_id in *. congruence.
      - exact Hi.
      - exact Hid.
      - exact Hbefore. }
    rewrite Hst, list_insert_id by exact Hi. reflexivity. }
  exists record. split; [exact Hr1|]. split.
  - intros now' rty'. apply Hagain; [exact Hid|].
    unfold stored_event at 1.
    destruct (stored_at (stored_event now event)) eqn:Hs; [reflexivity|].
    exfalso. unfold stored_event in Hs.
    destruct (stored_at event) eqn:Hs'; cbn in Hs; congruence.
  - intros rty'. rewrite (Hagain now rty' event eq_refl eq_refl).
    assert (with_events record (events record) now = record) as ->.
    { destruct record as [t l c u]. cbn in *. unfold with_events. cbn.
      congruence. }
    apply insert_id. exact Hr1.
Qed.

Lemma get_events_by_type_fold t : ∀ (items : list (string * ResourceData))
    (filtered : gmap string ResourceData) rid,
  NoDup items.*1 →
  foldl (fun filtered '(resource_id, resource_data) =>
           if String.eqb (type_name (type resource_data)) t
           then <[resource_id := resource_data]> filtered
           else filtered) filtered items !! rid
  = match list_find (fun item => item.1 = rid) items with
    | Some (_, (_, r)) =>
        if String.eqb (type_name (type r)) t then Some r else filtered !! rid
    | None => filtered !! rid
    end.
Proof.
  induction items as [|[rid0 r0] items IH]; intros filtered rid Hnd;
    [reflexivity|].
  cbn in Hnd. apply NoDup_cons in Hnd as [Hnotin Hnd].
  cbn [foldl]. rewrite IH by exact Hnd. cbn [list_find].
  destruct (decide ((rid0, r0).1 = rid)) as [Heq|Hne]; cbn in *.
  - subst rid0.
    destruct (list_find (fun item => item.1 = rid) items) as [[k [rid1 r1]]|]
      eqn:Hfind.
    + exfalso. apply list_find_Some in Hfind as (Hk & Hrid & _). cbn in Hrid.
      subst rid1. apply Hnotin. apply list_elem_of_fmap. exists (rid, r1).
      split; [reflexivity|]. apply list_elem_of_lookup. exists k. exact Hk.
    + cbn. destruct (String.eqb (type_name (type r0)) t);
        [apply lookup_insert_eq|reflexivity].
  - destruct (list_find (fun item => item.1 = rid) items) as [[k [rid1 r1]]|];
      cbn.
    + destruct (String.eqb (type_name (type r1)) t); [reflexivity|].
      destruct (String.eqb (type_name (type r0)) t); [|reflexivity].
      apply lookup_insert_ne. exact Hne.
    + destruct (String.eqb (type_name (type r0)) t); [|reflexivity].
      apply lookup_insert_ne. exact Hne.
Qed.

(** Property X11.  [get_events_by_type] returns the resources of the store
    whose type has the name asked for, each with the record that the store
    holds, and no other. *)
Theorem get_events_by_type_spec data t rid r :
  get_events_by_type data t !! rid = Some r
  ↔ get_resource_events data rid = Some r ∧ type_name (type r) = t.
Proof.
  unfold get_events_by_type, get_resource_events.
  rewrite get_events_by_type_fold by apply NoDup_fst_map_to_list.
  rewrite lookup_empty.
  destruct (list_find (fun item => item.1 = rid) (map_to_list data))
    as [[k [rid1 r1]]|] eqn:Hfind.
  - apply list_find_Some in Hfind as (Hk & Hrid & _). cbn in Hrid. subst rid1.
    assert (Hr1 : data !! rid = Some r1).
    { apply elem_of_map_to_list. apply list_elem_of_lookup. exists k. exact Hk. }
    rewrite Hr1.
    destruct (String.eqb_spec (type_name (type r1)) t) as [Ht|Ht].
    + split; [intros [= <-]; split; [reflexivity|exact Ht]|].
      intros [[= <-] _]. reflexivity.
    + split; [discriminate|]. intros [[= <-] Ht']. contradiction.
  - split; [discriminate|]. intros [Hr _]. exfalso.
    apply list_find_None in Hfind. rewrite Forall_forall in Hfind.
    apply (Hfind (rid, r)); [|reflexivity].
    apply elem_of_map_to_list. exact Hr.
Qed.

End DatabaseQueryFacts.

Module ResourceEventProcessorFacts.

Import EnergyCalculator EnergyCalculatorSpec EnergyCalculatorFacts.
Import ResourceEventProcessor.

(** A loop that fills a dictionary from the items of another, one key at
    most once. *)
Lemma foldl_insert_lookup {A B : Type} (f : string → A → option B)
    (g : gmap string B → string * A → gmap string B) :
  (∀ m k v, g m (k, v) = match f k v with
                         | Some w => <[k := w]> m
                         | None => m
                         end) →
  ∀ (items : list (string * A)) (m : gmap string B) k,
    NoDup items.*1 →
    foldl g m items !! k
    = match list_find (fun item => item.1 = k) items with
      | Some (_, (_, v)) =>
          match f k v with Some w => Some w | None => m !! k end
      | None => m !! k
      end.
Proof.
  intros Hg. induction items as [|[k0 v0] items IH]; intros m k Hnd;
    [reflexivity|].
  cbn in Hnd. apply NoDup_cons in Hnd as [Hnotin Hnd].
  cbn [foldl]. rewrite IH by exact Hnd. rewrite Hg. cbn [list_find].
  destruct (decide ((k0, v0).1 = k)) as [Heq|Hne]; cbn in *.
  - subst k0.
    destruct (list_find (fun item => item.1 = k) items) as [[i [k1 v1]]|]
      eqn:Hfind.
    + exfalso. apply list_find_Some in Hfind as (Hi & Hk & _). cbn in Hk.
      subst k1. apply Hnotin. apply list_elem_of_fmap. exists (k, v1).
      split; [reflexivity|]. apply list_elem_of_lookup. exists i. exact Hi.
    + cbn. destruct (f k v0); [apply lookup_insert_eq|reflexivity].
  - destruct (list_find (fun item => item.1 = k) items) as [[i [k1 v1]]|];
      cbn.
    + destruct (f k v1); [reflexivity|].
      destruct (f k0 v0); [|reflexivity].
      apply lookup_insert_ne. exact Hne.
    + destruct (f k0 v0); [|reflexivity].
      apply lookup_insert_ne. exact Hne.
Qed.

Lemma list_find_key {A : Type} (m : gmap string A) k :
  list_find (fun item => item.1 = k) (map_to_list m)
  = match m !! k with
    | Some v => list_find (fun item => item.1 = k) (map_to_list m)
    | None => None
    end
  ∧ ∀ i k' v, list_find (fun item => item.1 = k) (map_to_list m)
              = Some (i, (k', v)) → k' = k ∧ m !! k = Some v.
Proof.
  split.
  - destruct (m !! k) as [v|] eqn:Hv; [reflexivity|].
    apply list_find_None. apply Forall_forall. intros [k' v'] Hin Hk.
    cbn in Hk. subst k'. apply elem_of_map_to_list in Hin. congruence.
  - intros i k' v Hfind. apply list_find_Some in Hfind as (Hi & Hk & _).
    cbn in Hk. subst k'. split; [reflexivity|].
    apply elem_of_map_to_list. apply list_elem_of_lookup. exists i. exact Hi.
Qed.

(** The entry of a resource in the filtered snapshot. *)
Lemma filter_events_lookup data s e rid :
  _filter_events_by_date_range data s e !! rid
  = match data !! rid with
    | Some r =>
        match List.filter (in_date_range s e) (events r) with
        | [] => None
        | ev :: evs =>
            Some {| type := type r; events := ev :: evs;
                    created_at := None; updated_at := None |}
        end
    | None => None
    end.
Proof.
  unfold _filter_events_by_date_range.
  rewrite (foldl_insert_lookup
             (fun (_ : string) (r : ResourceData) =>
                match List.filter (in_date_range s e) (events r) with
                | [] => None
                | ev :: evs =>
                    Some {| type := type r; events := ev :: evs;
                            created_at := None; updated_at := None |}
                end)).
  - rewrite lookup_empty.
    destruct (list_find_key data rid) as [H1 H2].
    destruct (list_find (fun item => item.1 = rid) (map_to_list data))
      as [[i [k v]]|] eqn:Hfind.
    + destruct (H2 i k v eq_refl) as [-> Hv]. rewrite Hv.
      destruct (List.filter (in_date_range s e) (events v)); reflexivity.
    + destruct (data !! rid) as [r|] eqn:Hr; [|reflexivity].
      exfalso. apply list_find_None in Hfind. rewrite Forall_forall in Hfind.
      apply (Hfind (rid, r)); [|reflexivity].
      apply elem_of_map_to_list. exact Hr.
  - intros m k v. cbv zeta.
    destruct (List.filter (in_date_range s e) (events v)); reflexivity.
  - apply NoDup_fst_map_to_list.
Qed.

Lemma in_date_range_spec s e ev :
  in_date_range s e ev = true
  ↔ ∃ t, timestamp_start_event ev = TimestampAt t ∧ s <= t <= e.
Proof.
  unfold in_date_range. destruct (timestamp_start_event ev) as [| |t].
  - split; [discriminate|]. intros (t & [=] & _).
  - split; [discriminate|]. intros (t & [=] & _).
  - rewrite andb_true_iff, Z.leb_le, Z.leb_le. split.
    + intros H. exists t. split; [reflexivity|exact H].
    + intros (t' & [= <-] & H). exact H.
Qed.


Lemma filter_narrow s e s' e' : ∀ evs,
  s <= s' → e' <= e →
  List.filter (in_date_range s' e') (List.filter (in_date_range s e) evs)
  = List.filter (in_date_range s' e') evs.
Proof.
  intros evs Hs He. induction evs as [|ev evs IH]; [reflexivity|].
  cbn [List.filter].
  destruct (in_date_range s e ev) eqn:H1; cbn [List.filter];
    destruct (in_date_range s' e' ev) eqn:H2; rewrite IH; try reflexivity.
  exfalso. apply in_date_range_spec in H2 as (t & Ht & Hin).
  assert (in_date_range s e ev = true); [|congruence].
  apply in_date_range_spec. exists t. split; [exact Ht|lia].
Qed.

(** Property X13.  Filtering a filtered snapshot to a window within the
    first one gives the snapshot filtered to the second window; in
    particular filtering twice to the same window is filtering once. *)
Theorem filter_events_narrow data s e s' e' :
  s <= s' → e' <= e →
  _filter_events_by_date_range (_filter_events_by_date_range data s e) s' e'
  = _filter_events_by_date_range data s' e'.
Proof.
  intros Hs He. apply map_eq. intros rid.
  rewrite !filter_events_lookup.
  destruct (data !! rid) as [r0|]; [|reflexivity].
  pose proof (filter_narrow s e s' e' (events r0) Hs He) as Hn.
  destruct (List.filter (in_date_range s e) (events r0)) as [|ev evs] eqn:Hf.
  - cbn in Hn. rewrite <- Hn. reflexivity.
  - cbn [events type]. rewrite Hn.
    destruct (List.filter (in_date_range s' e') (events r0)); reflexivity.
Qed.

Lemma filter_events_narrow_witness :
  jan_8_2026 - timedelta_days 7 <= jan_1_2026_10h
  ∧ jan_1_2026_10h + timedelta_hours 2 <= jan_8_2026
  ∧ _filter_events_by_date_range
      (_filter_events_by_date_range DatabaseSpec.one_event_store
         (jan_8_2026 - timedelta_days 7) jan_8_2026)
      jan_1_2026_10h (jan_1_2026_10h + timedelta_hours 2)
    = _filter_events_by_date_range DatabaseSpec.one_event_store
        jan_1_2026_10h (jan_1_2026_10h + timedelta_hours 2).
Proof.
  assert (H1 : jan_8_2026 - timedelta_days 7 <= jan_1_2026_10h)
    by (vm_compute; discriminate).
  assert (H2 : jan_1_2026_10h + timedelta_hours 2 <= jan_8_2026)
    by (vm_compute; discriminate).
  split; [exact H1|]. split; [exact H2|].
  exact (filter_events_narrow DatabaseSpec.one_event_store _ _ _ _ H1 H2).
Defined.





End ResourceEventProcessorFacts.

Module ProcessInputFacts.

Import Database DatabaseSpec DatabaseFacts DatabaseQueryFacts.
Import LLMService LLMServiceSpec LLMServiceFacts.
Import ResourceEventProcessor ResourceEventProcessorSpec.

Lemma stored_prediction now ev p :
  in_unit_interval p →
  event_id (stored_event now (set_failure_probability ev p)) = event_id ev
  ∧ ∃ q, failure_probability (stored_event now (set_failure_probability ev p))
         = Some q ∧ (0 <= q <= 1)%Q.
Proof.
  intros (q & -> & Hq). split; [rewrite stored_event_id; reflexivity|].
  exists q. split; [|exact Hq].
  unfold stored_event. destruct (stored_at _); reflexivity.
Qed.

Lemma add_event_frame now data rid' rty ev rid :
  rid' ≠ rid → add_event now data rid' rty ev !! rid = data !! rid.
Proof.
  intros Hne.
  destruct (add_event_result now data rid' rty ev) as (record & i & -> & _).
  rewrite lookup_insert_ne by exact Hne.
  destruct (data !! rid'); [reflexivity|].
  apply lookup_insert_ne. exact Hne.
Qed.

Lemma add_event_holds_new now data rid rty ev :
  (∃ q, failure_probability (stored_event now ev) = Some q ∧ (0 <= q <= 1)%Q) →
  holds_prediction (add_event now data rid rty ev) rid (event_id ev).
Proof.
  intros Hgood.
  destruct (add_event_result now data rid rty ev)
    as (record & i & -> & _ & _ & _ & Hi & _).
  exists record, (stored_event now ev). rewrite lookup_insert_eq.
  split; [reflexivity|]. split; [|split; [apply stored_event_id|exact Hgood]].
  apply list_elem_of_lookup. exists i. exact Hi.
Qed.

Lemma add_event_keeps_prediction now data rid' rty ev rid eid :
  (∃ q, failure_probability (stored_event now ev) = Some q ∧ (0 <= q <= 1)%Q) →
  holds_prediction data rid eid →
  holds_prediction (add_event now data rid' rty ev) rid eid.
Proof.
  intros Hgood (record & e & Hr & He & Hid & He_good).
  destruct (decide (rid' = rid)) as [->|Hne].
  - destruct (decide (Exists (same_event_id (event_id ev)) (events record)))
      as [Hex|Hnot].
    + destruct (add_event_replace now data rid rty ev record Hr Hex)
        as (i & old & Hfind & ->).
      apply list_find_Some in Hfind as (Hi & Hold & _).
      apply list_elem_of_lookup in He as [j Hj].
      destruct (decide (j = i)) as [->|Hji].
      * exists (with_events record (<[i := stored_event now ev]> (events record)) now),
               (stored_event now ev).
        rewrite lookup_insert_eq. split; [reflexivity|].
        cbn [events with_events]. split; [|split; [|exact Hgood]].
        -- apply list_elem_of_lookup. exists i.
           apply list_lookup_insert_eq. apply lookup_lt_Some in Hi. exact Hi.
        -- rewrite stored_event_id. rewrite Hi in Hj. injection Hj as <-.
           unfold same_event_id in Hold. congruence.
      * exists (with_events record (<[i := stored_event now ev]> (events record)) now),
               e.
        rewrite lookup_insert_eq. split; [reflexivity|].
        cbn [events with_events]. split; [|split; [exact Hid|exact He_good]].
        apply list_elem_of_lookup. exists j.
        rewrite list_lookup_insert_ne by congruence. exact Hj.
    + rewrite (add_event_append now data rid rty ev record Hr Hnot).
      exists (with_events record (events record ++ [stored_event now ev]) now), e.
      rewrite lookup_insert_eq. split; [reflexivity|].
      cbn [events with_events]. split; [|split; [exact Hid|exact He_good]].
      apply elem_of_app. left. exact He.
  - exists record, e. rewrite add_event_frame by exact Hne.
    split; [exact Hr|]. split; [exact He|]. split; [exact Hid|exact He_good].
Qed.

Section Decoded.

Variable json_loads : string → option json.
Variable float_of_str : string → option float_value.

Lemma process_events_spec rid rt : ∀ evs data,
  match process_events json_loads float_of_str rid rt evs data with
  | Returned data' =>
      (∀ r0 eid, holds_prediction data r0 eid → holds_prediction data' r0 eid)
      ∧ (∀ ev, ev ∈ evs → holds_prediction data' rid (event_id (input ev)))
      ∧ (∀ rid', rid' ≠ rid → data' !! rid' = data !! rid')
      ∧ (evs = [] → data' = data)
  | Raised e =>
      (e = AttributeError ∨ e = TypeError ∨ e = OverflowError)
      ∧ ∃ ev, ev ∈ evs
              ∧ predict_failure_probability json_loads float_of_str
                  (exchange_outcome ev) rt (input ev) = Raised e
  end.
Proof.
  induction evs as [|ev evs IH]; intros data; cbn [process_events].
  - cbn [mret outcome_ret]. split; [intros r0 eid H; exact H|].
    split; [intros ev H; inversion H|]. split; reflexivity.
  - pose proof (predict_outcome json_loads float_of_str (exchange_outcome ev)
                  rt (input ev)) as Hp.
    destruct (predict_failure_probability json_loads float_of_str
                (exchange_outcome ev) rt (input ev)) as [p|e] eqn:Hpred;
      cbn [mbind outcome_bind].
    + destruct (stored_prediction (stored_on ev) (input ev) p Hp) as [Hid Hgood].
      specialize (IH (add_event (stored_on ev) data rid rt
                        (set_failure_probability (input ev) p))).
      destruct (process_events json_loads float_of_str rid rt evs _)
        as [data'|e].
      * destruct IH as (Hkeep & Hall & Hframe & _).
        split; [|split; [|split]].
        -- intros r0 eid H. apply Hkeep.
           apply add_event_keeps_prediction; assumption.
        -- intros ev' Hin. apply elem_of_cons in Hin as [->|Hin];
             [|apply Hall, Hin].
           apply Hkeep.
           pose proof (add_event_holds_new (stored_on ev) data rid rt
                         (set_failure_probability (input ev) p) Hgood) as H.
           exact H.
        -- intros rid' Hne. rewrite (Hframe rid' Hne).
           apply add_event_frame. congruence.
        -- discriminate.
      * destruct IH as (He & ev' & Hin & Hev').
        split; [exact He|]. exists ev'. split; [right; exact Hin|exact Hev'].
    + destruct Hp as [He _]. split; [exact He|].
      exists ev. split; [left|exact Hpred].
Qed.

Lemma process_resources_spec : ∀ document data,
  match process_resources json_loads float_of_str document data with
  | Returned data' =>
      (∀ r0 eid, holds_prediction data r0 eid → holds_prediction data' r0 eid)
      ∧ (∀ rid rt ev, event_of_document document rid rt ev →
           holds_prediction data' rid (event_id (input ev)))
      ∧ (∀ rid, (∀ res, (rid, res) ∈ document → input_events res = []) →
           data' !! rid = data !! rid)
  | Raised e =>
      (e = AttributeError ∨ e = TypeError ∨ e = OverflowError)
      ∧ ∃ rid rt ev,
          event_of_document document rid rt ev
          ∧ predict_failure_probability json_loads float_of_str
              (exchange_outcome ev) rt (input ev) = Raised e
  end.
Proof.
  induction document as [|[rid0 res0] document IH]; intros data;
    cbn [process_resources].
  - cbn [mret outcome_ret]. split; [intros r0 eid H; exact H|].
    split; [|reflexivity].
    intros rid rt ev (res & Hin & _). inversion Hin.
  - pose proof (process_events_spec rid0 (input_type res0) (input_events res0)
                  data) as H0.
    destruct (process_events json_loads float_of_str rid0 (input_type res0)
                (input_events res0) data) as [data1|e]; cbn [mbind outcome_bind].
    + destruct H0 as (Hkeep0 & Hall0 & Hframe0 & Hnil0).
      specialize (IH data1).
      destruct (process_resources json_loads float_of_str document data1)
        as [data'|e].
      * destruct IH as (Hkeep & Hall & Hframe).
        split; [|split].
        -- intros r0 eid H. apply Hkeep, Hkeep0, H.
        -- intros rid rt ev (res & Hin & Hrt & Hev).
           apply elem_of_cons in Hin as [[= -> ->]|Hin].
           ++ apply Hkeep, Hall0, Hev.
           ++ apply (Hall rid rt ev). exists res.
              split; [exact Hin|split; assumption].
        -- intros rid Hempty. rewrite Hframe.
           ++ destruct (decide (rid = rid0)) as [->|Hne].
              ** rewrite Hnil0; [reflexivity|]. apply (Hempty res0). left.
              ** apply Hframe0. exact Hne.
           ++ intros res Hin. apply Hempty. right. exact Hin.
      * destruct IH as (He & rid & rt & ev & (res & Hin & Hrt & Hev) & Hraise).
        split; [exact He|]. exists rid, rt, ev. split; [|exact Hraise].
        exists res. split; [right; exact Hin|split; assumption].
    + destruct H0 as (He & ev & Hin & Hraise). split; [exact He|].
      exists rid0, (input_type res0), ev. split; [|exact Hraise].
      exists res0. split; [left|split; [reflexivity|exact Hin]].
Qed.

(** Property X15.  When [process_input_file] returns, the store holds, for
    every event of the document, an event of its identifier under its
    resource, with a failure probability in [[0, 1]]; a resource that has
    no event in the document is not added, and the resources that the
    document does not name are as they were. An exception that leaves it
    is that of the prediction for an event of the document; the store is
    not saved then. *)
Theorem processed_events_are_stored document data :
  match process_input_file json_loads float_of_str document data with
  | Returned data' =>
      (∀ rid rt ev, event_of_document document rid rt ev →
         holds_prediction data' rid (event_id (input ev)))
      ∧ (∀ rid, (∀ res, (rid, res) ∈ document → input_events res = []) →
           data' !! rid = data !! rid)
  | Raised e =>
      (e = AttributeError ∨ e = TypeError ∨ e = OverflowError)
      ∧ ∃ rid rt ev,
          event_of_document document rid rt ev
          ∧ predict_failure_probability json_loads float_of_str
              (exchange_outcome ev) rt (input ev) = Raised e
  end.
Proof.
  unfold process_input_file.
  pose proof (process_resources_spec document data) as H.
  destruct (process_resources json_loads float_of_str document data)
    as [data'|e]; [|exact H].
  destruct H as (_ & Hall & Hframe). split; assumption.
Qed.

End Decoded.

Lemma processed_events_are_stored_witness :
  ∃ data',
    process_input_file (loads_only "A" (probability_answer 0.7))
      float_of_no_str two_event_document ∅ = Returned data'
    ∧ holds_prediction data' "server_1" (Some "E1"%string)
    ∧ holds_prediction data' "server_1" (Some "E2"%string)
    ∧ data' !! "server_2"%string = None.
Proof.
  pose proof (processed_events_are_stored
                (loads_only "A" (probability_answer 0.7)) float_of_no_str
                two_event_document ∅) as H.
  destruct (process_input_file (loads_only "A" (probability_answer 0.7))
              float_of_no_str two_event_document ∅) as [data'|e] eqn:Hret;
    [|exfalso; vm_compute in Hret; discriminate Hret].
  exists data'. split; [reflexivity|]. destruct H as [Hall Hframe].
  split; [|split].
  - apply (Hall "server_1"%string server
             {| input := EnergyCalculatorSpec.failure_of 3600;
                exchange_outcome := Failed;
                stored_on := EnergyCalculatorSpec.jan_8_2026 |}).
    eexists. split; [left|]. split; [reflexivity|left].
  - apply (Hall "server_1"%string server
             {| input := EnergyCalculatorSpec.input_event "E2" "software_update"
                           EnergyCalculatorSpec.jan_1_2026_10h 600;
                exchange_outcome := Answered "A";
                stored_on := EnergyCalculatorSpec.jan_8_2026 |}).
    eexists. split; [left|]. split; [reflexivity|right; left].
  - rewrite (Hframe "server_2"%string); [reflexivity|].
    intros res Hin. apply list_elem_of_singleton in Hin. discriminate Hin.
Defined.

End ProcessInputFacts.

Module UnfenceFacts.

Import LLMService.

Local Open Scope string_scope.

Lemma str_app_cons x (a b : string) : String x a ++ b = String x (a ++ b).
Proof. reflexivity. Qed.

Lemma str_app_assoc : ∀ a b c : string, (a ++ b) ++ c = a ++ (b ++ c).
Proof.
  induction a as [|x a IH]; intros b c; [reflexivity|].
  rewrite !str_app_cons, IH. reflexivity.
Qed.

Lemma str_app_nil_r : ∀ a : string, a ++ "" = a.
Proof.
  induction a as [|x a IH]; [reflexivity|]. rewrite str_app_cons, IH. reflexivity.
Qed.

Lemma rev_app_spec : ∀ s1 s2, String.rev_app s1 s2 = String.rev s1 ++ s2.
Proof.
  unfold String.rev. induction s1 as [|a s1 IH]; intros s2; cbn; [reflexivity|].
  rewrite IH, (IH (String a "")). rewrite str_app_assoc. reflexivity.
Qed.

Lemma rev_cons c s : String.rev (String c s) = String.rev s ++ String c "".
Proof. unfold String.rev at 1. cbn. apply rev_app_spec. Qed.

Lemma rev_app_distr : ∀ a b, String.rev (a ++ b) = String.rev b ++ String.rev a.
Proof.
  induction a as [|x a IH]; intros b.
  - change (String.rev "") with "". rewrite str_app_nil_r. reflexivity.
  - rewrite str_app_cons, !rev_cons, IH, str_app_assoc. reflexivity.
Qed.

Lemma rev_involutive : ∀ s, String.rev (String.rev s) = s.
Proof.
  induction s as [|x s IH]; [reflexivity|].
  rewrite rev_cons, rev_app_distr, IH. reflexivity.
Qed.

Lemma lstrip_app : ∀ a b,
  lstrip (a ++ b) = if String.eqb (lstrip a) "" then lstrip b else lstrip a ++ b.
Proof.
  induction a as [|x a IH]; intros b; [reflexivity|].
  rewrite str_app_cons. cbn [lstrip].
  destruct (isspace x); [apply IH|reflexivity].
Qed.

Lemma lstrip_idem : ∀ s, lstrip (lstrip s) = lstrip s.
Proof.
  induction s as [|x s IH]; cbn; [reflexivity|].
  destruct (isspace x) eqn:Hx; [exact IH|]. cbn. rewrite Hx. reflexivity.
Qed.

(** White space around a text does not change what [strip] makes of
    it. *)
Lemma strip_between (ws1 ws2 body : string) :
  lstrip ws1 = "" → lstrip ws2 = "" →
  strip (ws1 ++ body ++ ws2) = strip body.
Proof.
  intros H1 H2. unfold strip. f_equal.
  rewrite lstrip_app, H1. cbn [String.eqb].
  rewrite lstrip_app.
  destruct (String.eqb_spec (lstrip body) "") as [Hb|Hb].
  - rewrite Hb, H2. reflexivity.
  - rewrite rev_app_distr, lstrip_app.
    assert (Hrev : lstrip (String.rev ws2) = "").
    { clear -H2. induction ws2 as [|x ws2 IH]; [reflexivity|].
      cbn in H2. destruct (isspace x) eqn:Hx; [|discriminate].
      rewrite rev_cons, lstrip_app, (IH H2). cbn. rewrite Hx. reflexivity. }
    rewrite Hrev. reflexivity.
Qed.

Lemma substring_all : ∀ s, substring 0 (String.length s) s = s.
Proof. induction s as [|x s IH]; cbn; [reflexivity|]. rewrite IH. reflexivity. Qed.

Lemma substring_prefix : ∀ a b, substring 0 (String.length a) (a ++ b) = a.
Proof.
  induction a as [|x a IH]; intros b.
  - destruct b; reflexivity.
  - rewrite str_app_cons. cbn [String.length substring]. rewrite IH. reflexivity.
Qed.

Lemma str_length_app : ∀ a b,
  String.length (a ++ b) = (String.length a + String.length b)%nat.
Proof.
  induction a as [|x a IH]; intros b; [reflexivity|].
  rewrite str_app_cons. cbn [String.length]. rewrite IH. reflexivity.
Qed.

Lemma slice_to_minus_3 a :
  slice_to_minus 3 (a ++ "```") = a.
Proof.
  unfold slice_to_minus. rewrite str_length_app. cbn [String.length].
  replace (String.length a + 3 - 3)%nat with (String.length a) by lia.
  apply substring_prefix.
Qed.

Lemma endswith_fence a : endswith (a ++ "```") "```" = true.
Proof.
  unfold endswith. rewrite rev_app_distr.
  change (String.rev "```") with "```". rewrite !str_app_cons.
  cbn [String.prefix]. repeat (destruct (ascii_dec _ _); [|congruence]).
  change ("" ++ String.rev a) with (String.rev a).
  destruct (String.rev a); reflexivity.
Qed.

Lemma strip_no_space c d (a : string) :
  isspace c = false → isspace d = false →
  strip (String c (a ++ String d "")) = String c (a ++ String d "").
Proof.
  intros Hc Hd. unfold strip. cbn [lstrip]. rewrite Hc.
  assert (H1 : String.rev (String c (a ++ String d ""))
               = String d (String.rev a ++ String c "")).
  { rewrite rev_cons, rev_app_distr, rev_cons.
    change (String.rev "") with "". reflexivity. }
  rewrite H1. cbn [lstrip]. rewrite Hd.
  rewrite rev_cons, rev_app_distr, rev_involutive, rev_cons.
  change (String.rev "") with "". reflexivity.
Qed.

Lemma prefix_app : ∀ p s, String.prefix p (p ++ s) = true.
Proof.
  induction p as [|x p IH]; intros s.
  - destruct s; reflexivity.
  - rewrite str_app_cons. cbn [String.prefix].
    destruct (ascii_dec x x); [apply IH|congruence].
Qed.

Lemma substring_skip : ∀ p s,
  substring (String.length p) (String.length s) (p ++ s) = s.
Proof.
  induction p as [|x p IH]; intros s.
  - apply substring_all.
  - rewrite str_app_cons. cbn [String.length substring]. apply IH.
Qed.

Lemma slice_from_prefix p s :
  slice_from (String.length p) (p ++ s) = s.
Proof.
  unfold slice_from. rewrite str_length_app.
  replace (String.length p + String.length s - String.length p)%nat
    with (String.length s) by lia.
  apply substring_skip.
Qed.

Lemma unfence_steps response a b c :
  strip response = a →
  (if startswith a "```json" then slice_from 7 a else a) = b →
  (if startswith b "```" then slice_from 3 b else b) = c →
  unfence response
  = strip (if endswith c "```" then slice_to_minus 3 c else c).
Proof. intros <- <- <-. reflexivity. Qed.

Lemma fenced_shape (label body : string) :
  "```" ++ label ++ String "010" (body ++ String "010" "```")
  = String "`" (("``" ++ label ++ String "010" (body ++ String "010" "``"))
                ++ String "`" "").
Proof.
  change (String "`" (String "`" (String "`"
            (label ++ String "010" (body ++ String "010" "```"))))
          = String "`" (String "`" (String "`"
              ((label ++ String "010" (body ++ String "010" "``")) ++ "`")))).
  do 3 f_equal. rewrite str_app_assoc. f_equal.
  change (String "010" (body ++ String "010" "```")
          = String "010" ((body ++ String "010" "``") ++ "`")).
  f_equal. rewrite str_app_assoc. reflexivity.
Qed.

Lemma newline_block_shape (body : string) :
  String "010" (body ++ String "010" "```")
  = (String "010" (body ++ String "010" "")) ++ "```".
Proof.
  change (String "010" (body ++ String "010" "```")
          = String "010" ((body ++ String "010" "") ++ "```")).
  f_equal. rewrite str_app_assoc. reflexivity.
Qed.

Lemma lstrip_decomp : ∀ u, ∃ ws, u = ws ++ lstrip u ∧ lstrip ws = "".
Proof.
  induction u as [|x u (ws & Hu & Hws)]; [exists ""; split; reflexivity|].
  cbn [lstrip]. destruct (isspace x) eqn:Hx.
  - exists (String x ws). split.
    + rewrite str_app_cons, <- Hu. reflexivity.
    + cbn [lstrip]. rewrite Hx. exact Hws.
  - exists "". split; reflexivity.
Qed.

Lemma lstrip_head s :
  match lstrip s with
  | "" => True
  | String c _ => isspace c = false
  end.
Proof.
  induction s as [|x s IH]; [exact I|]. cbn [lstrip].
  destruct (isspace x) eqn:Hx; [exact IH|exact Hx].
Qed.

Lemma lstrip_id s :
  match s with
  | "" => True
  | String c _ => isspace c = false
  end → lstrip s = s.
Proof. destruct s as [|c s]; [reflexivity|]. cbn [lstrip]. intros ->. reflexivity. Qed.

Lemma strip_idem s : strip (strip s) = strip s.
Proof.
  unfold strip. f_equal.
  destruct (lstrip_decomp (String.rev (lstrip s))) as (ws & Hu & Hws).
  set (u' := lstrip (String.rev (lstrip s))) in *.
  assert (Hv : lstrip s = String.rev u' ++ String.rev ws).
  { rewrite <- rev_app_distr, <- Hu, rev_involutive. reflexivity. }
  assert (Hhead : lstrip (String.rev u') = String.rev u').
  { apply lstrip_id. pose proof (lstrip_head s) as Hh. rewrite Hv in Hh.
    destruct (String.rev u') as [|c r]; [exact I|exact Hh]. }
  rewrite Hhead, rev_involutive. unfold u'. apply lstrip_idem.
Qed.

(** Property X16.  The answer in a fenced block, with or without the label
    [json], gives the text of the block, stripped of the white space
    around it: the text that the same answer without the fence gives, when
    it neither starts nor ends with a fence. *)
Theorem unfence_fenced_block (body : string) :
  unfence ("```json" ++ String "010" (body ++ String "010" "```")) = strip body
  ∧ unfence ("```" ++ String "010" (body ++ String "010" "```")) = strip body
  ∧ (startswith (strip body) "```" = false →
     endswith (strip body) "```" = false →
     unfence body = strip body).
Proof.
  assert (Hend : strip (if endswith (String "010" (body ++ String "010" "```"))
                             "```"
                        then slice_to_minus 3
                               (String "010" (body ++ String "010" "```"))
                        else String "010" (body ++ String "010" "```"))
                 = strip body).
  { rewrite newline_block_shape, endswith_fence, slice_to_minus_3.
    apply (strip_between (String "010" "") (String "010" "") body);
      reflexivity. }
  split; [|split].
  - rewrite <- Hend. apply unfence_steps with
      (a := "```json" ++ String "010" (body ++ String "010" "```"))
      (b := String "010" (body ++ String "010" "```")).
    + change ("```json" ++ String "010" (body ++ String "010" "```"))
        with ("```" ++ "json" ++ String "010" (body ++ String "010" "```")).
      rewrite fenced_shape. apply strip_no_space; reflexivity.
    + unfold startswith. rewrite prefix_app.
      apply (slice_from_prefix "```json").
    + unfold startswith. cbn [String.prefix].
      destruct (ascii_dec "`" "010") as [e|_]; [discriminate e|reflexivity].
  - rewrite <- Hend. apply unfence_steps with
      (a := "```" ++ String "010" (body ++ String "010" "```"))
      (b := "```" ++ String "010" (body ++ String "010" "```")).
    + change ("```" ++ String "010" (body ++ String "010" "```"))
        with ("```" ++ "" ++ String "010" (body ++ String "010" "```")).
      rewrite fenced_shape. apply strip_no_space; reflexivity.
    + unfold startswith. rewrite !str_app_cons. cbn [String.prefix].
      repeat (destruct (ascii_dec _ _) as [e|]; try discriminate e;
              try reflexivity).
    + unfold startswith. rewrite prefix_app.
      apply (slice_from_prefix "```").
  - intros Hstart Hfin.
    rewrite (unfence_steps body (strip body) (strip body) (strip body));
      [rewrite Hfin; apply strip_idem|reflexivity| |rewrite Hstart; reflexivity].
    assert (Hj : startswith (strip body) "```json" = false).
    { unfold startswith in *. destruct (strip body) as [|c1 [|c2 [|c3 r]]];
        try reflexivity; cbn [String.prefix] in *;
        repeat (destruct (ascii_dec _ _); try reflexivity).
      destruct r; discriminate Hstart. }
    rewrite Hj. reflexivity.
Qed.

End UnfenceFacts.

Module FallbackAdviceFacts.

Import LLMService LLMServiceSpec LLMServiceFacts.

Lemma max_by_value_invariant : ∀ (items l1 l2 : list (string * Q)) best,
  Forall (fun x => (x.2 < best.2)%Q) l1 →
  Forall (fun x => (x.2 <= best.2)%Q) l2 →
  ∃ l1' l2',
    l1 ++ best :: l2 ++ items = l1' ++ max_by_value best items :: l2'
    ∧ Forall (fun x => (x.2 < (max_by_value best items).2)%Q) l1'
    ∧ Forall (fun x => (x.2 <= (max_by_value best items).2)%Q) l2'.
Proof.
  induction items as [|x items IH]; intros l1 l2 best H1 H2.
  - exists l1, l2. rewrite app_nil_r. cbn. repeat split; assumption.
  - cbn [max_by_value]. destruct (Qlt_le_dec best.2 x.2) as [Hlt|Hle].
    + destruct (IH (l1 ++ best :: l2) [] x) as (l1' & l2' & Heq & H1' & H2').
      * apply Forall_app. split; [|constructor].
        -- eapply Forall_impl; [exact H1|]. cbn. intros; lra.
        -- exact Hlt.
        -- eapply Forall_impl; [exact H2|]. cbn. intros; lra.
      * constructor.
      * exists l1', l2'. split; [|split; assumption].
        rewrite <- Heq. cbn. rewrite <- !app_assoc. cbn. reflexivity.
    + destruct (IH l1 (l2 ++ [x]) best) as (l1' & l2' & Heq & H1' & H2').
      * exact H1.
      * apply Forall_app. split; [exact H2|]. constructor; [exact Hle|constructor].
      * exists l1', l2'. split; [|split; assumption].
        rewrite <- Heq. rewrite <- !app_assoc. cbn. reflexivity.
Qed.

(** Property X17.  [_fallback_co2_advice] returns two or three strings,
    none of them empty; it returns two exactly when the type that leads
    the CO2 table is none of [server], [automate] and [workstation]. The
    type that leads is that of the first item of greatest value: every
    item before it has a strictly smaller value, every item after it a
    value that is not greater. *)
Theorem fallback_advice_two_or_three summary :
  (length (_fallback_co2_advice summary) = 2%nat
   ∨ length (_fallback_co2_advice summary) = 3%nat)
  ∧ (length (_fallback_co2_advice summary) = 2%nat
     ↔ ∃ t, leading_type summary = Some t ∧ has_type_advice t = false)
  ∧ Forall (fun advice => advice ≠ ""%string) (_fallback_co2_advice summary)
  ∧ (∀ t, leading_type summary = Some t →
       ∃ before v after,
         co2_by_resource_type summary = before ++ (t, v) :: after
         ∧ Forall (fun x => (x.2 < v)%Q) before
         ∧ Forall (fun x => (x.2 <= v)%Q) after).
Proof.
  pose proof (fallback_advice_length summary) as Hlen.
  split; [|split; [|split; [apply fallback_advice_nonempty|]]].
  - rewrite Hlen. destruct (leading_type summary) as [t|]; [|right; reflexivity].
    destruct (has_type_advice t); [right|left]; reflexivity.
  - rewrite Hlen. destruct (leading_type summary) as [t|].
    + destruct (has_type_advice t) eqn:Ht.
      * split; [discriminate|]. intros (t' & [= <-] & Ht'). congruence.
      * split; [|reflexivity]. intros _. exists t. split; [reflexivity|exact Ht].
    + split; [discriminate|]. intros (t' & [=] & _).
  - intros t. unfold leading_type.
    destruct (co2_by_resource_type summary) as [|first rest]; [discriminate|].
    intros [= <-].
    destruct (max_by_value_invariant rest [] [] first)
      as (l1 & l2 & Heq & H1 & H2); [constructor|constructor|].
    exists l1, (max_by_value first rest).2, l2.
    rewrite <- surjective_pairing. split; [exact Heq|split; assumption].
Qed.

End FallbackAdviceFacts.

Module PredictionFallbackFacts.

Import LLMService LLMServiceSpec LLMServiceFacts.

(** Property X18.  The values that [predict_failure_probability] falls
    back on. An answer that does not decode as JSON, as is the empty
    answer of a failed exchange, gives the value of the severity table for
    the type of the event, 0.3 for a type that the table does not list or
    for an event without a type; an object without a ['probability'] field
    gives 0.5; a probability field that is a string which [float] rejects
    gives the value of the severity table. *)
Theorem prediction_fallback_values json_loads float_of_str x rt ev :
  (json_loads (unfence (_call_llm x)) = None →
   predict_failure_probability json_loads float_of_str x rt ev
   = Returned (Finite (severity (default "unknown" (event_type ev)))))
  ∧ (∀ items,
       json_loads (unfence (_call_llm x)) = Some (JObject items) →
       dict_get items "probability" = None →
       predict_failure_probability json_loads float_of_str x rt ev
       = Returned (Finite 0.5))
  ∧ (∀ items s,
       json_loads (unfence (_call_llm x)) = Some (JObject items) →
       dict_get items "probability" = Some (JString s) →
       float_of_str s = None →
       predict_failure_probability json_loads float_of_str x rt ev
       = Returned (Finite (severity (default "unknown" (event_type ev)))))
  ∧ unfence (_call_llm Failed) = ""%string
  ∧ severity "unknown" = 0.3%Q
  ∧ (∀ t, dict_get severity_map t = None → severity t = 0.3%Q).
Proof.
  split; [apply predict_on_decode_error|]. split; [|split; [|split; [|split]]].
  - intros items Hsome Hnone.
    unfold predict_failure_probability, parse_probability.
    rewrite Hsome. cbn. rewrite Hnone. reflexivity.
  - intros items s Hsome Hs Hfloat.
    unfold predict_failure_probability, parse_probability.
    rewrite Hsome. cbn. rewrite Hs. cbn. rewrite Hfloat. reflexivity.
  - reflexivity.
  - reflexivity.
  - intros t Ht. unfold severity. rewrite Ht. reflexivity.
Qed.

Lemma prediction_fallback_values_witness :
  loads_only "{}" (JObject []) (unfence (_call_llm Failed)) = None
  ∧ predict_failure_probability (loads_only "{}" (JObject [])) float_of_no_str
      Failed server (EnergyCalculatorSpec.failure_of 3600)
    = Returned (Finite 0.9%Q).
Proof.
  assert (H : loads_only "{}" (JObject []) (unfence (_call_llm Failed)) = None)
    by reflexivity.
  split; [exact H|].
  exact (proj1 (prediction_fallback_values (loads_only "{}" (JObject []))
                  float_of_no_str Failed server
                  (EnergyCalculatorSpec.failure_of 3600)) H).
Defined.

End PredictionFallbackFacts.

Module CarbonFootprintFacts.

Import EnergyCalculator EnergyCalculatorSpec EnergyCalculatorFacts.
Import WeeklyEnergySpec WeeklyAccountingFacts.
Import LLMService LLMServiceReports LLMServiceReportsSpec.





End CarbonFootprintFacts.

Module AdviceFacts.

Import LLMService LLMServiceSpec LLMServiceFacts.
Import LLMServiceReports LLMServiceReportsSpec.

Section Sorting.

Context {A : Type} (key : A → Q).

Lemma insert_desc_permutation x : ∀ l, insert_desc key x l ≡ₚ x :: l.
Proof.
  induction l as [|y l IH]; cbn; [reflexivity|].
  destruct (Qlt_le_dec (key x) (key y)); [|reflexivity].
  rewrite IH. apply perm_swap.
Qed.

Lemma sorted_desc_permutation : ∀ l, sorted_desc key l ≡ₚ l.
Proof.
  induction l as [|x l IH]; cbn; [reflexivity|].
  fold (sorted_desc key l). rewrite insert_desc_permutation, IH. reflexivity.
Qed.

Lemma insert_desc_sorted x : ∀ l,
  StronglySorted (fun a b => (key b <= key a)%Q) l →
  StronglySorted (fun a b => (key b <= key a)%Q) (insert_desc key x l).
Proof.
  induction l as [|y l IH]; intros Hs; cbn.
  - repeat constructor.
  - apply StronglySorted_inv in Hs as [Hl Hy].
    destruct (Qlt_le_dec (key x) (key y)) as [Hlt|Hle].
    + constructor; [apply IH, Hl|].
      rewrite insert_desc_permutation. constructor; [lra|exact Hy].
    + constructor; [constructor; assumption|].
      constructor; [exact Hle|].
      eapply Forall_impl; [exact Hy|]. cbn. intros; lra.
Qed.

Lemma sorted_desc_sorted : ∀ l,
  StronglySorted (fun a b => (key b <= key a)%Q) (sorted_desc key l).
Proof.
  induction l as [|x l IH]; cbn; [constructor|].
  apply insert_desc_sorted, IH.
Qed.

Lemma strongly_sorted_descending l :
  StronglySorted (fun a b => (key b <= key a)%Q) l → descending key l.
Proof.
  induction 1 as [|x l Hs IH Hx]; intros i j a b Hij Hi Hj.
  - rewrite lookup_nil in Hi. discriminate.
  - destruct j as [|j]; [lia|]. cbn in Hj. destruct i as [|i]; cbn in Hi.
    + injection Hi as <-. rewrite Forall_forall in Hx. apply Hx.
      apply list_elem_of_lookup. exists j. exact Hj.
    + apply (IH i j a b); [lia|assumption|assumption].
Qed.

(** The first [n] elements of a list sorted by decreasing key: they are
    elements of the list, by decreasing key, and no element left out has
    a greater key than one of them. *)
Lemma top_of_sorted n l :
  let top := take n (sorted_desc key l) in
  length top = Nat.min n (length l)
  ∧ descending key top
  ∧ ∃ rest, top ++ rest ≡ₚ l
            ∧ ∀ a b, a ∈ top → b ∈ rest → (key b <= key a)%Q.
Proof.
  intros top. unfold top. split; [|split].
  - rewrite length_take, (Permutation_length (sorted_desc_permutation l)).
    reflexivity.
  - intros i j a b Hij Hi Hj.
    apply lookup_take_Some in Hi as [Hi _], Hj as [Hj _].
    exact (strongly_sorted_descending _ (sorted_desc_sorted l) i j a b Hij Hi Hj).
  - exists (drop n (sorted_desc key l)). split.
    + rewrite take_drop. apply sorted_desc_permutation.
    + intros a b Ha Hb.
      apply list_elem_of_lookup in Ha as [i Hi], Hb as [j Hj].
      apply lookup_take_Some in Hi as [Hi Hin].
      rewrite lookup_drop in Hj.
      apply (strongly_sorted_descending _ (sorted_desc_sorted l)
               i (n + j)%nat a b); [lia|assumption|assumption].
Qed.

End Sorting.

Lemma high_failure_probability_spec r :
  high_failure_probability r = true
  ↔ (0.3 < ReportGenerator.failure_probability r)%Q.
Proof.
  unfold high_failure_probability.
  destruct (Qlt_le_dec 0.3 (ReportGenerator.failure_probability r));
    split; intros; try assumption; try reflexivity; try discriminate.
  exfalso. lra.
Qed.

(** Property X20.  The two selections of the summary.
    [resources_with_high_co2] holds the five resources of greatest CO2, or
    all of them if there are fewer, by decreasing CO2.
    [resources_with_failures] holds, among the resources whose failure
    probability is strictly above 0.3, the five of greatest probability,
    or all of them if there are fewer, by decreasing probability; it is
    empty exactly when no resource is above 0.3. *)
Theorem summary_selections energy_data carbon_data resource_details :
  let summary := resource_summary energy_data carbon_data resource_details in
  (∃ top rest,
     resources_with_high_co2 summary = summary_entry <$> top
     ∧ length top = Nat.min 5 (length resource_details)
     ∧ descending ReportGenerator.co2_kg top
     ∧ top ++ rest ≡ₚ resource_details
     ∧ ∀ a b, a ∈ top → b ∈ rest →
         (ReportGenerator.co2_kg b <= ReportGenerator.co2_kg a)%Q)
  ∧ (∃ top rest,
       resources_with_failures summary = summary_entry <$> top
       ∧ length top
         = Nat.min 5 (length (List.filter high_failure_probability
                                resource_details))
       ∧ descending ReportGenerator.failure_probability top
       ∧ top ++ rest ≡ₚ List.filter high_failure_probability resource_details
       ∧ (∀ a b, a ∈ top → b ∈ rest →
            (ReportGenerator.failure_probability b
             <= ReportGenerator.failure_probability a)%Q)
       ∧ Forall (fun r => (0.3 < ReportGenerator.failure_probability r)%Q) top)
  ∧ (resources_with_failures summary = []
     ↔ Forall (fun r => (ReportGenerator.failure_probability r <= 0.3)%Q)
         resource_details).
Proof.
  intros summary. split; [|split].
  - destruct (top_of_sorted ReportGenerator.co2_kg 5 resource_details)
      as (Hlen & Hdesc & rest & Hperm & Hrest).
    eexists _, rest. split; [reflexivity|]. repeat split; assumption.
  - destruct (top_of_sorted ReportGenerator.failure_probability 5
                (List.filter high_failure_probability resource_details))
      as (Hlen & Hdesc & rest & Hperm & Hrest).
    eexists _, rest. split; [reflexivity|].
    split; [exact Hlen|]. split; [exact Hdesc|]. split; [exact Hperm|].
    split; [exact Hrest|].
    apply Forall_forall. intros r Hr.
    assert (Hin : r ∈ List.filter high_failure_probability resource_details).
    { rewrite <- Hperm. apply elem_of_app. left. exact Hr. }
    apply list_elem_of_In, filter_In in Hin as [_ Hin].
    apply high_failure_probability_spec. exact Hin.
  - unfold summary, resource_summary. cbn [resources_with_failures].
    set (failing := List.filter high_failure_probability resource_details).
    assert (Hnil : summary_entry
                   <$> take 5 (sorted_desc ReportGenerator.failure_probability
                                 failing) = [] ↔ failing = []).
    { split.
      - intros H. apply fmap_nil_inv in H.
        apply (f_equal length) in H. rewrite length_take in H.
        rewrite (Permutation_length
                   (sorted_desc_permutation
                      ReportGenerator.failure_probability failing)) in H.
        destruct failing; [reflexivity|]. cbn in H. lia.
      - intros ->. reflexivity. }
    rewrite Hnil. unfold failing. split.
    + intros Hf. apply Forall_forall. intros r Hr.
      destruct (Qlt_le_dec 0.3 (ReportGenerator.failure_probability r))
        as [Hlt|Hle]; [|exact Hle].
      exfalso.
      assert (Hin : r ∈ List.filter high_failure_probability resource_details).
      { apply list_elem_of_In, filter_In. split; [apply list_elem_of_In, Hr|].
        apply high_failure_probability_spec. exact Hlt. }
      rewrite Hf in Hin. inversion Hin.
    + intros Hall.
      destruct (List.filter high_failure_probability resource_details)
        as [|r l] eqn:Hf; [reflexivity|].
      exfalso.
      assert (Hin : r ∈ List.filter high_failure_probability resource_details)
        by (rewrite Hf; left).
      apply list_elem_of_In, filter_In in Hin as [Hin Hr].
      apply high_failure_probability_spec in Hr.
      rewrite Forall_forall in Hall.
      specialize (Hall r (proj2 (list_elem_of_In _ _) Hin)). lra.
Qed.

Section Decoded.

Variable json_loads : string → option json.
Variable dict_slice_error : exn.

(** Property X21.  An answer whose ['advices'] field is an array that is
    not empty gives a list of exactly three entries: the first three of
    the array, or the array followed by as many copies of the generic
    advice as make three. The entries of the array are taken as they are,
    strings or not. *)
Theorem advices_of_answer_are_three x energy_data carbon_data
    resource_details items l :
  json_loads (unfence (_call_llm x)) = Some (JObject items) →
  dict_get items "advices" = Some (JArray l) →
  l ≠ [] →
  generate_co2_reduction_advice json_loads dict_slice_error x
    energy_data carbon_data resource_details
  = Returned (JArray (take 3 (l ++ [JString generic_advice;
                                    JString generic_advice])))
  ∧ length (take 3 (l ++ [JString generic_advice; JString generic_advice]))
    = 3%nat.
Proof.
  intros Hsome Hadv Hl. unfold generate_co2_reduction_advice.
  rewrite Hsome, Hadv. cbn [default from_option three_advices].
  destruct l as [|a [|b [|c l]]]; [congruence| | |]; split; reflexivity.
Qed.


(** Property X22.  An answer that does not decode as JSON, an object
    without an ['advices'] field and an ['advices'] array that is empty
    all give the fallback advice for the summary. *)
Theorem advices_fall_back x energy_data carbon_data resource_details :
  let summary := resource_summary energy_data carbon_data resource_details in
  (json_loads (unfence (_call_llm x)) = None
   ∨ ∃ items, json_loads (unfence (_call_llm x)) = Some (JObject items)
              ∧ (dict_get items "advices" = None
                 ∨ dict_get items "advices" = Some (JArray []))) →
  generate_co2_reduction_advice json_loads dict_slice_error x
    energy_data carbon_data resource_details
  = Returned (JArray (JString <$> _fallback_co2_advice summary)).
Proof.
  intros summary [Hnone|(items & Hsome & [Hadv|Hadv])];
    unfold generate_co2_reduction_advice.
  - rewrite Hnone. reflexivity.
  - rewrite Hsome, Hadv. reflexivity.
  - rewrite Hsome, Hadv. reflexivity.
Qed.

End Decoded.

Lemma advices_of_answer_are_three_witness :
  loads_only "A" (advices_answer ["Switch off at night."])
    (unfence (_call_llm (Answered "A")))
  = Some (JObject [("advices"%string, JArray [JString "Switch off at night."])])
  ∧ dict_get [("advices"%string, JArray [JString "Switch off at night."])]
      "advices"
    = Some (JArray [JString "Switch off at night."])
  ∧ [JString "Switch off at night."] ≠ []
  ∧ generate_co2_reduction_advice
      (loads_only "A" (advices_answer ["Switch off at night."])) TypeError
      (Answered "A") EnergyCalculatorSpec.idle_week_energy_data
      (_fallback_carbon_calculation EnergyCalculatorSpec.idle_week_energy_data)
      []
    = Returned (JArray [JString "Switch off at night.";
                        JString generic_advice; JString generic_advice]).
Proof.
  assert (H1 : loads_only "A" (advices_answer ["Switch off at night."])
                 (unfence (_call_llm (Answered "A")))
               = Some (JObject [("advices"%string,
                                 JArray [JString "Switch off at night."])]))
    by reflexivity.
  assert (H2 : dict_get [("advices"%string,
                          JArray [JString "Switch off at night."])] "advices"
               = Some (JArray [JString "Switch off at night."]))
    by reflexivity.
  assert (H3 : [JString "Switch off at night."] ≠ []) by discriminate.
  split; [exact H1|]. split; [exact H2|]. split; [exact H3|].
  exact (proj1 (advices_of_answer_are_three _ TypeError (Answered "A")
                  EnergyCalculatorSpec.idle_week_energy_data
                  (_fallback_carbon_calculation
                     EnergyCalculatorSpec.idle_week_energy_data)
                  [] _ _ H1 H2 H3)).
Defined.

Lemma advices_fall_back_witness :
  (loads_only "A" JNull (unfence (_call_llm Failed)) = None
   ∨ ∃ items, loads_only "A" JNull (unfence (_call_llm Failed))
              = Some (JObject items)
              ∧ (dict_get items "advices" = None
                 ∨ dict_get items "advices" = Some (JArray [])))
  ∧ generate_co2_reduction_advice (loads_only "A" JNull) TypeError Failed
      EnergyCalculatorSpec.idle_week_energy_data
      (_fallback_carbon_calculation EnergyCalculatorSpec.idle_week_energy_data)
      []
    = Returned
        (JArray (JString
                 <$> _fallback_co2_advice
                       (resource_summary
                          EnergyCalculatorSpec.idle_week_energy_data
                          (_fallback_carbon_calculation
                             EnergyCalculatorSpec.idle_week_energy_data)
                          []))).
Proof.
  assert (H : loads_only "A" JNull (unfence (_call_llm Failed)) = None
              ∨ ∃ items, loads_only "A" JNull (unfence (_call_llm Failed))
                         = Some (JObject items)
                         ∧ (dict_get items "advices" = None
                            ∨ dict_get items "advices" = Some (JArray [])))
    by (left; reflexivity).
  split; [exact H|].
  exact (advices_fall_back (loads_only "A" JNull) TypeError Failed
           EnergyCalculatorSpec.idle_week_energy_data
           (_fallback_carbon_calculation
              EnergyCalculatorSpec.idle_week_energy_data) [] H).
Defined.




End AdviceFacts.

Module ReportTextFacts.

Import ReportGenerator ReportGeneratorText ReportGeneratorTextSpec.

Lemma sum_floats_bounds : ∀ (l : list Q) acc,
  Forall (fun p => (0 <= p <= 1)%Q) l →
  (acc <= fold_left Qplus l acc
   ∧ fold_left Qplus l acc <= acc + inject_Z (Z.of_nat (length l)))%Q.
Proof.
  induction l as [|p l IH]; intros acc Hall; cbn [fold_left length].
  - change (inject_Z (Z.of_nat 0)) with 0%Q. lra.
  - inversion Hall as [|? ? Hp Hl]; subst.
    destruct (IH (acc + p)%Q Hl) as [H1 H2].
    rewrite Nat2Z.inj_succ. unfold Z.succ. rewrite inject_Z_plus.
    change (inject_Z 1) with 1%Q. lra.
Qed.

(** Property X24.  The failure probability of a resource in the report,
    the average of the probabilities that its events carry, lies in [[0,
    1]] when each of them does; it is 0 for a resource none of whose
    events carries one. *)
Theorem average_failure_probability_in_unit_interval evs :
  probabilities_in_unit_interval evs →
  (0 <= average_failure_probability evs <= 1)%Q
  ∧ (omap Events.failure_probability evs = [] →
     average_failure_probability evs = 0.0%Q).
Proof.
  intros Hall. unfold average_failure_probability. split.
  - assert (Hprobs : Forall (fun p => (0 <= p <= 1)%Q)
                       (omap Events.failure_probability evs)).
    { apply Forall_forall. intros p Hp.
      apply list_elem_of_omap in Hp as (ev & Hev & Hp).
      unfold probabilities_in_unit_interval in Hall.
      rewrite Forall_forall in Hall. exact (Hall ev Hev p Hp). }
    destruct (omap Events.failure_probability evs) as [|p l] eqn:Hl;
      [split; discriminate|].
    destruct (sum_floats_bounds (p :: l) 0%Q Hprobs) as [H1 H2].
    unfold sum_floats.
    set (n := inject_Z (Z.of_nat (length (p :: l)))) in *.
    assert (Hn : (0 < n)%Q).
    { unfold n. change 0%Q with (inject_Z 0). rewrite <- Zlt_Qlt.
      cbn [length]. lia. }
    split.
    + apply Qle_shift_div_l; [exact Hn|]. lra.
    + apply Qle_shift_div_r; [exact Hn|]. lra.
  - intros ->. reflexivity.
Qed.

Lemma average_failure_probability_witness :
  probabilities_in_unit_interval
    [predicted (EnergyCalculatorSpec.failure_of 3600) 0.9;
     EnergyCalculatorSpec.failure_of 60;
     predicted (EnergyCalculatorSpec.failure_of 1800) 0.2]
  ∧ (0 <= average_failure_probability
            [predicted (EnergyCalculatorSpec.failure_of 3600) 0.9;
             EnergyCalculatorSpec.failure_of 60;
             predicted (EnergyCalculatorSpec.failure_of 1800) 0.2]
     <= 1)%Q.
Proof.
  assert (H : probabilities_in_unit_interval
    [predicted (EnergyCalculatorSpec.failure_of 3600) 0.9;
     EnergyCalculatorSpec.failure_of 60;
     predicted (EnergyCalculatorSpec.failure_of 1800) 0.2]).
  { constructor; [intros p [= <-]; lra|].
    constructor; [intros p [=]|].
    constructor; [intros p [= <-]; lra|constructor]. }
  split; [exact H|].
  exact (proj1 (average_failure_probability_in_unit_interval _ H)).
Defined.

Lemma compare_type_rank a b :
  String.compare (type_name a) (type_name b)
  = Nat.compare (type_rank a) (type_rank b).
Proof. destruct a, b; reflexivity. Qed.

Lemma type_rank_inj a b : type_rank a = type_rank b → a = b.
Proof. destruct a, b; cbn; congruence. Qed.

Lemma key_lt_true y x :
  key_lt y x = true →
  (type_rank (type y) < type_rank (type x))%nat
  ∨ (type y = type x ∧ (co2_kg x <= co2_kg y)%Q).
Proof.
  unfold key_lt. rewrite compare_type_rank.
  destruct (Nat.compare_spec (type_rank (type y)) (type_rank (type x)))
    as [Heq|Hlt|Hgt]; try discriminate.
  - destruct (Qlt_le_dec (- co2_kg y) (- co2_kg x)); [|discriminate].
    intros _. right. split; [apply type_rank_inj, Heq|lra].
  - intros _. left. exact Hlt.
Qed.

Lemma key_lt_false y x :
  key_lt y x = false →
  (type_rank (type x) < type_rank (type y))%nat
  ∨ (type x = type y ∧ (co2_kg y <= co2_kg x)%Q).
Proof.
  unfold key_lt. rewrite compare_type_rank.
  destruct (Nat.compare_spec (type_rank (type y)) (type_rank (type x)))
    as [Heq|Hlt|Hgt]; try discriminate.
  - destruct (Qlt_le_dec (- co2_kg y) (- co2_kg x)); [discriminate|].
    intros _. right. split; [symmetry; apply type_rank_inj, Heq|lra].
  - intros _. left. exact Hgt.
Qed.

Lemma key_le_trans (a b c : ResourceDetail) :
  ((type_rank (type a) < type_rank (type b))%nat
   ∨ (type a = type b ∧ (co2_kg b <= co2_kg a)%Q)) →
  ((type_rank (type b) < type_rank (type c))%nat
   ∨ (type b = type c ∧ (co2_kg c <= co2_kg b)%Q)) →
  (type_rank (type a) < type_rank (type c))%nat
  ∨ (type a = type c ∧ (co2_kg c <= co2_kg a)%Q).
Proof.
  intros [H1|[H1 H1']] [H2|[H2 H2']].
  - left. lia.
  - left. rewrite <- H2. exact H1.
  - left. rewrite H1. exact H2.
  - right. split; [congruence|lra].
Qed.

Lemma insert_by_key_permutation x : ∀ l, insert_by_key x l ≡ₚ x :: l.
Proof.
  induction l as [|y l IH]; cbn; [reflexivity|].
  destruct (key_lt y x); [|reflexivity].
  rewrite IH. apply perm_swap.
Qed.

Lemma sort_details_permutation : ∀ l, sort_details l ≡ₚ l.
Proof.
  induction l as [|x l IH]; cbn; [reflexivity|].
  fold (sort_details l). rewrite insert_by_key_permutation, IH. reflexivity.
Qed.

Lemma insert_by_key_sorted x : ∀ l,
  StronglySorted
    (fun a b => (type_rank (type a) < type_rank (type b))%nat
                ∨ (type a = type b ∧ (co2_kg b <= co2_kg a)%Q)) l →
  StronglySorted
    (fun a b => (type_rank (type a) < type_rank (type b))%nat
                ∨ (type a = type b ∧ (co2_kg b <= co2_kg a)%Q))
    (insert_by_key x l).
Proof.
  induction l as [|y l IH]; intros Hs; cbn.
  - repeat constructor.
  - apply StronglySorted_inv in Hs as [Hl Hy].
    destruct (key_lt y x) eqn:Hk.
    + constructor; [apply IH, Hl|].
      rewrite insert_by_key_permutation.
      constructor; [apply key_lt_true, Hk|exact Hy].
    + apply key_lt_false in Hk.
      constructor; [constructor; assumption|].
      constructor; [exact Hk|].
      eapply Forall_impl; [exact Hy|]. cbn. intros z Hz.
      exact (key_le_trans x y z Hk Hz).
Qed.

Lemma sort_details_sorted : ∀ l,
  StronglySorted
    (fun a b => (type_rank (type a) < type_rank (type b))%nat
                ∨ (type a = type b ∧ (co2_kg b <= co2_kg a)%Q))
    (sort_details l).
Proof.
  induction l as [|x l IH]; cbn; [constructor|].
  apply insert_by_key_sorted, IH.
Qed.

Lemma headers_of_app l1 l2 :
  headers_of (l1 ++ l2) = headers_of l1 ++ headers_of l2.
Proof. apply omap_app. Qed.

Lemma resources_of_app l1 l2 :
  resources_of (l1 ++ l2) = resources_of l1 ++ resources_of l2.
Proof. apply omap_app. Qed.

Lemma detail_lines_cons cur r l :
  headers_of (detail_lines cur (r :: l))
  = (if decide (Some (type r) = cur) then headers_of (detail_lines cur l)
     else type r :: headers_of (detail_lines (Some (type r)) l))
  ∧ resources_of (detail_lines cur (r :: l))
    = r :: resources_of (detail_lines
                           (if decide (Some (type r) = cur) then cur
                            else Some (type r)) l).
Proof.
  cbn [detail_lines]. destruct (decide (Some (type r) = cur)).
  - split; reflexivity.
  - rewrite headers_of_app, resources_of_app. destruct cur; split; reflexivity.
Qed.

Lemma resources_of_detail_lines : ∀ l cur,
  resources_of (detail_lines cur l) = l.
Proof.
  induction l as [|r l IH]; intros cur; [reflexivity|].
  rewrite (proj2 (detail_lines_cons cur r l)), IH. reflexivity.
Qed.

Lemma headers_are_types : ∀ l cur rt,
  (rt ∈ headers_of (detail_lines cur l) → ∃ r, r ∈ l ∧ type r = rt)
  ∧ (∀ r, r ∈ l → type r = rt →
       rt ∈ headers_of (detail_lines cur l) ∨ cur = Some rt).
Proof.
  induction l as [|r l IH]; intros cur rt.
  - split; [intros H; inversion H|intros r H; inversion H].
  - rewrite (proj1 (detail_lines_cons cur r l)).
    destruct (decide (Some (type r) = cur)) as [Hc|Hc].
    + destruct (IH cur rt) as [H1 H2]. split.
      * intros H. destruct (H1 H) as (r' & Hin & Hr').
        exists r'. split; [right; exact Hin|exact Hr'].
      * intros r' Hin Hr'. apply elem_of_cons in Hin as [->|Hin].
        -- right. congruence.
        -- exact (H2 r' Hin Hr').
    + destruct (IH (Some (type r)) rt) as [H1 H2]. split.
      * intros H. apply elem_of_cons in H as [->|H].
        -- exists r. split; [left|reflexivity].
        -- destruct (H1 H) as (r' & Hin & Hr').
           exists r'. split; [right; exact Hin|exact Hr'].
      * intros r' Hin Hr'. left. apply elem_of_cons in Hin as [->|Hin].
        -- rewrite Hr'. left.
        -- destruct (H2 r' Hin Hr') as [H|[= H]].
           ++ right. exact H.
           ++ rewrite H. left.
Qed.

Lemma headers_increasing : ∀ l cur,
  StronglySorted
    (fun a b => (type_rank (type a) < type_rank (type b))%nat
                ∨ (type a = type b ∧ (co2_kg b <= co2_kg a)%Q)) l →
  (∀ c, cur = Some c →
     Forall (fun r => (type_rank c <= type_rank (type r))%nat) l) →
  StronglySorted (fun a b => (type_rank a < type_rank b)%nat)
    (headers_of (detail_lines cur l))
  ∧ Forall (fun h => ∀ c, cur = Some c → (type_rank c < type_rank h)%nat)
      (headers_of (detail_lines cur l)).
Proof.
  induction l as [|r l IH]; intros cur Hs Hcur.
  - split; constructor.
  - apply StronglySorted_inv in Hs as [Hl Hr].
    rewrite (proj1 (detail_lines_cons cur r l)).
    destruct (decide (Some (type r) = cur)) as [Hc|Hc].
    + apply IH; [exact Hl|]. intros c Hcc.
      specialize (Hcur c Hcc). inversion Hcur; assumption.
    + destruct (IH (Some (type r)) Hl) as [H1 H2].
      { intros c [= <-]. eapply Forall_impl; [exact Hr|]. cbn.
        intros z [Hz|[Hz _]]; [lia|rewrite Hz; lia]. }
      assert (Hgt : Forall (fun h => (type_rank (type r) < type_rank h)%nat)
                      (headers_of (detail_lines (Some (type r)) l))).
      { eapply Forall_impl; [exact H2|]. cbn. intros h Hh. apply Hh. reflexivity. }
      split.
      * constructor; assumption.
      * constructor.
        -- intros c Hcc. specialize (Hcur c Hcc).
           inversion Hcur as [|? ? Hle _]; subst.
           destruct (Nat.eq_dec (type_rank c) (type_rank (type r))) as [He|He];
             [|lia].
           apply type_rank_inj in He. congruence.
        -- eapply Forall_impl; [exact Hgt|]. cbn. intros h Hh c Hcc.
           specialize (Hcur c Hcc). inversion Hcur as [|? ? Hle _]; subst. lia.
Qed.

Lemma increasing_NoDup (l : list resource_type) :
  StronglySorted (fun a b => (type_rank a < type_rank b)%nat) l → NoDup l.
Proof.
  induction 1 as [|x l Hs IH Hx]; constructor; [|exact IH].
  intros Hin. rewrite Forall_forall in Hx. specialize (Hx x Hin). lia.
Qed.

Lemma strongly_sorted_lookup {A} (R : A → A → Prop) l :
  StronglySorted R l →
  ∀ i j a b, (i < j)%nat → l !! i = Some a → l !! j = Some b → R a b.
Proof.
  induction 1 as [|x l Hs IH Hx]; intros i j a b Hij Hi Hj.
  - rewrite lookup_nil in Hi. discriminate.
  - destruct j as [|j]; [lia|]. cbn in Hj. destruct i as [|i]; cbn in Hi.
    + injection Hi as <-. rewrite Forall_forall in Hx. apply Hx.
      apply list_elem_of_lookup. exists j. exact Hj.
    + apply (IH i j a b); [lia|assumption|assumption].
Qed.

(** Property X25.  The section of the report that lists the resources has
    one header for each type that has a resource, and no type has two: the
    list is sorted by the name of the type before it is grouped. Every
    resource has its line; the lines follow the order of the names of the
    types and, within a type, the decreasing order of CO2. *)
Theorem report_groups_each_type_once resource_details :
  let lines := sorted_detail_lines resource_details in
  NoDup (headers_of lines)
  ∧ (∀ rt, rt ∈ headers_of lines
           ↔ ∃ r, r ∈ resource_details ∧ type r = rt)
  ∧ resources_of lines ≡ₚ resource_details
  ∧ ∀ i j a b, (i < j)%nat →
      resources_of lines !! i = Some a → resources_of lines !! j = Some b →
      (type_rank (type a) < type_rank (type b))%nat
      ∨ (type a = type b ∧ (co2_kg b <= co2_kg a)%Q).
Proof.
  intros lines. unfold lines, sorted_detail_lines.
  pose proof (sort_details_sorted resource_details) as Hs.
  pose proof (sort_details_permutation resource_details) as Hp.
  split; [|split; [|split]].
  - apply increasing_NoDup.
    apply (headers_increasing (sort_details resource_details) None Hs).
    intros c [=].
  - intros rt.
    destruct (headers_are_types (sort_details resource_details) None rt)
      as [H1 H2].
    split.
    + intros H. destruct (H1 H) as (r & Hin & Hr).
      exists r. split; [rewrite <- Hp; exact Hin|exact Hr].
    + intros (r & Hin & Hr). rewrite <- Hp in Hin.
      destruct (H2 r Hin Hr) as [H|[=]]. exact H.
  - rewrite resources_of_detail_lines. exact Hp.
  - rewrite resources_of_detail_lines.
    apply (strongly_sorted_lookup _ _ Hs).
Qed.

End ReportTextFacts.

Module ReportBreakdownFacts.

Import EnergyCalculator EnergyCalculatorSpec EnergyCalculatorFacts.
Import WeeklyEnergySpec WeeklyAccountingFacts.
Import ReportGenerator ReportGeneratorBreakdown.








End ReportBreakdownFacts.

Module AgentMonitorIntervalFacts.

Import AgentMonitor AgentMonitorSpec AgentMonitorFacts.
Import AgentMonitorIntervalSpec.
Import EnergyCalculatorSpec EnergyCalculatorFacts.










Lemma modifier_sum_shift c n : ∀ evs acc,
  (modifier_sum_loop c n evs acc == acc + modifier_sum_loop c n evs 0)%Q.
Proof.
  induction evs as [|ev evs IH]; intros acc; cbn [modifier_sum_loop]; [ring|].
  rewrite IH. rewrite (IH (if overlaps c n ev then _ else _)).
  destruct (overlaps c n ev); ring.
Qed.

(** The loop is monotone in the effective modifier of the sub-intervals
    of the window. *)
Lemma interval_loop_le rt s e (A B : list ParsedEvent) :
  (∀ c n, s <= c → c < n → n <= e →
     (effective_modifier c n A <= effective_modifier c n B)%Q) →
  ∀ fuel c total total',
    s <= c → (total <= total')%Q →
    (interval_loop fuel rt c e A total <= interval_loop fuel rt c e B total')%Q.
Proof.
  intros Hle. induction fuel as [|fuel IH]; intros c total total' Hc Ht;
    cbn [interval_loop]; [assumption|]. cbv zeta.
  destruct (Z.ltb_spec c e) as [Hlt|]; [|assumption].
  set (next := if c + timedelta_hours 1 >? e then e
               else c + timedelta_hours 1).
  assert (Hnext : c < next ∧ next <= e).
  { unfold next, timedelta_hours, usec_per_hour, usec_per_second.
    destruct (Z.gtb_spec (c + 1 * (3600 * 1000000)) e); lia. }
  apply IH; [change (s <= next); lia|]. fold next.
  pose proof (Hle c next Hc (proj1 Hnext) (proj2 Hnext)) as Heff.
  pose proof (base_power_nonnegative rt
                ((8 <=? dt_hour c) && (dt_hour c <? 20))) as Hbase.
  assert (Hd : (0 <= total_seconds (next - c)%Z / 3600)%Q).
  { rewrite hours_of_usec. apply Qle_shift_div_l; [reflexivity|].
    rewrite Qmult_0_l. change 0%Q with (inject_Z 0). rewrite <- Zle_Qle. lia. }
  apply Qplus_le_compat; [exact Ht|].
  apply Qmult_le_compat_r; [|exact Hd].
  rewrite !(Qmult_comm (inject_Z _)).
  apply Qmult_le_compat_r; [|exact Hbase].
  apply Qplus_le_r. exact Heff.
Qed.

Lemma overlaps_outside s e c n ev :
  outside_window s e ev → s <= c → c < n → n <= e → overlaps c n ev = false.
Proof.
  intros Hout Hc Hcn Hn. unfold overlaps, outside_window in *.
  apply Z.ltb_ge. lia.
Qed.

Lemma effective_modifier_outside s e c n : ∀ events,
  Forall (outside_window s e) events → s <= c → c < n → n <= e →
  effective_modifier c n events = effective_modifier c n [].
Proof.
  intros events Hall Hc Hcn Hn. unfold effective_modifier. f_equal.
  generalize 0%Q. induction Hall as [|ev evs Hev _ IH]; intros acc;
    [reflexivity|].
  cbn [modifier_sum_loop].
  rewrite (overlaps_outside s e c n ev Hev Hc Hcn Hn). apply IH.
Qed.

(** Property X28.  An event that meets no part of the window (it ends
    before the window starts, starts after it ends, or ends at or before
    its own start, as an event of duration 0 does) does not change the
    energy of the window. *)
Theorem events_outside_window_ignored rt s e events :
  Forall (outside_window s e) events →
  (calculate_energy_for_interval rt s e events
   == calculate_energy_for_interval rt s e [])%Q.
Proof.
  intros Hall. unfold calculate_energy_for_interval.
  apply Qle_antisym; apply (interval_loop_le rt s e); try lia; try lra;
    intros c n Hc Hcn Hn;
    rewrite (effective_modifier_outside s e c n events Hall Hc Hcn Hn); lra.
Qed.

Lemma events_outside_window_ignored_witness :
  Forall (outside_window (jan_8_2026 - timedelta_days 7) jan_8_2026)
    [{| start_dt := jan_8_2026; end_dt := jan_8_2026 + timedelta_hours 2;
        event_type := "hardware_failure" |};
     {| start_dt := jan_1_2026_10h; end_dt := jan_1_2026_10h;
        event_type := "hardware_failure" |}]
  ∧ (calculate_energy_for_interval server
       (jan_8_2026 - timedelta_days 7)%Z jan_8_2026
       [{| start_dt := jan_8_2026; end_dt := (jan_8_2026 + timedelta_hours 2)%Z;
           event_type := "hardware_failure" |};
        {| start_dt := jan_1_2026_10h; end_dt := jan_1_2026_10h;
           event_type := "hardware_failure" |}]
     == calculate_energy_for_interval server
          (jan_8_2026 - timedelta_days 7)%Z jan_8_2026 [])%Q.
Proof.
  assert (H : Forall (outside_window (jan_8_2026 - timedelta_days 7) jan_8_2026)
    [{| start_dt := jan_8_2026; end_dt := jan_8_2026 + timedelta_hours 2;
        event_type := "hardware_failure" |};
     {| start_dt := jan_1_2026_10h; end_dt := jan_1_2026_10h;
        event_type := "hardware_failure" |}]).
  { constructor; [right; left; cbn; lia|].
    constructor; [right; right; cbn; lia|constructor]. }
  split; [exact H|]. exact (events_outside_window_ignored server _ _ _ H).
Defined.

Lemma effective_modifier_cons c n ev evs :
  ((mod_val ev <= 0 →
    effective_modifier c n (ev :: evs) <= effective_modifier c n evs)
   ∧ (0 <= mod_val ev →
      effective_modifier c n evs <= effective_modifier c n (ev :: evs)))%Q.
Proof.
  unfold effective_modifier. cbn [modifier_sum_loop].
  rewrite (modifier_sum_shift c n evs (if overlaps c n ev then _ else _)).
  set (m := modifier_sum_loop c n evs 0).
  destruct (overlaps c n ev); split; intros Hm;
    apply Q.max_le_compat_l; lra.
Qed.

(** Property X29.  Adding an event whose modifier is negative or null
    never increases the energy of a window, and adding one whose modifier
    is positive or null never decreases it. *)
Theorem interval_energy_monotone rt s e ev events :
  ((mod_val ev <= 0 →
    calculate_energy_for_interval rt s e (ev :: events)
    <= calculate_energy_for_interval rt s e events)
   ∧ (0 <= mod_val ev →
      calculate_energy_for_interval rt s e events
      <= calculate_energy_for_interval rt s e (ev :: events)))%Q.
Proof.
  unfold calculate_energy_for_interval. split; intros Hm;
    apply (interval_loop_le rt s e); try lia; try lra;
    intros c n _ _ _; apply effective_modifier_cons; exact Hm.
Qed.

Lemma interval_energy_monotone_witness :
  (mod_val failure_10h <= 0
   ∧ calculate_energy_for_interval server
       (jan_8_2026 - timedelta_days 7)%Z jan_8_2026 [failure_10h]
     <= calculate_energy_for_interval server
          (jan_8_2026 - timedelta_days 7)%Z jan_8_2026 [])%Q.
Proof.
  assert (H : (mod_val failure_10h <= 0)%Q) by (vm_compute; discriminate).
  split; [exact H|].
  exact (proj1 (interval_energy_monotone server _ _ failure_10h []) H).
Defined.

End AgentMonitorIntervalFacts.

Module AgentMonitorSummaryFacts.

Import AgentMonitor AgentMonitorSpec AgentMonitorFacts.
Import AgentMonitorSummary AgentMonitorSummarySpec.
Import AgentMonitorIntervalFacts.
Import EnergyCalculatorSpec.




Lemma sum_over_nonnegative (f : string → Q) names :
  (∀ name, (0 <= f name)%Q) → (0 <= sum_over f names)%Q.
Proof.
  intros H. induction names as [|n names IH]; cbn; [apply Qle_refl|].
  apply (Qle_trans _ (0 + 0)); [apply Qle_refl|].
  apply Qplus_le_compat; [apply H|exact IH].
Qed.









Lemma usage_energy_nonnegative events_data r_type name :
  (0 <= energy_wh (usage_of events_data r_type name))%Q.
Proof.
  cbn [energy_wh usage_of]. unfold calculate_energy_for_interval.
  apply interval_loop_nonnegative, Qle_refl.
Qed.

Lemma energy_of_name_nonnegative events_data name :
  (0 <= energy_of_name events_data name)%Q.
Proof.
  unfold energy_of_name, entry_of.
  destruct (type_of_name name); [apply usage_energy_nonnegative|apply Qle_refl].
Qed.



End AgentMonitorSummaryFacts.
